(** * Verification of the credential checker (checker.py, mt_client.py)

    A shallow embedding of the verification engine: the password format
    policy, the HTTP client with its endpoint failover, the per-credential
    retry loop and the worker pool, followed by the properties of the
    specification that were established or refuted on it. *)

From Stdlib Require Import String Ascii List ZArith QArith Bool Lia DecimalString.
From Stdlib Require Import Sorted Permutation.
From stdpp Require Import gmap strings.
Import ListNotations.

Close Scope Q_scope.
Open Scope string_scope.
Open Scope nat_scope.

(** ** Python strings

    Texts handled by the client (response bodies, error messages, urls) are
    strings of code points below 256; [lower], [contains] and [is_blank]
    follow [str.lower], [in] and [not s.strip()] on these code points. *)

Module Py.

Definition lower_char (c : ascii) : ascii :=
  let n := nat_of_ascii c in
  if ((65 <=? n) && (n <=? 90)) || ((192 <=? n) && (n <=? 222) && negb (n =? 215))
  then ascii_of_nat (n + 32) else c.

Fixpoint lower (s : string) : string :=
  match s with
  | EmptyString => EmptyString
  | String c r => String (lower_char c) (lower r)
  end.

(** [contains needle hay] is Python's [needle in hay]. *)
Fixpoint contains (needle hay : string) : bool :=
  String.prefix needle hay ||
  match hay with
  | EmptyString => false
  | String _ r => contains needle r
  end.

(** [any(key.lower() in text for key in keys)] with [text] already lowered. *)
Definition any_key_in (keys : list string) (text : string) : bool :=
  existsb (fun key => contains (lower key) text) keys.

Definition isspace (c : ascii) : bool :=
  let n := nat_of_ascii c in
  ((9 <=? n) && (n <=? 13)) || ((28 <=? n) && (n <=? 32)) || (n =? 133) || (n =? 160).

(** [not text.strip()] *)
Fixpoint is_blank (s : string) : bool :=
  match s with
  | EmptyString => true
  | String c r => isspace c && is_blank r
  end.

Definition str_of_Z (z : Z) : string := NilZero.string_of_int (Z.to_int z).

End Py.

(** ** Characters of a password

    [_validate_password_format] classifies the characters of a password with
    [str.isupper], [str.islower], [str.isdigit], [str.isalnum],
    [str.isalpha] and rewrites one with [str.upper].  These are functions of
    the Python library over all of Unicode, so the character type and its
    classification are an interface; [upper] returns a string because the
    upper case of one character may be several. *)

Class PyChar (char : Type) := {
  isupper : char -> bool;
  islower : char -> bool;
  isdigit : char -> bool;
  isalnum : char -> bool;
  isalpha : char -> bool;
  upper : char -> list char;
}.

(** The classification of the code points below 128, used for concrete
    runs.  Code points from 128 on are outside this instance; they are
    classed as symbols here and no example uses them. *)
Module AsciiChar.

Definition between (lo hi : nat) (c : ascii) : bool :=
  let n := nat_of_ascii c in (lo <=? n) && (n <=? hi).

Definition is_upper (c : ascii) : bool := between 65 90 c.
Definition is_lower (c : ascii) : bool := between 97 122 c.
Definition is_digit (c : ascii) : bool := between 48 57 c.
Definition is_alpha (c : ascii) : bool := is_upper c || is_lower c.
Definition is_alnum (c : ascii) : bool := is_alpha c || is_digit c.
Definition to_upper (c : ascii) : list ascii :=
  if is_lower c then [ascii_of_nat (nat_of_ascii c - 32)] else [c].

#[global] Instance ascii_PyChar : PyChar ascii := {|
  isupper := is_upper; islower := is_lower; isdigit := is_digit;
  isalnum := is_alnum; isalpha := is_alpha; upper := to_upper |}.

Definition chars (s : string) : list ascii := list_ascii_of_string s.

End AsciiChar.

(** ** JSON values as the client observes them *)

Inductive jval :=
| JNone
| JBool (b : bool)
| JInt (z : Z)
| JStr (s : string)
| JDictV (repr : string) (items : gmap string string)
    (* a nested object: its [str()] rendering and that of each item *)
| JOpaque (type_name repr : string) (truthy : bool).
    (* a float or an array: only its type name, [str()] and truth value
       are observed *)

(** [str(v)] *)
Definition py_str (v : jval) : string :=
  match v with
  | JNone => "None"
  | JBool true => "True"
  | JBool false => "False"
  | JInt z => Py.str_of_Z z
  | JStr s => s
  | JDictV repr _ => repr
  | JOpaque _ repr _ => repr
  end.

(** [type(v).__name__] *)
Definition py_type_name (v : jval) : string :=
  match v with
  | JNone => "NoneType"
  | JBool _ => "bool"
  | JInt _ => "int"
  | JStr _ => "str"
  | JDictV _ _ => "dict"
  | JOpaque type_name _ _ => type_name
  end.

(** truth value of [v] *)
Definition py_bool (v : jval) : bool :=
  match v with
  | JNone => false
  | JBool b => b
  | JInt z => negb (z =? 0)%Z
  | JStr s => negb (String.eqb s "")
  | JDictV _ items => negb (bool_decide (items = ∅))
  | JOpaque _ _ t => t
  end.

Definition jval_eqb_str (v : jval) (s : string) : bool :=
  match v with JStr s' => String.eqb s' s | _ => false end.

(** [d.get(key) == s] for a string literal [s] *)
Definition get_eqb_str (d : gmap string jval) (key s : string) : bool :=
  match d !! key with
  | Some v => jval_eqb_str v s
  | None => false
  end.

(** The root of a parsed body: a dict, or another value, on which [.get]
    raises [AttributeError] with the given message. *)
Inductive json_root :=
| JDict (d : gmap string jval)
| JNotDict (attr_error : string).

(** ** Control: exceptions, loop control and process exit

    A Python computation over a state [S] either yields a value or leaves
    its normal course with a signal: an exception, the [continue] or
    [return] of the enclosing retry loop, or [os._exit]. *)

Inductive signal :=
| RequestException (msg : string)   (* requests.RequestException, [str(e) = msg] *)
| Exception (msg : string)          (* any other exception, [str(e) = msg] *)
| Continue
| Return
| Exit (code : Z).

Inductive result (A : Type) :=
| Val (a : A)
| Sig (s : signal).
Arguments Val {A} a.
Arguments Sig {A} s.

Definition M (S A : Type) : Type := S -> result A * S.

Definition ret {S A} (a : A) : M S A := fun s => (Val a, s).
Definition raise {S A} (e : signal) : M S A := fun s => (Sig e, s).
Definition bind {S A B} (m : M S A) (k : A -> M S B) : M S B :=
  fun s => match m s with
           | (Val a, s') => k a s'
           | (Sig e, s') => (Sig e, s')
           end.
Definition get {S} : M S S := fun s => (Val s, s).
Definition modify {S} (f : S -> S) : M S unit := fun s => (Val tt, f s).

(** [try: m  except <the signals h is defined on>: h] *)
Definition try_except {S A} (m : M S A) (h : signal -> option (M S A)) : M S A :=
  fun s => match m s with
           | (Val a, s') => (Val a, s')
           | (Sig e, s') => match h e with
                            | Some k => k s'
                            | None => (Sig e, s')
                            end
           end.

Notation "'let!' x ':=' m 'in' k" := (bind m (fun x => k))
  (at level 10, x pattern, m at level 100, k at level 200).
Notation "m ';;;' k" := (bind m (fun _ => k))
  (at level 100, k at level 200, right associativity).

(** [except Exception]: every Python exception, but neither loop control
    nor process exit. *)
Definition is_exception (e : signal) : option string :=
  match e with
  | RequestException msg => Some msg
  | Exception msg => Some msg
  | _ => None
  end.

(** ** The HTTP client (mt_client.py) *)

Module MTClient.

(** [MTClient.BACKUP_SERVERS] *)
Definition BACKUP_SERVERS : list string :=
  [ "https://mtchk-sg.onrender.com";
    "https://mtchk-sg-bak.onrender.com";
    "https://mtchk-m.onrender.com" ].

Inductive endpoint := Validate | Login.

Definition path (api : endpoint) : string :=
  match api with Validate => "/validate" | Login => "/login" end.

(** The [proxy] argument and the [proxy] field of a payload: a string or a
    dict of strings. *)
Inductive proxy_cfg :=
| ProxyStr (s : string)
| ProxyDict (d : gmap string string).

(** What [requests] gives back for one request: a response, of which the
    client reads [response.text] and [response.json()] ([None] when the
    body is not JSON, that is when [json()] raises [JSONDecodeError]), or an
    exception. *)
Record response := { text : string; json : option json_root }.

Inductive http_result :=
| Responds (r : response)
| RaisesRequestException (msg : string)
| RaisesException (msg : string).

(** An entry of the status service: [{"name": ..., "uptime_percentage": ...}]. *)
Record server := { name : string; uptime_percentage : Q }.

(** The world outside the client, asked in the order of the client's
    requests: the [n]-th interaction of a run gets the answer at [n]. *)
Record env := {
  post_at : nat -> string -> endpoint -> http_result;  (* session.post(base_url + path) *)
  ping_at : nat -> string -> http_result;              (* requests.get(server_url + "/ping") *)
  status_at : nat -> option (list server);
    (* the "servers" of requests.get(".../status/json"); [None] when the
       request, the parsing or a missing field raises *)
  config_ok_at : nat -> bool;
    (* whether config.json exists at [config_path] and is read and
       rewritten without an exception *)
}.

Record MTResponse := {
  success : bool;
  error : jval;                               (* [JNone] when not given *)
  account_info : option (gmap string jval);
  data : option (gmap string jval);
}.

Definition failure (e : jval) : MTResponse :=
  {| success := false; error := e; account_info := None; data := None |}.

(** Insertion of [x] into a list sorted by descending uptime, before the
    first entry that does not have a larger uptime: with [sort_desc] this is
    [sorted(..., key=uptime_percentage, reverse=True)], which keeps entries
    of equal uptime in their original order. *)
Fixpoint insert_desc (x : server) (l : list server) : list server :=
  match l with
  | [] => [x]
  | y :: r => if Qle_bool (uptime_percentage y) (uptime_percentage x)
              then x :: y :: r else y :: insert_desc x r
  end.

Fixpoint sort_desc (l : list server) : list server :=
  match l with
  | [] => []
  | x :: r => insert_desc x (sort_desc r)
  end.

Section WithChars.
Context {char : Type} {PC : PyChar char}.

(** The loop of lines 97-100: the first alphabetic character is replaced by
    its upper case, then [break]. *)
Fixpoint capitalize_first_alpha (password : list char) : list char :=
  match password with
  | [] => []
  | c :: rest => if isalpha c then (upper c ++ rest)%list
                 else c :: capitalize_first_alpha rest
  end.

Definition _validate_password_format (password : list char)
  : bool * list char * string :=
  if length password <? 6
  then (false, password, "Password must be at least 6 characters long")
  else
    let has_upper := existsb isupper password in
    let has_lower := existsb islower password in
    let has_digit := existsb isdigit password in
    let has_special := existsb (fun c => negb (isalnum c)) password in
    if has_special
    then (false, password, "Password should not contain special symbols")
    else if negb (has_upper && has_lower && has_digit) then
      let password :=
        if negb has_upper then capitalize_first_alpha password else password in
      if negb has_digit
      then (false, password, "Password must contain at least one number")
      else (true, password, "")
    else (true, password, "").

(** What the client does to the outside, in order. *)
Inductive net_event :=
| EPost (base : string) (api : endpoint)
        (username : string) (password : list char) (proxy : option proxy_cfg)
| EPing (server_url : string)
| EFetchStatus
| EWriteConfig (new_url : string)
| ESleep (seconds : nat).

(** The client object: its active endpoint, and the history of the run. *)
Record client_state := {
  tick : nat;                 (* interactions with the outside so far *)
  base_url : string;
  net_log : list net_event;
}.

Definition interact (ev : net_event) (c : client_state) : client_state :=
  {| tick := S (tick c); base_url := base_url c; net_log := (net_log c ++ [ev])%list |}.

Definition record (ev : net_event) (c : client_state) : client_state :=
  {| tick := tick c; base_url := base_url c; net_log := (net_log c ++ [ev])%list |}.

Definition set_base_url (u : string) (c : client_state) : client_state :=
  {| tick := tick c; base_url := u; net_log := net_log c |}.

Definition sleep (seconds : nat) : M client_state unit :=
  modify (record (ESleep seconds)).

Section Methods.
Variable E : env.

Abbreviation cM := (M client_state).

(** [requests.get(f"{server_url}/ping", timeout=5)] and the other requests:
    one interaction each, answered by [E]. *)
Definition get_ping (server_url : string) : cM http_result :=
  fun c => (Val (ping_at E (tick c) server_url), interact (EPing server_url) c).

(** The verdict of [_test_server] on what the ping request gave. *)
Definition probe_ok (r : http_result) : bool :=
  match r with
  | Responds resp =>
      if Py.contains "This service has been suspended" (text resp) then false
      else match json resp with
           | Some (JDict data) =>
               get_eqb_str data "status" "ok" && get_eqb_str data "message" "pong"
           | Some (JNotDict _) => false   (* AttributeError: except Exception *)
           | None => false                (* except json.JSONDecodeError *)
           end
  | RaisesRequestException _ | RaisesException _ => false
  end.

Definition _test_server (server_url : string) : cM bool :=
  let! r := get_ping server_url in
  ret (probe_ok r).

Definition _fetch_available_servers : cM (list server) :=
  fun c =>
    (Val match status_at E (tick c) with
         | Some servers =>
             sort_desc (List.filter (fun s => negb (Qle_bool (uptime_percentage s) 0)) servers)
         | None => []
         end,
     interact EFetchStatus c).

(** The client's [base_url] changes only when config.json was rewritten. *)
Definition _update_base_url (new_url : string) : cM unit :=
  fun c =>
    if config_ok_at E (tick c)
    then (Val tt, set_base_url new_url (interact (EWriteConfig new_url) c))
    else (Val tt, interact (EWriteConfig new_url) c).

(** The two [for server in ...] loops of [_switch_server]: [true] stands
    for the [return True] inside the loop. *)
Fixpoint switch_to_first (eligible : string -> string -> bool)
    (candidates : list string) : cM bool :=
  match candidates with
  | [] => ret false
  | server :: rest =>
      let! c := get in
      if eligible (base_url c) server then
        let! ok := _test_server server in
        if ok then (_update_base_url server ;;; ret true)
        else switch_to_first eligible rest
      else switch_to_first eligible rest
  end.

Definition not_current (base server : string) : bool :=
  negb (String.eqb server base).

Definition not_current_nor_backup (base server : string) : bool :=
  negb (String.eqb server base)
  && negb (existsb (String.eqb server) BACKUP_SERVERS).

Definition _switch_server : cM bool :=
  let! c := get in
  let! ok := _test_server (base_url c) in
  if ok then ret false
  else
    let! switched := switch_to_first not_current BACKUP_SERVERS in
    if switched then ret true
    else
      let! servers := _fetch_available_servers in
      switch_to_first not_current_nor_backup (map name servers).

Definition timeout_errors : list string :=
  [ "timeout"; "timed out"; "connection error";
    "connection refused"; "connection reset";
    "no route to host"; "connection aborted" ].

(** One pass of the [try] block of [_make_request_with_retry]; [Continue]
    is the [continue] of its loop. *)
Definition request_once (request_func : cM response) (max_retries attempt : nat)
  : cM response :=
  let! resp := request_func in
  if Py.is_blank (text resp) then
    if attempt <? max_retries - 1 then (sleep 1 ;;; raise Continue)
    else raise (RequestException "Empty response received")
  else if Py.contains "This service has been suspended" (text resp) then
    let! switched := _switch_server in
    if switched then raise Continue
    else raise (RequestException "All servers are suspended")
  else ret resp.

(** The loop [for attempt in range(max_retries)], with [remaining]
    iterations to go and the local [last_error]. *)
Fixpoint request_loop (request_func : cM response) (max_retries remaining : nat)
    (last_error : option signal) : cM response :=
  match remaining with
  | 0 =>
      (* raise last_error *)
      match last_error with
      | Some e => raise e
      | None => raise (Exception "exceptions must derive from BaseException")
      end
  | S remaining' =>
      let attempt := max_retries - remaining in
      fun c =>
        match request_once request_func max_retries attempt c with
        | (Val resp, c') => (Val resp, c')
        | (Sig Continue, c') =>
            request_loop request_func max_retries remaining' last_error c'
        | (Sig (RequestException msg), c') =>
            let error_str := Py.lower msg in
            if existsb (fun err => Py.contains err error_str) timeout_errors then
              if attempt <? max_retries - 1 then
                (sleep 1 ;;;
                 request_loop request_func max_retries remaining'
                   (Some (RequestException msg))) c'
              else
                request_loop request_func max_retries remaining'
                  (Some (RequestException msg)) c'
            else (Sig (RequestException msg), c')
        | (Sig e, c') => (Sig e, c')
        end
  end.

Definition _make_request_with_retry (request_func : cM response) : cM response :=
  request_loop request_func 3 3 None.

(** The [proxy] entry of the payload built by [make_request]. *)
Definition payload_proxy (proxy : option proxy_cfg) : option proxy_cfg :=
  match proxy with
  | None => None
  | Some (ProxyStr s) => if String.eqb s "" then None else Some (ProxyStr s)
  | Some (ProxyDict p) =>
      if bool_decide (p = ∅) then None
      else match p !! "url" with
           | Some url =>
               let proxy_data : gmap string string :=
                 <["type" := default "http" (p !! "type")]> (<["url" := url]> ∅) in
               match p !! "username", p !! "password" with
               | Some u, Some pw =>
                   if negb (String.eqb u "") && negb (String.eqb pw "")
                   then Some (ProxyDict (<["password" := pw]> (<["username" := u]> proxy_data)))
                   else Some (ProxyDict proxy_data)
               | _, _ => Some (ProxyDict proxy_data)
               end
           | None => Some (ProxyDict p)
           end
  end.

(** [make_request]: the POST goes to the [base_url] of the moment. *)
Definition make_request (api : endpoint) (username : string)
    (password : list char) (proxy : option proxy_cfg) : cM response :=
  fun c =>
    let c' := interact (EPost (base_url c) api username password (payload_proxy proxy)) c in
    match post_at E (tick c) (base_url c) api with
    | Responds resp => (Val resp, c')
    | RaisesRequestException msg => (Sig (RequestException msg), c')
    | RaisesException msg => (Sig (Exception msg), c')
    end.

Definition first_key_in (keys : list string) (response_text : string)
  : option string :=
  find (fun key => Py.contains (Py.lower key) response_text) keys.

Definition succeeded (d : gmap string jval) (info : bool) : MTResponse :=
  {| success := true; error := JNone;
     account_info := if info then Some d else None;
     data := if info then None else Some d |}.

(** [except requests.RequestException] / [except Exception] of
    [validate_account] *)
Definition validate_except (e : signal) : option (cM MTResponse) :=
  match e with
  | RequestException msg => Some (ret (failure (JStr ("Request error: " ++ msg))))
  | Exception msg => Some (ret (failure (JStr ("Error: " ++ msg))))
  | _ => None
  end.

(** [except requests.RequestException: raise] / [except Exception] of [login] *)
Definition login_except (e : signal) : option (cM MTResponse) :=
  match e with
  | Exception msg => Some (ret (failure (JStr ("Error: " ++ msg))))
  | _ => None
  end.

Definition validate_ban_keys : list string :=
  [ "limit_exceeded"; "Invalid or inactive API key"; "Invalid API key" ].

Definition validate_retry_keys : list string :=
  [ "Server timeout error"; "Internal server error" ].

(** Lines 337-355: the parsed body of a validate call. *)
Definition validate_parsed (json_response : json_root) : cM MTResponse :=
  match json_response with
  | JNotDict attr_error => raise (Exception attr_error)
  | JDict d =>
      match d !! "success" with
      | Some (JBool true) => ret (succeeded d false)
      | _ =>
          match d !! "error_code" with
          | Some (JInt 401) =>
              ret (failure (default (JStr "Authorization failed") (d !! "message")))
          | _ =>
              if get_eqb_str d "message" "Invalid parameters"
              then raise (RequestException "Invalid parameters - retrying with new proxy")
              else
                let error_msg := default (JStr "Unknown error") (d !! "message") in
                if jval_eqb_str error_msg "Failed to validate account credentials"
                then raise (RequestException "Failed to validate - retrying with new proxy")
                else ret (failure error_msg)
          end
      end
  end.

(** [validate_account].  [depth] is the number of nested re-invocations the
    interpreter still allows; with none left, the re-invocation raises
    [RecursionError], an [Exception]. *)
Fixpoint validate_account (depth : nat) (username : string)
    (password : list char) (proxy : option proxy_cfg) : cM MTResponse :=
  let '(is_valid, modified_password, error_msg) :=
    _validate_password_format password in
  if negb is_valid then ret (failure (JStr error_msg))
  else
    let password := modified_password in
    try_except
      (let! resp := _make_request_with_retry
                      (make_request Validate username password proxy) in
       let response_text := Py.lower (text resp) in
       match first_key_in validate_ban_keys response_text with
       | Some key => ret (failure (JStr key))
       | None =>
           if Py.any_key_in validate_retry_keys response_text
           then ret (failure (JStr "Server error - please retry"))
           else
             match json resp with
             | Some json_response => validate_parsed json_response
             | None =>
                 let! switched := _switch_server in
                 if switched then
                   match depth with
                   | S depth' => validate_account depth' username password None
                   | 0 => raise (Exception "maximum recursion depth exceeded")
                   end
                 else raise (RequestException
                        "Invalid response format - retrying with new proxy")
             end
       end)
      validate_except.

Definition login_ban_keys : list string :=
  [ "limit_exceeded"; "Invalid or inactive API key"; "Invalid API key";
    "Daily request limit exceeded"; "Daily validation limit exceeded" ].

Definition login_retry_keys : list string :=
  [ "Server timeout error"; "Internal server error"; "proxy error";
    "Server error"; "Invalid parameters" ].

(** Lines 463-470: the error reported for a ban key found in the body. *)
Definition login_ban_error (resp : response) (key : string) : jval :=
  match json resp with
  | Some (JDict json_data) =>
      match json_data !! "api_key_info" with
      | Some (JDictV _ info) =>
          JStr ("Daily Limit Exceeded! Limit: " ++ default "0" (info !! "daily_limit")
                ++ ", Used: " ++ default "0" (info !! "requests_today"))
      | _ => JStr key
      end
  | _ => JStr key
  end.

(** Lines 486-508: the parsed body of a login call. *)
Definition login_parsed (json_response : json_root) : cM MTResponse :=
  match json_response with
  | JNotDict attr_error => raise (Exception attr_error)
  | JDict d =>
      if get_eqb_str d "status" "success" then ret (succeeded d true)
      else if get_eqb_str d "status" "Invalid password"
              || get_eqb_str d "status" "Account not found"
      then ret (failure (default JNone (d !! "status")))
      else if get_eqb_str d "status" "Invalid parameters"
      then raise (RequestException "Invalid parameters - retrying with new proxy")
      else
        match d !! "status" with
        | None => raise (RequestException "Invalid response format")
        | Some status =>
            if jval_eqb_str status "Server error"
            then raise (RequestException "Server error - please retry")
            else ret (failure status)
        end
  end.

Fixpoint login (depth : nat) (username : string)
    (password : list char) (proxy : option proxy_cfg) : cM MTResponse :=
  let '(is_valid, modified_password, error_msg) :=
    _validate_password_format password in
  if negb is_valid then ret (failure (JStr error_msg))
  else
    let password := modified_password in
    try_except
      (let! resp := _make_request_with_retry
                      (make_request Login username password proxy) in
       let response_text := Py.lower (text resp) in
       match first_key_in login_ban_keys response_text with
       | Some key => ret (failure (login_ban_error resp key))
       | None =>
           if Py.any_key_in login_retry_keys response_text
           then raise (RequestException "Server error - please retry")
           else
             match json resp with
             | Some json_response => login_parsed json_response
             | None =>
                 let! switched := _switch_server in
                 if switched then
                   match depth with
                   | S depth' => login depth' username password proxy
                   | 0 => raise (Exception "maximum recursion depth exceeded")
                   end
                 else raise (RequestException
                        "Invalid response format - retrying with new proxy")
             end
       end)
      login_except.

End Methods.
End WithChars.
Arguments net_event : clear implicits.
Arguments client_state : clear implicits.

End MTClient.

(** ** The checker (checker.py) *)

Module Checker.
Import MTClient.

(** [ResultCounter] *)
Record ResultCounter := {
  hits : nat; fails : nat; retries : nat; bans : nat; invalid : nat }.

Definition increment (result_type : string) (k : ResultCounter) : ResultCounter :=
  if String.eqb result_type "hit" then
    {| hits := S (hits k); fails := fails k; retries := retries k;
       bans := bans k; invalid := invalid k |}
  else if String.eqb result_type "fail" then
    {| hits := hits k; fails := S (fails k); retries := retries k;
       bans := bans k; invalid := invalid k |}
  else if String.eqb result_type "retry" then
    {| hits := hits k; fails := fails k; retries := S (retries k);
       bans := bans k; invalid := invalid k |}
  else if String.eqb result_type "ban" then
    {| hits := hits k; fails := fails k; retries := retries k;
       bans := S (bans k); invalid := invalid k |}
  else if String.eqb result_type "invalid" then
    {| hits := hits k; fails := fails k; retries := retries k;
       bans := bans k; invalid := S (invalid k) |}
  else k.

(** The dict returned by [get_next_proxy]. *)
Record proxy_data := {
  url : string;
  type : string;
  auth : option (string * string);   (* "username" and "password", when configured *)
}.

Definition proxy_dict (p : proxy_data) : gmap string string :=
  let d : gmap string string := <["type" := type p]> (<["url" := url p]> ∅) in
  match auth p with
  | Some (u, pw) => <["password" := pw]> (<["username" := u]> d)
  | None => d
  end.

(** [config["save_path"]]: its string entries ("hits", "fails", "banned")
    and its "levels" dict. *)
Record save_paths := {
  entries : gmap string string;
  levels : option (gmap string string);
}.

Record config := { save_path : option save_paths }.

(** [DEFAULT_CONFIG["save_path"]] *)
Definition DEFAULT_SAVE_PATH : save_paths :=
  {| entries := <["hits" := "results/hits.txt"]>
                  (<["fails" := "results/fails.txt"]>
                     (<["banned" := "results/banned.txt"]> ∅));
     levels := Some (<["below30" := "results/levels/below30.txt"]>
                    (<["30to50" := "results/levels/30to50.txt"]>
                    (<["51to89" := "results/levels/51to89.txt"]>
                    (<["90to100" := "results/levels/90to100.txt"]>
                    (<["above100" := "results/levels/above100.txt"]> ∅))))) |}.

Definition DEFAULT_CONFIG : config := {| save_path := Some DEFAULT_SAVE_PATH |}.

Section WithChars.
Context {char : Type} {PC : PyChar char}.

(** A line appended to a result file: [f"{username}:{password}{rest}"]. *)
Record line := { l_username : string; l_password : list char; l_rest : string }.

(** What the checker does besides counting and writing files, in order. *)
Inductive event :=
| EGetProxy (retry_count : nat)
| ESleep (seconds : nat)
| EPrint (status : string) (username : string) (password : list char)
         (message : string) (proxy_url : string)        (* print_result *)
| ESaveResult (username : string) (password : list char) (result_type : string)
              (account_info : option (gmap string jval)) (proxy_url : string)
| EStopped (error_msg : string).                         (* the banner of handle_ban *)

Record world := {
  client : client_state char;
  counter : ResultCounter;
  events : list event;
  files : gmap string (list line);
}.

Definition set_client (c : client_state char) (w : world) : world :=
  {| client := c; counter := counter w; events := events w; files := files w |}.
Definition set_counter (k : ResultCounter) (w : world) : world :=
  {| client := client w; counter := k; events := events w; files := files w |}.
Definition emit (ev : event) (w : world) : world :=
  {| client := client w; counter := counter w; events := (events w ++ [ev])%list;
     files := files w |}.
Definition append_line (path : string) (l : line) (w : world) : world :=
  {| client := client w; counter := counter w; events := events w;
     files := <[path := (default [] (files w !! path) ++ [l])%list]> (files w) |}.

Abbreviation wM := (M world).

(** A method call on the client object shared by the workers. *)
Definition call {A} (m : M (client_state char) A) : wM A :=
  fun w => let (r, c') := m (client w) in (r, set_client c' w).

Definition counter_increment (result_type : string) : wM unit :=
  modify (fun w => set_counter (increment result_type (counter w)) w).

Definition time_sleep (seconds : nat) : wM unit := modify (emit (ESleep seconds)).

Section Run.
Variable E : env.                                 (* the network *)
Variable depth : nat.                             (* the interpreter's recursion allowance *)
Variable get_next_proxy : nat -> option proxy_data.
  (* [get_next_proxy(config)] in iteration [retry_count]: a proxy, or [None] *)
Variable py_int : jval -> Z + string.
  (* [int(v)]: its value, or the message of the exception it raises *)
Variable cfg : config.

(** [account_info.get(key, '')] inside an f-string *)
Definition field (account_info : gmap string jval) (key : string) : string :=
  py_str (default (JStr "") (account_info !! key)).

Definition is_banned (account_info : gmap string jval) : bool :=
  py_bool (default (JBool false) (account_info !! "is_banned")).

(** [', '.join(filter(None, [account_info.get('bind_email', '')]))] *)
Definition email_of (account_info : gmap string jval) : wM string :=
  match default (JStr "") (account_info !! "bind_email") with
  | JStr s => ret s
  | v => if py_bool v
         then raise (Exception ("sequence item 0: expected str instance, "
                                ++ py_type_name v ++ " found"))
         else ret ""
  end.

Definition ban_parts (account_info : gmap string jval) : list string :=
  [ "BANNED";
    "Ban Start: " ++ field account_info "ban_start";
    "Ban End: " ++ field account_info "ban_end";
    "Reason: " ++ field account_info "reason" ].

Definition info_parts (account_info : gmap string jval) (email : string)
  : list string :=
  [ "UID: " ++ field account_info "uid";
    "Name: " ++ field account_info "name";
    "Rank: " ++ field account_info "max_rank";
    "Level: " ++ field account_info "level";
    "Country: " ++ field account_info "country";
    "Email: " ++ email;
    "Registered: " ++ field account_info "registered" ].

Definition format_account_info (account_info : gmap string jval) : wM string :=
  let! email := email_of account_info in
  ret (String.concat " | "
         (info_parts account_info email
          ++ (if is_banned account_info then ban_parts account_info else []))%list).

Definition level_key (level : Z) : string :=
  if (level <? 30)%Z then "below30"
  else if (30 <=? level)%Z && (level <=? 50)%Z then "30to50"
  else if (51 <=? level)%Z && (level <=? 89)%Z then "51to89"
  else if (90 <=? level)%Z && (level <=? 100)%Z then "90to100"
  else "above100".

(** Lines 376-429 of [save_result]: the ban record and the level file of a
    hit with account info. *)
Definition save_hit_details (sp : save_paths) (username : string)
    (password : list char) (account_info : gmap string jval)
    (proxy_url : string) : wM unit :=
  (if is_banned account_info then
     let banned_path := default "" (entries sp !! "banned") in
     if String.eqb banned_path "" then ret tt
     else
       let! email := email_of account_info in
       modify (append_line banned_path
         {| l_username := username; l_password := password;
            l_rest := " (Proxy: " ++ proxy_url ++ ") - "
                      ++ String.concat " | "
                           (info_parts account_info email ++ ban_parts account_info)%list |})
   else ret tt) ;;;
  match account_info !! "level" with
  | None => ret tt
  | Some v =>
      match py_int v with
      | inr msg => raise (Exception msg)
      | inl level =>
          let level_paths := default ∅ (levels sp) in
          match level_paths !! level_key level with
          | None => ret tt
          | Some level_file =>
              if String.eqb level_file "" then ret tt
              else
                modify (append_line level_file
                  {| l_username := username; l_password := password;
                     l_rest := " | " ++ String.concat " | "
                       [ "Level: " ++ Py.str_of_Z level;
                         "Name: " ++ field account_info "name";
                         "Country: " ++ field account_info "country";
                         "Rank: " ++ field account_info "max_rank";
                         "UID: " ++ field account_info "uid";
                         "Registered: " ++ field account_info "registered" ] |})
          end
      end
  end.

(** [save_result].  Creating the directories and opening the files is taken
    to succeed. *)
Definition save_result (username : string) (password : list char)
    (result_type : string) (account_info : option (gmap string jval))
    (proxy_url : string) : wM unit :=
  modify (emit (ESaveResult username password result_type account_info proxy_url)) ;;;
  match save_path cfg with
  | None => ret tt
  | Some sp =>
      if bool_decide (entries sp = ∅) && negb (bool_decide (is_Some (levels sp)))
      then ret tt
      else
        let path := default "" (entries sp !! (result_type ++ "s")) in
        if String.eqb path "" then ret tt
        else
          modify (append_line path
            {| l_username := username; l_password := password; l_rest := "" |}) ;;;
          match account_info with
          | Some info =>
              if String.eqb result_type "hit" && negb (bool_decide (info = ∅))
              then save_hit_details sp username password info proxy_url
              else ret tt
          | None => ret tt
          end
  end.

Definition max_retries : nat := 100.
Definition retry_delay : nat := 1.

Definition print_result (status username : string) (password : list char)
    (message proxy_url : string) : wM unit :=
  modify (emit (EPrint status username password message proxy_url)).

(** [handle_ban]: counts the ban, reports it and ends the process with
    [os._exit(1)]. *)
Definition handle_ban (username : string) (password : list char)
    (error_msg : jval) (proxy_url : string) : wM unit :=
  counter_increment "ban" ;;;
  print_result "BAN" username password (py_str error_msg) proxy_url ;;;
  modify (emit (EStopped (py_str error_msg))) ;;;
  raise (Exit 1).

Definition try_with_new_proxy (retry_count : nat) : wM (option proxy_data) :=
  modify (emit (EGetProxy retry_count)) ;;;
  ret (get_next_proxy retry_count).

(** The markers searched in [str(response.error).lower()]. *)
Definition login_ban_markers : list string :=
  [ "Rate limit exceeded"; "Invalid API key"; "Daily Limit Exceeded";
    "limit_exceeded"; "Invalid or inactive API key";
    "Daily request limit exceeded"; "Daily validation limit exceeded" ].

Definition login_retry_markers : list string :=
  [ "proxy error"; "timeout"; "connection refused"; "connection reset";
    "no route to host"; "Server error"; "Internal server error" ].

Definition validate_ban_markers : list string :=
  [ "Rate limit exceeded"; "Invalid API key"; "Daily Limit Exceeded";
    "limit_exceeded" ].

Definition validate_retry_markers : list string :=
  [ "proxy error"; "timeout"; "connection refused"; "connection reset";
    "no route to host"; "Server error"; "Internal server error";
    "Invalid parameters"; "Failed to validate account credentials";
    "Invalid response format" ].

Definition marked (markers : list string) (error : jval) : bool :=
  Py.any_key_in markers (Py.lower (py_str error)).

(** [counter.increment("retry"); time.sleep(retry_delay); continue] *)
Definition retry_later : wM unit :=
  counter_increment "retry" ;;; time_sleep retry_delay ;;; raise Continue.

(** [counter.increment("fail"); print_result(...); save_result(..., "fail",
    config); return] *)
Definition fail_with (status username : string) (password : list char)
    (message proxy_url : string) : wM unit :=
  counter_increment "fail" ;;;
  print_result status username password message proxy_url ;;;
  save_result username password "fail" None "N/A" ;;;
  raise Return.

(** The [except requests.RequestException] around a client call
    (lines 552-561 and 611-620). *)
Definition on_request_exception (retry_count : nat) (username : string)
    (password : list char) (proxy_url : string) (e : signal)
  : option (wM MTResponse) :=
  match e with
  | RequestException msg =>
      Some (if retry_count <? max_retries - 1
            then (retry_later ;;; raise Continue)
            else (fail_with "FAIL" username password msg proxy_url ;;; raise Return))
  | _ => None
  end.

(** Lines 596-606 and 678-688: a successful login is a hit. *)
Definition report_login_hit (username : string) (password : list char)
    (login_response : MTResponse) (proxy_url : string) : wM unit :=
  let banned := match account_info login_response with
                | Some info => negb (bool_decide (info = ∅)) && is_banned info
                | None => false
                end in
  (if banned then counter_increment "ban" else ret tt) ;;;
  counter_increment "hit" ;;;
  let! message :=
    match account_info login_response with
    | Some info => if bool_decide (info = ∅) then ret "Success"
                   else format_account_info info
    | None => ret "Success"
    end in
  print_result "HIT" username password message proxy_url ;;;
  save_result username password "hit" (account_info login_response) proxy_url ;;;
  raise Return.

(** Lines 549-606: the detailed-info branch at the head of the [try]. *)
Definition login_directly (retry_count : nat) (username : string)
    (password : list char) (proxy : proxy_data) : wM unit :=
  let! login_response :=
    try_except
      (call (login E depth username password (Some (ProxyDict (proxy_dict proxy)))))
      (on_request_exception retry_count username password (url proxy)) in
  if negb (success login_response) then
    (if marked login_ban_markers (error login_response)
     then handle_ban username password (error login_response) (url proxy)
     else ret tt) ;;;
    (if marked login_retry_markers (error login_response)
     then (if retry_count <? max_retries - 1 then retry_later else ret tt)
     else ret tt) ;;;
    fail_with "FAIL" username password (py_str (error login_response)) (url proxy)
  else report_login_hit username password login_response (url proxy).

(** Lines 655-694: the login after a successful validate call. *)
Definition login_after_validate (username : string) (password : list char)
    (proxy : proxy_data) : wM unit :=
  try_except
    (let! login_response :=
       call (login E depth username password (Some (ProxyDict (proxy_dict proxy)))) in
     if negb (success login_response) then
       (if marked login_ban_markers (error login_response)
        then handle_ban username password (error login_response) (url proxy)
        else ret tt) ;;;
       fail_with "FAIL" username password (py_str (error login_response)) (url proxy)
     else report_login_hit username password login_response (url proxy))
    (fun e => match is_exception e with
              | Some msg => Some (fail_with "ERROR" username password msg (url proxy))
              | None => None
              end).

(** Lines 608-699: the validate call and what follows it. *)
Definition validate_then (check_info : bool) (retry_count : nat)
    (username : string) (password : list char) (proxy : proxy_data) : wM unit :=
  let! validate_response :=
    try_except
      (call (validate_account E depth username password
               (Some (ProxyDict (proxy_dict proxy)))))
      (on_request_exception retry_count username password (url proxy)) in
  if negb (success validate_response) then
    (if marked validate_ban_markers (error validate_response)
     then handle_ban username password (error validate_response) (url proxy)
     else ret tt) ;;;
    (if marked validate_retry_markers (error validate_response)
     then (if retry_count <? max_retries - 1 then retry_later else ret tt)
     else ret tt) ;;;
    fail_with "FAIL" username password (py_str (error validate_response)) (url proxy)
  else if check_info then login_after_validate username password proxy
  else
    counter_increment "hit" ;;;
    print_result "HIT" username password "Valid credentials" (url proxy) ;;;
    save_result username password "hit" None (url proxy) ;;;
    raise Return.

(** One iteration of [for retry_count in range(max_retries)]. *)
Definition attempt (check_info : bool) (username : string)
    (password : list char) (retry_count : nat) : wM unit :=
  let! proxy := try_with_new_proxy retry_count in
  match proxy with
  | None => retry_later
  | Some proxy =>
      try_except
        ((if check_info then login_directly retry_count username password proxy
          else ret tt) ;;;
         validate_then check_info retry_count username password proxy)
        (fun e =>
           match is_exception e with
           | Some msg =>
               Some (if retry_count <? max_retries - 1 then retry_later
                     else fail_with "ERROR" username password msg (url proxy))
           | None => None
           end)
  end.

(** The loop, with [remaining] iterations to go from [retry_count]. *)
Fixpoint attempts (check_info : bool) (username : string)
    (password : list char) (remaining retry_count : nat) : wM unit :=
  match remaining with
  | 0 => ret tt
  | S remaining' =>
      fun w =>
        match attempt check_info username password retry_count w with
        | (Val tt, w') | (Sig Continue, w') =>
            attempts check_info username password remaining' (S retry_count) w'
        | (Sig e, w') => (Sig e, w')
        end
  end.

(** Lines 524-528: a password that fails the format policy. *)
Definition reject (username : string) (password : list char)
    (error_msg : string) : wM unit :=
  counter_increment "invalid" ;;;
  print_result "INVALID" username password error_msg "N/A" ;;;
  save_result username password "fail" None "N/A" ;;;
  raise Return.

(** Lines 711-714: the loop ran out. *)
Definition exhausted (username : string) (password : list char) : wM unit :=
  counter_increment "fail" ;;;
  print_result "FAIL" username password "Max retries exceeded" "N/A" ;;;
  save_result username password "fail" None "N/A".

(** [return] ends the call normally. *)
Definition returning (m : wM unit) : wM unit :=
  try_except m (fun e => match e with Return => Some (ret tt) | _ => None end).

(** [check_account(client, combo, counter, check_info, config)] *)
Definition check_account (combo : string * list char) (check_info : bool)
  : wM unit :=
  let '(username, password) := combo in
  let '(is_valid, modified_password, error_msg) :=
    _validate_password_format password in
  returning
    (if negb is_valid then reject username password error_msg
     else
       let password := modified_password in
       attempts check_info username password max_retries 0 ;;;
       exhausted username password).

End Run.

(** *** The worker pool of [main]

    [ThreadPoolExecutor(max_workers=thread_count)] runs [check_with_stop] on
    every combo.  The workers share the client, the counter and the files.
    A step of the pool is one of: a queued combo is taken up by a free
    worker, a worker runs one iteration of its retry loop, or the user
    interrupts.  Each iteration meets its own network and proxy source. *)

Section Pool.
Variable py_int : jval -> Z + string.
Variable cfg : config.
Variable check_info : bool.
Variable thread_count : nat.

(** A worker inside the retry loop of [check_account]. *)
Record worker := {
  w_username : string;
  w_password : list char;     (* after [password = modified_password] *)
  w_retry_count : nat;
}.

Record pool := {
  stop_event : bool;
  queued : list (string * list char);
  running : list worker;
  shared : world;
}.

Definition set_shared (w : world) (p : pool) : pool :=
  {| stop_event := stop_event p; queued := queued p; running := running p;
     shared := w |}.

Inductive process :=
| Running (p : pool)
| Exited (code : Z) (p : pool).     (* [os._exit(code)]: nothing runs any more *)

Inductive step : process -> process -> Prop :=
| step_interrupt p :
    (* signal_handler: stop_event.set() *)
    step (Running p)
         (Running {| stop_event := true; queued := queued p;
                     running := running p; shared := shared p |})
| step_dropped p combo rest :
    (* check_with_stop returns at once, or the future is cancelled *)
    queued p = combo :: rest ->
    stop_event p = true ->
    step (Running p)
         (Running {| stop_event := true; queued := rest;
                     running := running p; shared := shared p |})
| step_rejected p username password rest password' error_msg r w' :
    (* a worker takes a combo whose password fails the format policy *)
    queued p = (username, password) :: rest ->
    stop_event p = false ->
    length (running p) < thread_count ->
    _validate_password_format password = (false, password', error_msg) ->
    returning (reject py_int cfg username password error_msg) (shared p) = (r, w') ->
    step (Running p)
         (Running {| stop_event := false; queued := rest;
                     running := running p; shared := w' |})
| step_started p username password rest password' error_msg :
    (* a worker takes a combo and enters the retry loop *)
    queued p = (username, password) :: rest ->
    stop_event p = false ->
    length (running p) < thread_count ->
    _validate_password_format password = (true, password', error_msg) ->
    step (Running p)
         (Running {| stop_event := false; queued := rest;
                     running := (running p ++
                       [{| w_username := username; w_password := password';
                           w_retry_count := 0 |}])%list;
                     shared := shared p |})
| step_retry p before wk after E depth proxies r w' :
    (* an iteration ends in [continue] and another one is left *)
    running p = (before ++ wk :: after)%list ->
    attempt E depth proxies py_int cfg check_info
      (w_username wk) (w_password wk) (w_retry_count wk) (shared p) = (r, w') ->
    r = Val tt \/ r = Sig Continue ->
    S (w_retry_count wk) < max_retries ->
    step (Running p)
         (Running {| stop_event := stop_event p; queued := queued p;
                     running := (before ++
                       {| w_username := w_username wk; w_password := w_password wk;
                          w_retry_count := S (w_retry_count wk) |} :: after)%list;
                     shared := w' |})
| step_exhausted p before wk after E depth proxies r w' r' w'' :
    (* the last iteration ends in [continue]: lines 711-714, and the worker is free *)
    running p = (before ++ wk :: after)%list ->
    attempt E depth proxies py_int cfg check_info
      (w_username wk) (w_password wk) (w_retry_count wk) (shared p) = (r, w') ->
    r = Val tt \/ r = Sig Continue ->
    S (w_retry_count wk) = max_retries ->
    exhausted py_int cfg (w_username wk) (w_password wk) w' = (r', w'') ->
    step (Running p)
         (Running {| stop_event := stop_event p; queued := queued p;
                     running := (before ++ after)%list; shared := w'' |})
| step_returned p before wk after E depth proxies e w' :
    (* an iteration ends in [return], or in an exception that
       [check_with_stop] reports: the worker is free *)
    running p = (before ++ wk :: after)%list ->
    attempt E depth proxies py_int cfg check_info
      (w_username wk) (w_password wk) (w_retry_count wk) (shared p) = (Sig e, w') ->
    e = Return \/ is_Some (is_exception e) ->
    step (Running p)
         (Running {| stop_event := stop_event p; queued := queued p;
                     running := (before ++ after)%list; shared := w' |})
| step_exit p before wk after E depth proxies code w' :
    (* an iteration ends in [os._exit]: the process is gone, whatever the
       other workers were doing *)
    running p = (before ++ wk :: after)%list ->
    attempt E depth proxies py_int cfg check_info
      (w_username wk) (w_password wk) (w_retry_count wk) (shared p) = (Sig (Exit code), w') ->
    step (Running p) (Exited code (set_shared w' p)).

End Pool.

End WithChars.
Arguments line : clear implicits.
Arguments event : clear implicits.
Arguments world : clear implicits.

End Checker.

(** ** Measuring what a computation does

    [cost log weight n m]: whatever the state, [m] only appends to the log,
    and the events it appends weigh at most [n].  With a weight of one on
    the events of interest this bounds their number; with bound zero it says
    that none occurs.  [diverts m]: [m] never completes normally. *)

Section Measures.
Context {S Ev : Type} (log : S -> list Ev) (weight : Ev -> nat).

Definition total (l : list Ev) : nat := list_sum (map weight l).

Definition cost {A} (n : nat) (m : M S A) : Prop :=
  forall s, exists l, log (m s).2 = (log s ++ l)%list /\ total l <= n.

Definition diverts {A} (m : M S A) : Prop :=
  forall s, exists e s', m s = (Sig e, s').

End Measures.

Definition is_post {char} (ev : MTClient.net_event char) : bool :=
  match ev with MTClient.EPost _ _ _ _ _ => true | _ => false end.

Definition is_ping {char} (ev : MTClient.net_event char) : bool :=
  match ev with MTClient.EPing _ => true | _ => false end.

(** ** Events of interest *)

Definition posts {char} (ev : MTClient.net_event char) : nat :=
  match ev with MTClient.EPost _ _ _ _ _ => 1 | _ => 0 end.

Definition validate_posts {char} (ev : MTClient.net_event char) : nat :=
  match ev with MTClient.EPost _ MTClient.Validate _ _ _ => 1 | _ => 0 end.

Definition pings {char} (ev : MTClient.net_event char) : nat :=
  match ev with MTClient.EPing _ => 1 | _ => 0 end.

Definition proxy_requests {char} (ev : Checker.event char) : nat :=
  match ev with Checker.EGetProxy _ => 1 | _ => 0 end.

(** A result handed to [save_result] with a kind other than "fail" or "hit". *)
Definition other_kind {char} (ev : Checker.event char) : nat :=
  match ev with
  | Checker.ESaveResult _ _ result_type _ _ =>
      if String.eqb result_type "fail" || String.eqb result_type "hit" then 0 else 1
  | _ => 0
  end.

(** The file that [save_result] appends a fail to, when one is configured. *)
Definition fails_path (cfg : Checker.config) : option string :=
  match Checker.save_path cfg with
  | Some sp =>
      if bool_decide (Checker.entries sp = ∅)
         && negb (bool_decide (is_Some (Checker.levels sp)))
      then None
      else let path := default "" (Checker.entries sp !! "fails") in
           if String.eqb path "" then None else Some path
  | None => None
  end.

(** Every request that leaves the machine. *)
Definition requests {char} (ev : MTClient.net_event char) : nat :=
  match ev with
  | MTClient.EPost _ _ _ _ _ | MTClient.EPing _ | MTClient.EFetchStatus => 1
  | _ => 0
  end.

(** The client state after the interactions [evs]. *)
Definition after {char} (evs : list (MTClient.net_event char))
    (c : MTClient.client_state char) : MTClient.client_state char :=
  {| MTClient.tick := MTClient.tick c + length evs;
     MTClient.base_url := MTClient.base_url c;
     MTClient.net_log := (MTClient.net_log c ++ evs)%list |}.

(** ** How [check_account] reads the result of a client call *)

Section Verdicts.
Import MTClient Checker.
Context {char : Type} {PC : PyChar char}.

(** The client call of an iteration: [login] in detailed mode,
    [validate_account] otherwise, with the proxy of the iteration. *)
Definition client_call (check_info : bool) (E : env) (depth : nat)
    (username : string) (password : list char) (proxy : proxy_data)
  : M (client_state char) MTResponse :=
  if check_info
  then login E depth username password (Some (ProxyDict (proxy_dict proxy)))
  else validate_account E depth username password (Some (ProxyDict (proxy_dict proxy))).

Definition ban_markers (check_info : bool) : list string :=
  if check_info then login_ban_markers else validate_ban_markers.

Definition retry_markers (check_info : bool) : list string :=
  if check_info then login_retry_markers else validate_retry_markers.

Inductive verdict :=
| Accepted (resp : MTResponse)
| Banned (error : jval)                  (* a ban marker in the error *)
| Transient (status message : string)    (* retried while the budget lasts *)
| Refused (error : jval).

Definition classify (check_info : bool) (r : result MTResponse) : verdict :=
  match r with
  | Val resp =>
      if success resp then Accepted resp
      else if marked (ban_markers check_info) (error resp) then Banned (error resp)
      else if marked (retry_markers check_info) (error resp)
           then Transient "FAIL" (py_str (error resp))
           else Refused (error resp)
  | Sig (RequestException msg) => Transient "FAIL" msg
  | Sig (Exception msg) => Transient "ERROR" msg
  | Sig _ => Refused JNone
  end.

(** Iteration [i] cannot but end in a transient fault: no proxy, or a
    client call that ends in one whatever the state of the client. *)
Definition transient_at (E : env) (depth : nat) (proxies : nat -> option proxy_data)
    (check_info : bool) (username : string) (password : list char) (i : nat) : Prop :=
  match proxies i with
  | None => True
  | Some px => forall c, exists st msg,
      classify check_info (client_call check_info E depth username password px c).1
        = Transient st msg
  end.

(** The effect on the files of [save_result(username, password, "fail", config)]. *)
Definition saved_fail (cfg : config) (username : string) (password : list char)
    (w : world char) : world char :=
  match fails_path cfg with
  | Some path =>
      append_line path
        {| l_username := username; l_password := password; l_rest := "" |} w
  | None => w
  end.

End Verdicts.

(** ** The combo files (checker.py)

    A combo file is read line by line; a line is a string of code points
    below 256, as in [Py]. *)

Module Combo.

(** [str.strip()] *)
Fixpoint lstrip (s : string) : string :=
  match s with
  | EmptyString => EmptyString
  | String c r => if Py.isspace c then lstrip r else s
  end.

Fixpoint rstrip (s : string) : string :=
  match s with
  | EmptyString => EmptyString
  | String c r =>
      match rstrip r with
      | EmptyString => if Py.isspace c then EmptyString else String c EmptyString
      | r' => String c r'
      end
  end.

Definition strip (s : string) : string := rstrip (lstrip s).

(** [if line.strip()] *)
Definition nonblank (line : string) : bool := negb (String.eqb (strip line) "").

(** [line.split(':', 1)] of a line with a colon; [None] when [':' not in line]. *)
Fixpoint split_colon (line : string) : option (string * string) :=
  match line with
  | EmptyString => None
  | String c r =>
      if Ascii.eqb c ":" then Some (EmptyString, r)
      else match split_colon r with
           | Some (a, b) => Some (String c a, b)
           | None => None
           end
  end.

(** [load_combo_file], on the lines that iterating over the file yields. *)
Definition load_line (line : string) : option (string * string) :=
  match split_colon (strip line) with
  | Some (username, password) => Some (strip username, strip password)
  | None => None
  end.

Definition load_combo_file (lines : list string) : list (string * string) :=
  omap load_line lines.

(** The text of a line of a result file, as [save_result] writes it:
    [f"{username}:{password}{rest}\n"]. *)
Definition newline : string := String (ascii_of_nat 10) "".

(** A text without line break: it stays within one line of a file. *)
Definition one_line (s : string) : bool :=
  negb (Py.contains newline s) && negb (Py.contains (String (ascii_of_nat 13) "") s).

Definition written (ln : Checker.line ascii) : string :=
  Checker.l_username ln ++ ":" ++ string_of_list_ascii (Checker.l_password ln)
  ++ Checker.l_rest ln ++ newline.

(** [process_file_chunk] *)
Definition process_file_chunk {A} (lines : list string) (process_func : string -> A)
  : list A :=
  map process_func (List.filter nonblank lines).

(** [[lines[i:i + chunk_size] for i in range(0, len(lines), chunk_size)]]:
    [range(0, n, step)] has [ceil(n / step)] elements. *)
Definition slices {A} (chunk_size : nat) (lines : list A) : list (list A) :=
  map (fun k => firstn chunk_size (skipn (k * chunk_size) lines))
      (seq 0 ((length lines + chunk_size - 1) / chunk_size)).

Section Threads.
(** The order in which [as_completed] yields the chunks. *)
Variable completion : list (list string) -> list (list string).

(** [process_with_threads], on the lines of the file, for a [process_func]
    that does not raise.  A [thread_count] of 0 makes [len(lines) //
    thread_count] raise, and the [except] returns the empty list. *)
Definition process_with_threads {A} (lines : list string)
    (process_func : string -> A) (thread_count : nat) : list A :=
  let lines := map strip (List.filter nonblank lines) in
  match lines with
  | [] => []
  | _ =>
      if thread_count =? 0 then []
      else
        let chunk_size := Nat.max 1 (length lines / thread_count) in
        let chunks := slices chunk_size lines in
        concat (map (fun chunk => process_file_chunk chunk process_func)
                    (completion chunks))
  end.

(** [list(dict.fromkeys(lines))]: the keys in the order of their first
    insertion. *)
Fixpoint fromkeys (lines keys : list string) : list string :=
  match lines with
  | [] => keys
  | x :: r =>
      fromkeys r (if existsb (String.eqb x) keys then keys else keys ++ [x])%list
  end.

(** The lines that [remove_duplicates] writes. *)
Definition remove_duplicates (lines : list string) (thread_count : nat)
  : list string :=
  fromkeys (process_with_threads lines strip thread_count) [].

(** [process_line] of [fix_password_format] *)
Definition allowed_chars : string :=
  "abcdefghijklmnopqrstuvwxyzABCDEFGHIJKLMNOPQRSTUVWXYZ0123456789".

Definition allowed (c : ascii) : bool :=
  existsb (Ascii.eqb c) (list_ascii_of_string allowed_chars).

Definition process_line (line : string) : option string :=
  match split_colon line with
  | None => None
  | Some (email, password) =>
      let password := list_ascii_of_string password in
      if forallb allowed password then
        if 6 <=? length password then
          let password :=
            if negb (existsb isupper password)
            then MTClient.capitalize_first_alpha password
            else password in
          Some (email ++ ":" ++ string_of_list_ascii password)
        else None
      else None
  end.

(** The lines that [fix_password_format] writes. *)
Definition fix_password_format (lines : list string) (thread_count : nat)
  : list string :=
  omap id (process_with_threads lines process_line thread_count).

End Threads.

End Combo.

(** The password as [process_line] of [fix_password_format] leaves it. *)
Definition fixed (password : list ascii) : list ascii :=
  if negb (existsb isupper password)
  then MTClient.capitalize_first_alpha password else password.

(** ** Concrete runs *)

Module Examples.
Import MTClient Checker AsciiChar.

Definition quote : string := String (ascii_of_nat 34) "".

(** The text of a JSON object with string values. *)
Definition json_text (fields : list (string * string)) : string :=
  "{" ++ String.concat ", "
           (map (fun kv => quote ++ kv.1 ++ quote ++ ": " ++ quote ++ kv.2 ++ quote)
                fields) ++ "}".

Definition json_dict (fields : list (string * string)) : gmap string jval :=
  list_to_map (map (fun kv => (kv.1, JStr kv.2)) fields).

Definition json_response (fields : list (string * string)) : http_result :=
  Responds {| text := json_text fields; json := Some (JDict (json_dict fields)) |}.

Definition plain_response (body : string) : http_result :=
  Responds {| text := body; json := None |}.

Definition pong : http_result :=
  json_response [("status", "ok"); ("message", "pong")].

Definition primary : string := "https://mt-hq.onrender.com".

Definition client0 : client_state ascii :=
  {| tick := 0; base_url := primary; net_log := [] |}.

Definition counter0 : ResultCounter :=
  {| hits := 0; fails := 0; retries := 0; bans := 0; invalid := 0 |}.

Definition world0 : world ascii :=
  {| client := client0; counter := counter0; events := []; files := ∅ |}.

Definition proxy0 : proxy_data :=
  {| url := "10.0.0.1:8080"; type := "http"; auth := None |}.

Definition int_of (v : jval) : Z + string :=
  match v with
  | JInt z => inl z
  | _ => inr "invalid literal for int() with base 10"
  end.

(** Every POST is answered by [answer]; every server answers the ping; the
    status service is down; config.json can be rewritten. *)
Definition answering (answer : http_result) : env :=
  {| post_at := fun _ _ _ => answer;
     ping_at := fun _ _ => pong;
     status_at := fun _ => None;
     config_ok_at := fun _ => true |}.

Definition always_proxy : nat -> option proxy_data := fun _ => Some proxy0.
Definition never_proxy : nat -> option proxy_data := fun _ => None.

(** No server answers the ping, and the status service lists [n] more. *)
Definition spare : server :=
  {| name := "https://spare.example"; uptime_percentage := 1 |}.

Definition unreachable (n : nat) : env :=
  {| post_at := fun _ _ _ => plain_response "<html>Bad gateway</html>";
     ping_at := fun _ _ => RaisesRequestException "Connection refused";
     status_at := fun _ => Some (repeat spare n);
     config_ok_at := fun _ => true |}.

(** The primary is suspended and the backups answer the probe; [config_ok]
    tells whether config.json is where the client looks for it. *)
Definition suspended_primary (config_ok : bool) : env :=
  {| post_at := fun _ _ _ => plain_response "This service has been suspended.";
     ping_at := fun _ server_url =>
       if String.eqb server_url primary
       then plain_response "This service has been suspended."
       else pong;
     status_at := fun _ => None;
     config_ok_at := fun _ => config_ok |}.

(** Two workers in their retry loops, none queued. *)
Definition bob : worker (char := ascii) :=
  {| w_username := "bob@x.com"; w_password := chars "Password1"; w_retry_count := 0 |}.
Definition alice : worker (char := ascii) :=
  {| w_username := "alice@x.com"; w_password := chars "Password2"; w_retry_count := 3 |}.

Definition two_workers : pool (char := ascii) :=
  {| stop_event := false; queued := []; running := [bob; alice]; shared := world0 |}.

(** Every POST fails with the given error of [requests]. *)
Definition failing (msg : string) : env :=
  {| post_at := fun _ _ _ => RaisesRequestException msg;
     ping_at := fun _ _ => pong;
     status_at := fun _ => None;
     config_ok_at := fun _ => true |}.

(** A body that reads as a success and names a ban key. *)
Definition success_with_ban_key : response :=
  {| text := "{" ++ quote ++ "success" ++ quote ++ ": true, "
             ++ quote ++ "message" ++ quote ++ ": "
             ++ quote ++ "Invalid API key" ++ quote ++ "}";
     json := Some (JDict (<["success" := JBool true]>
                            (<["message" := JStr "Invalid API key"]> ∅))) |}.

(** What the status service lists: one server without uptime, two of equal
    uptime, and a backup. *)
Definition listed : list server :=
  [ {| name := "https://a.example"; uptime_percentage := 50 |};
    {| name := "https://b.example"; uptime_percentage := 0 |};
    {| name := "https://c.example"; uptime_percentage := 199 # 2 |};
    {| name := "https://d.example"; uptime_percentage := 50 |};
    {| name := "https://mtchk-m.onrender.com"; uptime_percentage := 100 |} ].

Definition answers_ping (server_url : string) : http_result :=
  if existsb (String.eqb server_url) ["https://a.example"; "https://c.example"]
  then pong
  else plain_response "This service has been suspended.".

(** The primary and the backups are suspended; of the listed servers two
    answer the probe. *)
Definition backups_down : env :=
  {| post_at := fun _ _ _ => plain_response "This service has been suspended.";
     ping_at := fun _ => answers_ping;
     status_at := fun _ => Some listed;
     config_ok_at := fun _ => true |}.

(** A login that succeeds with a level that is no number. *)
Definition unreadable_level : list (string * string) :=
  [("status", "success"); ("name", "alice"); ("level", "n/a")].

(** Two lines of a fails file. *)
Definition two_fails : list (line ascii) :=
  [ {| l_username := "alice@x.com"; l_password := chars "pass word"; l_rest := "" |};
    {| l_username := "bob@x.com"; l_password := chars "Hunter22"; l_rest := "" |} ].

(** A combo file with a blank line and a line twice. *)
Definition combo_lines : list string :=
  [ "alice@x.com:password1" ++ Combo.newline;
    "  " ++ Combo.newline;
    "bob@x.com:Hunter22" ++ Combo.newline;
    " alice@x.com:password1 " ++ Combo.newline;
    "carol@x.com:abcdef" ].

(** Every POST is answered by a page that is no JSON; the primary fails the
    probe and the backups answer it. *)
Definition bad_gateway : env :=
  {| post_at := fun _ _ _ => plain_response "<html>Bad gateway</html>";
     ping_at := fun _ server_url =>
       if String.eqb server_url primary
       then plain_response "<html>Bad gateway</html>"
       else pong;
     status_at := fun _ => None;
     config_ok_at := fun _ => true |}.

(** The answer of the service to a key that is not active. *)
Definition inactive_key : response :=
  {| text := json_text [("message", "Invalid or inactive API key")];
     json := Some (JDict (json_dict [("message", "Invalid or inactive API key")])) |}.

End Examples.

(** ** Signals

    [throws P m]: every signal with which [m] leaves its normal course
    satisfies [P]. *)

Definition throws {S A} (P : signal -> Prop) (m : M S A) : Prop :=
  forall s e s', m s = (Sig e, s') -> P e.

Definition is_request_exception (e : signal) : Prop :=
  exists msg, e = RequestException msg.

Definition is_python_exception (e : signal) : Prop :=
  exists msg, e = RequestException msg \/ e = Exception msg.

(** The test of lines 210-214 on [str(e)]. *)
Definition timeout_like (msg : string) : bool :=
  existsb (fun err => Py.contains err (Py.lower msg)) MTClient.timeout_errors.

(** ** The order of the failover *)

(** The filter and the order of [_fetch_available_servers]. *)
Definition live (s : MTClient.server) : bool :=
  negb (Qle_bool (MTClient.uptime_percentage s) 0).

Definition by_uptime_desc (a b : MTClient.server) : Prop :=
  (MTClient.uptime_percentage b <= MTClient.uptime_percentage a)%Q.

Definition same_uptime (q : Q) (s : MTClient.server) : bool :=
  Qeq_bool (MTClient.uptime_percentage s) q.

Definition is_write {char} (ev : MTClient.net_event char) : bool :=
  match ev with MTClient.EWriteConfig _ => true | _ => false end.

(** The servers [_switch_server] considers when the active one fails the
    probe, in the order of its two loops: the backups other than the active
    endpoint, then the names of the status service, best uptime first, that
    are neither the active endpoint nor a backup. *)
Definition failover_plan (base : string) (status : option (list MTClient.server))
  : list string :=
  (List.filter (MTClient.not_current base) MTClient.BACKUP_SERVERS
   ++ List.filter (MTClient.not_current_nor_backup base)
        (map MTClient.name
           match status with
           | Some servers => MTClient.sort_desc (List.filter live servers)
           | None => []
           end))%list.

(** The outcomes of a failover that started in [c0]: nothing written and
    the client as it was, or a last probe that succeeded followed by the
    attempt to write config.json. *)
Inductive outcome {char} (E : MTClient.env) (c0 : MTClient.client_state char)
  : bool -> MTClient.client_state char -> Prop :=
| kept (l : list (MTClient.net_event char)) :
    Forall (fun ev => is_write ev = false) l ->
    outcome E c0 false (after l c0)
| switched (l : list (MTClient.net_event char)) (s : string) :
    Forall (fun ev => is_write ev = false) l ->
    s <> MTClient.base_url c0 ->
    MTClient.probe_ok (MTClient.ping_at E (MTClient.tick c0 + length l) s) = true ->
    outcome E c0 true
      (MTClient.set_base_url
         (if MTClient.config_ok_at E (MTClient.tick c0 + length l + 1)
          then s else MTClient.base_url c0)
         (after (l ++ [MTClient.EPing s; MTClient.EWriteConfig s]) c0)).

(** ** How a credential ends and what it counts *)

(** How an iteration of [check_account] can end other than by falling
    through: [continue], [return], [os._exit(1)]. *)
Definition leaves_iteration (e : signal) : Prop :=
  e = Continue \/ e = Return \/ e = Exit 1.

(** Inside the [try] of an iteration: what leaves it, or a Python
    exception, which its [except Exception] takes. *)
Definition inside (e : signal) : Prop :=
  leaves_iteration e \/ is_python_exception e.

(** The credentials that came to an end: counted as hit, fail or invalid. *)
Definition outcomes (k : Checker.ResultCounter) : nat :=
  Checker.hits k + Checker.fails k + Checker.invalid k.

(** What an iteration without detailed info does to the counters, by the
    way it ends. *)
Definition settles (e : signal) (k k' : Checker.ResultCounter) : Prop :=
  match e with
  | Continue => outcomes k' = outcomes k /\ Checker.bans k' = Checker.bans k
  | Return => outcomes k' = S (outcomes k) /\ Checker.bans k' = Checker.bans k
  | Exit code =>
      code = 1%Z /\ outcomes k' = outcomes k
      /\ Checker.bans k' = S (Checker.bans k)
  | _ => False
  end.

(** ** What a credential leaves behind *)

Definition login_posts {char} (ev : MTClient.net_event char) : nat :=
  match ev with MTClient.EPost _ MTClient.Login _ _ _ => 1 | _ => 0 end.

(** [keeps R m]: however [m] ends, the states before and after it are
    related by [R]. *)
Definition keeps {S A} (R : S -> S -> Prop) (m : M S A) : Prop :=
  forall s, R s (m s).2.

(** The files named by [config["save_path"]]: its own entries and those of
    its [levels]. *)
Definition configured (cfg : Checker.config) (path : string) : Prop :=
  exists sp, Checker.save_path cfg = Some sp
    /\ ((exists k, Checker.entries sp !! k = Some path)
        \/ (exists lv k, Checker.levels sp = Some lv /\ lv !! k = Some path)).

(** No counter went down. *)
Definition counted_up (k k' : Checker.ResultCounter) : Prop :=
  Checker.hits k <= Checker.hits k' /\ Checker.fails k <= Checker.fails k'
  /\ Checker.retries k <= Checker.retries k' /\ Checker.bans k <= Checker.bans k'
  /\ Checker.invalid k <= Checker.invalid k'.

(** The result files grew by lines of the credential [username] with one of
    the [passwords], in configured files only, and no counter went down. *)
Definition added_results {char} (cfg : Checker.config) (username : string)
    (passwords : list (list char)) (w w' : Checker.world char) : Prop :=
  counted_up (Checker.counter w) (Checker.counter w')
  /\ forall path, exists l,
       default [] (Checker.files w' !! path)
       = (default [] (Checker.files w !! path) ++ l)%list
       /\ Forall (fun ln => Checker.l_username ln = username
                            /\ In (Checker.l_password ln) passwords) l
       /\ (l <> [] -> configured cfg path).

(** ** The proxy of a request, and the pool of a process *)

#[global] Instance proxy_cfg_eq_dec : EqDecision MTClient.proxy_cfg.
Proof. solve_decision. Defined.

(** A POST that does not carry the [proxy] entry built from [proxy]. *)
Definition off_proxy {char} (proxy : option MTClient.proxy_cfg)
    (ev : MTClient.net_event char) : nat :=
  match ev with
  | MTClient.EPost _ _ _ _ sent =>
      if decide (sent = MTClient.payload_proxy proxy) then 0 else 1
  | _ => 0
  end.

(** The pool of a process, running or gone. *)
Definition pool_of {char} (pr : Checker.process (char := char))
  : Checker.pool (char := char) :=
  match pr with Checker.Running p | Checker.Exited _ p => p end.

(** * Properties *)

Section MeasureFacts.
Context {S Ev : Type} (log : S -> list Ev) (weight : Ev -> nat).

Lemma total_app l1 l2 : total weight (l1 ++ l2) = total weight l1 + total weight l2.
Proof. unfold total. now rewrite map_app, list_sum_app. Qed.

Lemma cost_weaken {A} n n' (m : M S A) :
  cost log weight n m -> n <= n' -> cost log weight n' m.
Proof.
  intros H Hle s. destruct (H s) as (l & -> & Hl). exists l. split; [easy | lia].
Qed.

Lemma cost_silent {A} (m : M S A) :
  (forall s, log (m s).2 = log s) -> cost log weight 0 m.
Proof. intros H s. exists []. rewrite H, app_nil_r. split; [easy | cbn; lia]. Qed.

Lemma cost_ret {A} (a : A) : cost log weight 0 (ret a).
Proof. now apply cost_silent. Qed.

Lemma cost_raise {A} e : cost log weight 0 (@raise S A e).
Proof. now apply cost_silent. Qed.

Lemma cost_get : cost log weight 0 (@get S).
Proof. now apply cost_silent. Qed.

Lemma cost_bind {A B} n1 n2 (m : M S A) (k : A -> M S B) :
  cost log weight n1 m -> (forall a, cost log weight n2 (k a)) ->
  cost log weight (n1 + n2) (bind m k).
Proof.
  intros Hm Hk s. unfold bind. destruct (Hm s) as (l1 & E1 & H1).
  destruct (m s) as [[a|e] s1]; cbn in *.
  - destruct (Hk a s1) as (l2 & E2 & H2). exists (l1 ++ l2)%list.
    rewrite E2, E1, total_app, app_assoc. split; [easy | lia].
  - exists l1. split; [easy | lia].
Qed.

Lemma cost_bind_l {A B} n (m : M S A) (k : A -> M S B) :
  cost log weight n m -> (forall a, cost log weight 0 (k a)) ->
  cost log weight n (bind m k).
Proof. intros. eapply cost_weaken; [eapply cost_bind; eauto | lia]. Qed.

Lemma cost_bind_r {A B} n (m : M S A) (k : A -> M S B) :
  cost log weight 0 m -> (forall a, cost log weight n (k a)) ->
  cost log weight n (bind m k).
Proof. intros. eapply cost_weaken; [eapply cost_bind; eauto | lia]. Qed.

Lemma cost_bind_diverts {A B} n (m : M S A) (k : A -> M S B) :
  cost log weight n m -> diverts m -> cost log weight n (bind m k).
Proof.
  intros Hm Hd s. unfold bind. destruct (Hm s) as (l1 & E1 & H1).
  destruct (Hd s) as (e & s' & Es). rewrite Es in *. now exists l1.
Qed.

Lemma cost_try_except {A} n1 n2 (m : M S A) h :
  cost log weight n1 m -> (forall e k, h e = Some k -> cost log weight n2 k) ->
  cost log weight (n1 + n2) (try_except m h).
Proof.
  intros Hm Hh s. unfold try_except. destruct (Hm s) as (l1 & E1 & H1).
  destruct (m s) as [[a|e] s1]; cbn in *.
  - exists l1. split; [easy | lia].
  - destruct (h e) as [k|] eqn:Ek.
    + destruct (Hh e k Ek s1) as (l2 & E2 & H2). exists (l1 ++ l2)%list.
      rewrite E2, E1, total_app, app_assoc. split; [easy | lia].
    + exists l1. split; [easy | lia].
Qed.

Lemma cost_try_except_l {A} n (m : M S A) h :
  cost log weight n m -> (forall e k, h e = Some k -> cost log weight 0 k) ->
  cost log weight n (try_except m h).
Proof. intros. eapply cost_weaken; [eapply cost_try_except; eauto | lia]. Qed.

Lemma cost_modify n (f : S -> S) :
  (forall s, exists l, log (f s) = (log s ++ l)%list /\ total weight l <= n) ->
  cost log weight n (modify f).
Proof. intros H s. apply H. Qed.

Lemma diverts_raise {A} e : diverts (@raise S A e).
Proof. intros s. now exists e, s. Qed.

Lemma diverts_bind_l {A B} (m : M S A) (k : A -> M S B) :
  diverts m -> diverts (bind m k).
Proof.
  intros H s. unfold bind. destruct (H s) as (e & s' & ->). now exists e, s'.
Qed.

Lemma diverts_bind_r {A B} (m : M S A) (k : A -> M S B) :
  (forall a, diverts (k a)) -> diverts (bind m k).
Proof.
  intros H s. unfold bind. destruct (m s) as [[a|e] s1]; [apply H | now exists e, s1].
Qed.

Lemma diverts_try_except {A} (m : M S A) h :
  diverts m -> (forall e k, h e = Some k -> diverts k) -> diverts (try_except m h).
Proof.
  intros Hm Hh s. unfold try_except. destruct (Hm s) as (e & s' & ->).
  destruct (h e) as [k|] eqn:Ek; [eapply Hh; eauto | now exists e, s'].
Qed.

End MeasureFacts.

Ltac cost_cases :=
  repeat match goal with
    | |- cost _ _ _ (ret _) => apply cost_ret
    | |- cost _ _ _ (raise _) => apply cost_raise
    | |- cost _ _ _ (if ?b then _ else _) => destruct b
    | |- cost _ _ _ (match ?x with _ => _ end) => destruct x
    end.

(** ** The client: where its requests go and how many there are *)

Section ClientCost.
Import MTClient.
Context {char : Type} {PC : PyChar char}.
Variable E : env.
Variable weight : net_event char -> nat.
Hypothesis quiet : forall ev, is_post ev = false -> weight ev = 0.

Abbreviation ccost := (cost (@net_log char) weight).

Lemma cost_interact {A} (r : client_state char -> result A) ev n :
  weight ev <= n -> ccost n (fun c => (r c, interact ev c)).
Proof. intros H c. exists [ev]. cbn. unfold total. cbn. split; [easy | lia]. Qed.

Lemma cost_get_ping u : ccost 0 (get_ping E u).
Proof using quiet. apply cost_interact. now rewrite quiet. Qed.

Lemma cost_test_server u : ccost 0 (_test_server E u).
Proof using quiet.
  unfold _test_server. apply cost_bind_l; [apply cost_get_ping | intros r].
  apply cost_ret.
Qed.

Lemma cost_fetch : ccost 0 (_fetch_available_servers E).
Proof using quiet. apply cost_interact. now rewrite quiet. Qed.

Lemma cost_update_base_url u : ccost 0 (_update_base_url E u).
Proof using quiet.
  intros c. unfold _update_base_url. exists [EWriteConfig u].
  unfold total; cbn. rewrite quiet by easy. split; [|lia].
  now destruct (config_ok_at E (tick c)).
Qed.

Lemma cost_switch_to_first el cands : ccost 0 (switch_to_first E el cands).
Proof using quiet.
  induction cands as [|s rest IH]; cbn; [apply cost_ret|].
  apply cost_bind_l; [apply cost_get | intros c].
  destruct (el (base_url c) s); [|exact IH].
  apply cost_bind_l; [apply cost_test_server | intros ok].
  destruct ok; [|exact IH].
  apply cost_bind_l; [apply cost_update_base_url | intros _; apply cost_ret].
Qed.

Lemma cost_switch_server : ccost 0 (_switch_server E).
Proof using quiet.
  unfold _switch_server.
  apply cost_bind_l; [apply cost_get | intros c].
  apply cost_bind_l; [apply cost_test_server | intros ok].
  destruct ok; [apply cost_ret|].
  apply cost_bind_l; [apply cost_switch_to_first | intros sw].
  destruct sw; [apply cost_ret|].
  apply cost_bind_l; [apply cost_fetch | intros srv]. apply cost_switch_to_first.
Qed.

Lemma cost_sleep n : ccost 0 (MTClient.sleep n).
Proof using quiet.
  intros c. exists [MTClient.ESleep n]. unfold total; cbn.
  rewrite quiet by easy. split; [easy|lia].
Qed.

Lemma cost_make_request api username k pw px :
  (forall base px', weight (EPost base api username pw px') <= k) ->
  ccost k (make_request E api username pw px).
Proof.
  intros Hpost c. unfold make_request.
  exists [EPost (base_url c) api username pw (payload_proxy px)].
  unfold total; cbn. split; [now destruct (post_at E (tick c) (base_url c) api) | ].
  specialize (Hpost (base_url c) (payload_proxy px)). lia.
Qed.

Lemma cost_request_once k f mx a : ccost k f -> ccost k (request_once E f mx a).
Proof using quiet.
  intros Hf. unfold request_once.
  apply cost_bind_l; [exact Hf | intros resp].
  destruct (Py.is_blank (text resp)).
  { destruct (a <? mx - 1); [|apply cost_raise].
    apply cost_bind_l; [apply cost_sleep | intros; apply cost_raise]. }
  destruct (Py.contains _ _); [|apply cost_ret].
  apply cost_bind_l; [apply cost_switch_server | intros sw].
  destruct sw; apply cost_raise.
Qed.

(** Each invocation of [_make_request_with_retry] sends at most
    [max_retries] requests. *)
Lemma cost_request_loop k f mx rem le :
  ccost k f -> ccost (rem * k) (request_loop E f mx rem le).
Proof using quiet.
  intros Hf. revert le. induction rem as [|rem IH]; intros le.
  { cbn. destruct le; apply cost_raise. }
  intros c. cbn [request_loop].
  destruct (cost_request_once k f mx (mx - S rem) Hf c) as (l1 & E1 & H1).
  destruct (request_once E f mx (mx - S rem) c) as [[resp|e] c1]; cbn in E1.
  { exists l1. cbn. split; [easy | lia]. }
  assert (Hcont : forall le' l0 c2,
     net_log c2 = (net_log c1 ++ l0)%list -> total weight l0 = 0 ->
     exists l, net_log (request_loop E f mx rem le' c2).2 = (net_log c ++ l)%list
               /\ total weight l <= S rem * k).
  { intros le' l0 c2 E2 H0. destruct (IH le' c2) as (l2 & E3 & H2).
    exists (l1 ++ l0 ++ l2)%list.
    rewrite E3, E2, E1, !total_app, <- !app_assoc. split; [easy | lia]. }
  assert (Hstop : exists l, net_log c1 = (net_log c ++ l)%list
                            /\ total weight l <= S rem * k).
  { exists l1. split; [easy | lia]. }
  destruct e; cbn; try exact Hstop.
  - match goal with |- context [if ?b then _ else _] => destruct b end;
      [|exact Hstop].
    match goal with |- context [if ?b then _ else _] => destruct b end.
    + unfold bind, MTClient.sleep, modify. cbn.
      eapply (Hcont _ [MTClient.ESleep 1]); [reflexivity|].
      unfold total; cbn. now rewrite quiet.
    + apply (Hcont _ []); [now rewrite app_nil_r | reflexivity].
  - apply (Hcont _ []); [now rewrite app_nil_r | reflexivity].
Qed.

Lemma cost_validate_parsed j : ccost 0 (validate_parsed j).
Proof.
  unfold validate_parsed. destruct j as [d|]; [|apply cost_raise]. cost_cases.
Qed.

Lemma cost_login_parsed j : ccost 0 (login_parsed j).
Proof.
  unfold login_parsed. destruct j as [d|]; [|apply cost_raise]. cost_cases.
Qed.

(** A call of [validate_account] re-invoked at most [depth] times posts at
    most [3 * (depth + 1)] times, to /validate, with passwords the format
    check has passed. *)
Lemma cost_validate_account k (Pw : list char -> Prop) depth username pw px :
  (forall base q px, Pw q -> weight (EPost base Validate username q px) <= k) ->
  (forall q q' e, Pw q -> _validate_password_format q = (true, q', e) -> Pw q') ->
  (forall q e, _validate_password_format pw = (true, q, e) -> Pw q) ->
  ccost (S depth * (3 * k)) (validate_account E depth username pw px).
Proof using quiet.
  intros Hpost Hnorm. revert pw px.
  induction depth as [|d IH]; intros pw px HP; cbn [validate_account];
    destruct (_validate_password_format pw) as [[ok q] err] eqn:Ef;
    (destruct ok; cbn [negb]; [|eapply cost_weaken; [apply cost_ret | lia]]);
    assert (HPq : Pw q) by eauto;
    (eapply cost_weaken; [apply cost_try_except_l | ]);
    try (intros e h He; destruct e; inversion He; subst; apply cost_ret).
  - eapply cost_bind_l.
    { apply cost_request_loop. apply cost_make_request; eauto. }
    intros resp.
    destruct (first_key_in _ _); [apply cost_ret|].
    destruct (Py.any_key_in _ _); [apply cost_ret|].
    destruct (json resp); [apply cost_validate_parsed |].
    apply cost_bind_l; [apply cost_switch_server | intros sw; destruct sw; apply cost_raise].
  - lia.
  - apply (cost_bind _ _ (3 * k) (S d * (3 * k))).
    { apply cost_request_loop. apply cost_make_request; eauto. }
    intros resp.
    destruct (first_key_in _ _); [eapply cost_weaken; [apply cost_ret | lia]|].
    destruct (Py.any_key_in _ _); [eapply cost_weaken; [apply cost_ret | lia]|].
    destruct (json resp); [eapply cost_weaken; [apply cost_validate_parsed| lia] |].
    apply cost_bind_r; [apply cost_switch_server | intros sw].
    destruct sw; [apply IH; eauto | eapply cost_weaken; [apply cost_raise | lia]].
  - lia.
Qed.

Lemma cost_login k (Pw : list char -> Prop) depth username pw px :
  (forall base q px, Pw q -> weight (EPost base Login username q px) <= k) ->
  (forall q q' e, Pw q -> _validate_password_format q = (true, q', e) -> Pw q') ->
  (forall q e, _validate_password_format pw = (true, q, e) -> Pw q) ->
  ccost (S depth * (3 * k)) (login E depth username pw px).
Proof using quiet.
  intros Hpost Hnorm. revert pw px.
  induction depth as [|d IH]; intros pw px HP; cbn [login];
    destruct (_validate_password_format pw) as [[ok q] err] eqn:Ef;
    (destruct ok; cbn [negb]; [|eapply cost_weaken; [apply cost_ret | lia]]);
    assert (HPq : Pw q) by eauto;
    (eapply cost_weaken; [apply cost_try_except_l | ]);
    try (intros e h He; destruct e; inversion He; subst; apply cost_ret).
  - eapply cost_bind_l.
    { apply cost_request_loop. apply cost_make_request; eauto. }
    intros resp.
    destruct (first_key_in _ _); [apply cost_ret|].
    destruct (Py.any_key_in _ _); [apply cost_raise|].
    destruct (json resp); [apply cost_login_parsed |].
    apply cost_bind_l; [apply cost_switch_server | intros sw; destruct sw; apply cost_raise].
  - lia.
  - apply (cost_bind _ _ (3 * k) (S d * (3 * k))).
    { apply cost_request_loop. apply cost_make_request; eauto. }
    intros resp.
    destruct (first_key_in _ _); [eapply cost_weaken; [apply cost_ret | lia]|].
    destruct (Py.any_key_in _ _); [eapply cost_weaken; [apply cost_raise | lia]|].
    destruct (json resp); [eapply cost_weaken; [apply cost_login_parsed| lia] |].
    apply cost_bind_r; [apply cost_switch_server | intros sw].
    destruct sw; [apply IH; eauto | eapply cost_weaken; [apply cost_raise | lia]].
  - lia.
Qed.

End ClientCost.

(** ** The checker: what one iteration and one credential cost *)

Section Diverting.
Import MTClient Checker.
Context {char : Type} {PC : PyChar char}.
Variable py_int : jval -> Z + string.
Variable cfg : config.

Lemma diverts_retry_later : diverts (@retry_later char).
Proof. unfold retry_later. do 2 (apply diverts_bind_r; intros _). apply diverts_raise. Qed.

Lemma diverts_fail_with st u p msg px : diverts (fail_with py_int cfg st u (p : list char) msg px).
Proof. unfold fail_with. do 3 (apply diverts_bind_r; intros _). apply diverts_raise. Qed.

Lemma diverts_handle_ban u (p : list char) e px : diverts (handle_ban u p e px).
Proof. unfold handle_ban. do 3 (apply diverts_bind_r; intros _). apply diverts_raise. Qed.

Lemma diverts_report_login_hit u (p : list char) resp px :
  diverts (report_login_hit py_int cfg u p resp px).
Proof.
  unfold report_login_hit. do 5 (apply diverts_bind_r; intros ?). apply diverts_raise.
Qed.

Lemma diverts_on_request_exception i u (p : list char) px e k :
  on_request_exception py_int cfg i u p px e = Some k -> diverts k.
Proof.
  unfold on_request_exception. destruct e; try discriminate. intros [= <-].
  match goal with |- context [if ?b then _ else _] => destruct b end;
    apply diverts_bind_l; [apply diverts_retry_later | apply diverts_fail_with].
Qed.

(** The detailed-info branch always leaves the iteration: by [continue],
    by [return] or by ending the process. *)
Lemma diverts_login_directly E depth i u (p : list char) px :
  diverts (login_directly E depth py_int cfg i u p px).
Proof.
  unfold login_directly. apply diverts_bind_r. intros resp.
  destruct (negb (success resp)); [|apply diverts_report_login_hit].
  do 2 (apply diverts_bind_r; intros _). apply diverts_fail_with.
Qed.
End Diverting.

Section WorldCost.
Import MTClient Checker.
Context {char : Type} {PC : PyChar char} {Ev : Type}.
Variable log : world char -> list Ev.
Variable wt : Ev -> nat.
Variables (E : env) (depth : nat) (proxies : nat -> option proxy_data).
Variable py_int : jval -> Z + string.
Variable cfg : config.
Variables (username : string) (password : list char).
Variables (g cL cV : nat).

Abbreviation wcost := (cost log wt).

Hypothesis Hcounter : forall rt, wcost 0 (counter_increment rt).
Hypothesis Happend : forall path l, wcost 0 (modify (append_line path l)).
Hypothesis Hsleep : forall n, wcost 0 (modify (emit (Checker.ESleep n))).
Hypothesis Hprint : forall st msg px,
  wcost 0 (modify (emit (EPrint st username password msg px))).
Hypothesis Hstopped : forall msg, wcost 0 (modify (emit (EStopped msg))).
Hypothesis Hsave : forall rt ai px, rt = "fail" \/ rt = "hit" ->
  wcost 0 (modify (emit (ESaveResult username password rt ai px))).
Hypothesis Hproxy : forall i, wcost g (modify (emit (EGetProxy i))).
Hypothesis Hlogin : forall px, wcost cL (call (login E depth username password px)).
Hypothesis Hvalidate : forall px,
  wcost cV (call (validate_account E depth username password px)).

Ltac wzw known :=
  repeat first
    [ known | apply cost_ret | apply cost_raise | apply cost_get
    | apply Hcounter | apply Happend | apply Hsleep | apply Hprint | apply Hstopped
    | apply cost_bind_l; [ | intros ? ]
    | match goal with
      | |- cost _ _ _ (if ?b then _ else _) => destruct b
      | |- cost _ _ _ (match ?x with _ => _ end) => destruct x
      end ].
Ltac wz := wzw fail.

Lemma wcost_email_of info : wcost 0 (email_of info).
Proof. unfold email_of. wz. Qed.

Lemma wcost_save_hit_details sp ai px :
  wcost 0 (save_hit_details py_int sp username password ai px).
Proof using Happend. unfold save_hit_details. wzw ltac:(apply wcost_email_of). Qed.

Lemma wcost_save_result rt ai px : rt = "fail" \/ rt = "hit" ->
  wcost 0 (save_result py_int cfg username password rt ai px).
Proof using Happend Hsave.
  intros Hrt. unfold save_result.
  apply cost_bind_l; [now apply Hsave | intros _].
  wzw ltac:(apply wcost_save_hit_details).
Qed.

Lemma wcost_print st msg px : wcost 0 (print_result st username password msg px).
Proof using Hprint. apply Hprint. Qed.

Lemma wcost_format info : wcost 0 (format_account_info info).
Proof. unfold format_account_info. wzw ltac:(apply wcost_email_of). Qed.

Lemma wcost_handle_ban e px : wcost 0 (handle_ban username password e px).
Proof using Hcounter Hprint Hstopped. unfold handle_ban. wzw ltac:(apply wcost_print). Qed.

Lemma wcost_retry_later : wcost 0 (@retry_later char).
Proof using Hcounter Hsleep. unfold retry_later, time_sleep. wz. Qed.

Lemma wcost_fail_with st msg px :
  wcost 0 (fail_with py_int cfg st username password msg px).
Proof using Hcounter Hprint Hsave Happend.
  unfold fail_with. wzw ltac:(first [apply wcost_print | apply wcost_save_result; auto]).
Qed.

Ltac known :=
  first [ apply wcost_print | apply wcost_save_result; auto | apply wcost_format
        | apply wcost_handle_ban | apply wcost_retry_later | apply wcost_fail_with ].

Lemma wcost_report_login_hit resp px :
  wcost 0 (report_login_hit py_int cfg username password resp px).
Proof using Hcounter Hprint Hsave Happend. unfold report_login_hit. wzw known. Qed.

Lemma wcost_on_request_exception i px e k :
  on_request_exception py_int cfg i username password px e = Some k -> wcost 0 k.
Proof using Hcounter Hprint Hsave Happend Hsleep.
  unfold on_request_exception. destruct e; try discriminate.
  intros [= <-]. wzw known.
Qed.

Lemma wcost_login_directly i px :
  wcost cL (login_directly E depth py_int cfg i username password px).
Proof using Hcounter Hprint Hsave Happend Hsleep Hstopped Hlogin.
  unfold login_directly.
  apply cost_bind_l.
  { apply cost_try_except_l; [apply Hlogin | apply wcost_on_request_exception]. }
  intros resp. wzw ltac:(first [known | apply wcost_report_login_hit]).
Qed.

Lemma wcost_login_after_validate px :
  wcost cL (login_after_validate E depth py_int cfg username password px).
Proof using Hcounter Hprint Hsave Happend Hsleep Hstopped Hlogin.
  unfold login_after_validate. apply cost_try_except_l.
  - apply cost_bind_l; [apply Hlogin | intros resp].
    wzw ltac:(first [known | apply wcost_report_login_hit]).
  - intros e k. destruct (is_exception e); [|discriminate]. intros [= <-]. known.
Qed.

Lemma wcost_validate_then (ci : bool) i px :
  wcost (cV + (if ci then cL else 0))
    (validate_then E depth py_int cfg ci i username password px).
Proof using Hcounter Hprint Hsave Happend Hsleep Hstopped Hlogin Hvalidate.
  unfold validate_then.
  apply cost_bind.
  { apply cost_try_except_l; [apply Hvalidate | apply wcost_on_request_exception]. }
  intros resp. destruct (negb (success resp)).
  { eapply cost_weaken; [|apply Nat.le_0_l]. wzw known. }
  destruct ci; [apply wcost_login_after_validate|]. wzw known.
Qed.

(** One iteration makes one client call: to [login] in detailed mode, to
    [validate_account] otherwise. *)
Lemma wcost_attempt (ci : bool) i :
  wcost (g + (if ci then cL else cV))
    (attempt E depth proxies py_int cfg ci username password i).
Proof using Hcounter Hprint Hsave Happend Hsleep Hstopped Hlogin Hvalidate Hproxy.
  unfold attempt, try_with_new_proxy.
  apply cost_bind.
  { apply cost_bind_l; [apply Hproxy | intros; apply cost_ret]. }
  intros [px|]; [|eapply cost_weaken; [apply wcost_retry_later | lia]].
  apply cost_try_except_l.
  - destruct ci.
    + apply cost_bind_diverts; [apply wcost_login_directly | apply diverts_login_directly].
    + apply cost_bind_r; [apply cost_ret | intros _].
      eapply cost_weaken; [apply wcost_validate_then | cbn; lia].
  - intros e k. destruct (is_exception e); [|discriminate]. intros [= <-].
    wzw known.
Qed.

Lemma wcost_attempts (ci : bool) rem i :
  wcost (rem * (g + (if ci then cL else cV)))
    (attempts E depth proxies py_int cfg ci username password rem i).
Proof using Hcounter Hprint Hsave Happend Hsleep Hstopped Hlogin Hvalidate Hproxy.
  revert i. induction rem as [|rem IH]; intros i; [apply cost_ret|].
  intros w. cbn [attempts].
  destruct (wcost_attempt ci i w) as (l1 & E1 & H1).
  destruct (attempt E depth proxies py_int cfg ci username password i w) as [[[]|e] w1];
    cbn in E1.
  - destruct (IH (S i) w1) as (l2 & E2 & H2). exists (l1 ++ l2)%list.
    rewrite E2, E1, total_app, app_assoc. split; [easy | lia].
  - assert (Hstop : exists l, log w1 = (log w ++ l)%list
        /\ total wt l <= S rem * (g + (if ci then cL else cV)))
      by (exists l1; split; [easy | lia]).
    destruct e; try exact Hstop.
    destruct (IH (S i) w1) as (l2 & E2 & H2). exists (l1 ++ l2)%list.
    rewrite E2, E1, total_app, app_assoc. split; [easy | lia].
Qed.

Lemma wcost_exhausted : wcost 0 (exhausted py_int cfg username password).
Proof using Hcounter Hprint Hsave Happend. unfold exhausted. wzw known. Qed.

Lemma wcost_reject msg : wcost 0 (reject py_int cfg username password msg).
Proof using Hcounter Hprint Hsave Happend. unfold reject. wzw known. Qed.

Lemma wcost_returning n m : wcost n m -> wcost n (returning m).
Proof.
  intros H. apply cost_try_except_l; [exact H|].
  intros e k. destruct e; try discriminate. intros [= <-]. apply cost_ret.
Qed.

End WorldCost.

Section CredentialCost.
Import MTClient Checker.
Context {char : Type} {PC : PyChar char} {Ev : Type}.
Variable log : world char -> list Ev.
Variable wt : Ev -> nat.
Variables (E : env) (depth : nat) (proxies : nat -> option proxy_data).
Variable py_int : jval -> Z + string.
Variable cfg : config.
Variables (g cL cV : nat).
Variable Pw : list char -> Prop.

Hypothesis Hcounter : forall rt, cost log wt 0 (counter_increment rt).
Hypothesis Happend : forall path l, cost log wt 0 (modify (append_line path l)).
Hypothesis Hsleep : forall n, cost log wt 0 (modify (emit (Checker.ESleep n))).
Hypothesis Hprint : forall st u p msg px,
  cost log wt 0 (modify (emit (EPrint st u p msg px))).
Hypothesis Hstopped : forall msg, cost log wt 0 (modify (emit (EStopped msg))).
Hypothesis Hsave : forall u p rt ai px, rt = "fail" \/ rt = "hit" ->
  cost log wt 0 (modify (emit (ESaveResult u p rt ai px))).
Hypothesis Hproxy : forall i, cost log wt g (modify (emit (EGetProxy i))).
Hypothesis Hlogin : forall u p px, Pw p ->
  cost log wt cL (call (login E depth u p px)).
Hypothesis Hvalidate : forall u p px, Pw p ->
  cost log wt cV (call (validate_account E depth u p px)).

(** A credential costs at most a hundred iterations. *)
Lemma cost_check_account username password (check_info : bool) :
  (forall q e, _validate_password_format password = (true, q, e) -> Pw q) ->
  cost log wt (max_retries * (g + (if check_info then cL else cV)))
    (check_account E depth proxies py_int cfg (username, password) check_info).
Proof using Hcounter Hprint Hsave Happend Hsleep Hstopped Hlogin Hvalidate Hproxy.
  intros HP. unfold check_account.
  destruct (_validate_password_format password) as [[ok q] err] eqn:Ef.
  apply wcost_returning. destruct ok; cbn [negb].
  - apply cost_bind_l; [|intros _; apply wcost_exhausted; auto].
    apply wcost_attempts; eauto.
  - eapply cost_weaken; [apply wcost_reject; auto | lia].
Qed.

End CredentialCost.

(** The events of a credential, weighed. *)
Lemma events_cost_check_account {char} {PC : PyChar char}
    (wt : Checker.event char -> nat) g E depth proxies py_int cfg combo check_info :
  (forall n, wt (Checker.ESleep n) = 0) ->
  (forall st u p msg px, wt (Checker.EPrint st u p msg px) = 0) ->
  (forall msg, wt (Checker.EStopped msg) = 0) ->
  (forall u p rt ai px, rt = "fail" \/ rt = "hit" ->
     wt (Checker.ESaveResult u p rt ai px) = 0) ->
  (forall i, wt (Checker.EGetProxy i) <= g) ->
  cost (@Checker.events char) wt (Checker.max_retries * g)
    (Checker.check_account E depth proxies py_int cfg combo check_info).
Proof.
  intros Hsleep Hprint Hstopped Hsave Hproxy. destruct combo as [u p].
  assert (Hemit : forall ev n, wt ev <= n ->
            cost (@Checker.events char) wt n (modify (Checker.emit ev))).
  { intros ev n H w. exists [ev]. unfold total; cbn. split; [easy | lia]. }
  assert (Hcall : forall A (m : M (MTClient.client_state char) A),
            cost (@Checker.events char) wt 0 (Checker.call m)).
  { intros A m. apply cost_silent. intros w. unfold Checker.call.
    now destruct (m (Checker.client w)). }
  eapply cost_weaken.
  - apply (cost_check_account _ _ E depth proxies py_int cfg g 0 0 (fun _ => True));
      intros; try apply Hemit; try apply Hcall;
      rewrite ?Hsleep, ?Hprint, ?Hstopped, ?Hsave; auto;
      now apply cost_silent.
  - destruct check_info; lia.
Qed.

(** The requests of a credential, weighed: the checker itself sends none,
    and each iteration makes one client call. *)
Lemma requests_cost_check_account {char} {PC : PyChar char}
    (weight : MTClient.net_event char -> nat) kL kV (Pw : list char -> Prop)
    E depth proxies py_int cfg username password (check_info : bool) :
  (forall ev, is_post ev = false -> weight ev = 0) ->
  (forall base u q px, Pw q -> weight (MTClient.EPost base MTClient.Login u q px) <= kL) ->
  (forall base u q px, Pw q -> weight (MTClient.EPost base MTClient.Validate u q px) <= kV) ->
  (forall q q' e, Pw q -> MTClient._validate_password_format q = (true, q', e) -> Pw q') ->
  (forall q e, MTClient._validate_password_format password = (true, q, e) -> Pw q) ->
  cost (fun w => MTClient.net_log (Checker.client w)) weight
    (Checker.max_retries * (S depth * (3 * (if check_info then kL else kV))))
    (Checker.check_account E depth proxies py_int cfg (username, password) check_info).
Proof.
  intros quiet HL HV Hnorm HP.
  assert (Hcall : forall A (m : M (MTClient.client_state char) A) n,
            cost (@MTClient.net_log char) weight n m ->
            cost (fun w => MTClient.net_log (Checker.client w)) weight n (Checker.call m)).
  { intros A m n Hm w. destruct (Hm (Checker.client w)) as (l & El & Hl).
    exists l. unfold Checker.call. destruct (m (Checker.client w)). now cbn in *. }
  eapply cost_weaken.
  - apply (cost_check_account _ _ E depth proxies py_int cfg 0
             (S depth * (3 * kL)) (S depth * (3 * kV)) Pw);
      try (intros; now apply cost_silent); try exact HP.
    + intros u p px Hp. apply Hcall. apply (cost_login E weight quiet kL Pw); eauto.
    + intros u p px Hp. apply Hcall.
      apply (cost_validate_account E weight quiet kV Pw); eauto.
  - destruct check_info; lia.
Qed.

(** ** The password format policy *)

Section Format.
Import MTClient.
Context {char : Type} {PC : PyChar char}.

Lemma format_invalid_iff (p : list char) :
  (_validate_password_format p).1.1 = false <->
  (length p < 6 \/ (exists c, In c p /\ isalnum c = false)
   \/ (forall c, In c p -> isdigit c = false)).
Proof.
  unfold _validate_password_format.
  destruct (Nat.ltb_spec (length p) 6) as [Hl|Hl]; cbn.
  { split; auto. }
  destruct (existsb (fun c => negb (isalnum c)) p) eqn:Hs; cbn.
  { split; auto. intros _. right; left.
    apply existsb_exists in Hs as (c & Hc & Hn). exists c. split; auto.
    now apply negb_true_iff. }
  assert (Hns : ~ exists c, In c p /\ isalnum c = false).
  { intros (c & Hc & Hn).
    assert (existsb (fun c => negb (isalnum c)) p = true)
      by (apply existsb_exists; exists c; rewrite Hn; auto).
    congruence. }
  destruct (existsb isdigit p) eqn:Hd; cbn.
  - assert (Hnd : ~ forall c, In c p -> isdigit c = false).
    { intros H. apply existsb_exists in Hd as (c & Hc & Hcd).
      rewrite (H c Hc) in Hcd. discriminate. }
    destruct (existsb isupper p && existsb islower p); cbn;
      split; try discriminate; intros [?|[?|?]]; try lia; tauto.
  - rewrite andb_false_r. cbn. split; auto. intros _. right; right.
    intros c Hc. destruct (isdigit c) eqn:Ed; auto.
    assert (existsb isdigit p = true) by (apply existsb_exists; eauto). congruence.
Qed.

Lemma format_valid_modified (p : list char) q e :
  _validate_password_format p = (true, q, e) ->
  q = (if existsb isupper p then p else capitalize_first_alpha p) /\ e = "".
Proof.
  unfold _validate_password_format.
  destruct (length p <? 6); [discriminate|].
  destruct (existsb (fun c => negb (isalnum c)) p); [discriminate|].
  destruct (existsb isupper p), (existsb islower p), (existsb isdigit p); cbn;
    intros [= <- <-]; auto.
Qed.

Lemma capitalize_split (p : list char) :
  existsb isalpha p = true ->
  exists pre c suf, p = (pre ++ c :: suf)%list /\ Forall (fun x => isalpha x = false) pre
    /\ isalpha c = true /\ capitalize_first_alpha p = (pre ++ upper c ++ suf)%list.
Proof.
  induction p as [|a p IH]; cbn; [discriminate|].
  destruct (isalpha a) eqn:Ea; cbn.
  - intros _. exists [], a, p. cbn. auto.
  - intros H. destruct (IH H) as (pre & c & suf & -> & Hpre & Hc & Hcap).
    exists (a :: pre), c, suf. cbn. rewrite Hcap. repeat split; auto.
Qed.
End Format.


Section Sink.
Import MTClient Checker.
Context {char : Type} {PC : PyChar char}.
Variable py_int : jval -> Z + string.
Variable cfg : config.

Lemma save_result_fail u (p : list char) px w :
  save_result py_int cfg u p "fail" None px w =
    (Val tt,
     let w1 := emit (ESaveResult u p "fail" None px) w in
     match fails_path cfg with
     | Some path =>
         append_line path {| l_username := u; l_password := p; l_rest := "" |} w1
     | None => w1
     end).
Proof.
  unfold save_result, fails_path, bind, modify, ret. cbn.
  destruct (save_path cfg) as [sp|]; [|reflexivity].
  destruct (bool_decide (entries sp = ∅) && negb (bool_decide (is_Some (levels sp))));
    [reflexivity|].
  cbn. destruct (String.eqb _ ""); reflexivity.
Qed.
End Sink.

Lemma total_zero_Forall {Ev} (wt : Ev -> nat) l :
  total wt l <= 0 -> Forall (fun ev => wt ev = 0) l.
Proof.
  induction l as [|a l IH]; intros H; constructor;
    change (wt a + total wt l <= 0) in H.
  - lia.
  - apply IH. lia.
Qed.

(** ** Credentials that fail the format policy *)





(** ** Passwords without an uppercase letter *)



(** ** One iteration, by the verdict on its client call *)

Section Iterations.
Import MTClient Checker.
Context {char : Type} {PC : PyChar char}.
Variables (E : env) (depth : nat) (proxies : nat -> option proxy_data).
Variable py_int : jval -> Z + string.
Variable cfg : config.

Lemma attempt_no_proxy ci username password i w :
  proxies i = None ->
  attempt E depth proxies py_int cfg ci username password i w
  = (Sig Continue,
     emit (Checker.ESleep 1)
       (set_counter (increment "retry" (counter w)) (emit (EGetProxy i) w))).
Proof.
  intros Hp. unfold attempt, try_with_new_proxy, bind, modify, ret. cbn. rewrite Hp.
  reflexivity.
Qed.

Lemma attempt_transient ci username password i px w st msg :
  proxies i = Some px ->
  classify ci (client_call ci E depth username password px (client w)).1
    = Transient st msg ->
  let w1 := set_client (client_call ci E depth username password px (client w)).2
              (emit (EGetProxy i) w) in
  attempt E depth proxies py_int cfg ci username password i w
  = if i <? max_retries - 1
    then (Sig Continue,
          emit (Checker.ESleep 1) (set_counter (increment "retry" (counter w1)) w1))
    else (Sig Return,
          saved_fail cfg username password
            (emit (ESaveResult username password "fail" None "N/A")
               (emit (EPrint st username password msg (url px))
                  (set_counter (increment "fail" (counter w1)) w1)))).
Proof.
  intros Hp Hc. cbn zeta.
  unfold attempt, try_with_new_proxy. unfold bind at 1. unfold bind at 1.
  unfold modify at 1, ret at 1. rewrite Hp.
  unfold client_call in *.
  destruct ci.
  - unfold try_except at 1, bind at 1, login_directly at 1, bind at 1,
      try_except at 1, call at 1.
    cbn [client emit].
    destruct (login E depth username password (Some (ProxyDict (proxy_dict px))) (client w))
      as [[resp|e] c'] eqn:Ecall; cbn [fst snd] in *.
    + unfold classify in Hc. 
      destruct (success resp) eqn:Hs; [discriminate|].
      destruct (marked (ban_markers true) (error resp)) eqn:Hb; [discriminate|].
      destruct (marked (retry_markers true) (error resp)) eqn:Hr; [|discriminate].
      injection Hc as <- <-. cbn [ban_markers retry_markers] in *.
      cbn [negb]. rewrite Hb, Hr.
      destruct (i <? max_retries - 1) eqn:Hi.
      * reflexivity.
      * unfold bind, ret, fail_with.
        unfold bind, counter_increment, print_result, modify, raise.
        rewrite save_result_fail. reflexivity.
    + destruct e; cbn in Hc; try discriminate; injection Hc as <- <-.
      * cbn [on_request_exception]. 
        destruct (i <? max_retries - 1) eqn:Hi.
        -- reflexivity.
        -- unfold bind, fail_with. unfold bind, counter_increment, print_result, modify, raise.
           rewrite save_result_fail. reflexivity.
      * cbn [on_request_exception is_exception].
        destruct (i <? max_retries - 1) eqn:Hi.
        -- reflexivity.
        -- unfold bind, fail_with. unfold bind, counter_increment, print_result, modify, raise.
           rewrite save_result_fail. reflexivity.
  - unfold try_except at 1, bind at 1, ret at 1, validate_then at 1, bind at 1,
      try_except at 1, call at 1.
    cbn [client emit].
    destruct (validate_account E depth username password
                (Some (ProxyDict (proxy_dict px))) (client w))
      as [[resp|e] c'] eqn:Ecall; cbn [fst snd] in *.
    + unfold classify in Hc.
      destruct (success resp) eqn:Hs; [discriminate|].
      destruct (marked (ban_markers false) (error resp)) eqn:Hb; [discriminate|].
      destruct (marked (retry_markers false) (error resp)) eqn:Hr; [|discriminate].
      injection Hc as <- <-. cbn [ban_markers retry_markers] in *.
      cbn [negb]. rewrite Hb, Hr.
      destruct (i <? max_retries - 1) eqn:Hi.
      * reflexivity.
      * unfold bind, ret, fail_with.
        unfold bind, counter_increment, print_result, modify, raise.
        rewrite save_result_fail. reflexivity.
    + destruct e; cbn in Hc; try discriminate; injection Hc as <- <-.
      * cbn [on_request_exception].
        destruct (i <? max_retries - 1) eqn:Hi.
        -- reflexivity.
        -- unfold bind, fail_with. unfold bind, counter_increment, print_result, modify, raise.
           rewrite save_result_fail. reflexivity.
      * cbn [on_request_exception is_exception].
        destruct (i <? max_retries - 1) eqn:Hi.
        -- reflexivity.
        -- unfold bind, fail_with. unfold bind, counter_increment, print_result, modify, raise.
           rewrite save_result_fail. reflexivity.
Qed.

Lemma attempt_banned ci username password i px w err :
  proxies i = Some px ->
  classify ci (client_call ci E depth username password px (client w)).1 = Banned err ->
  let w1 := set_client (client_call ci E depth username password px (client w)).2
              (emit (EGetProxy i) w) in
  attempt E depth proxies py_int cfg ci username password i w
  = (Sig (Exit 1),
     emit (EStopped (py_str err))
       (emit (EPrint "BAN" username password (py_str err) (url px))
          (set_counter (increment "ban" (counter w1)) w1))).
Proof.
  intros Hp Hc. cbn zeta.
  unfold attempt, try_with_new_proxy. unfold bind at 1. unfold bind at 1.
  unfold modify at 1, ret at 1. rewrite Hp.
  unfold client_call in *.
  destruct ci.
  - unfold try_except at 1, bind at 1, login_directly at 1, bind at 1,
      try_except at 1, call at 1.
    cbn [client emit].
    destruct (login E depth username password (Some (ProxyDict (proxy_dict px))) (client w))
      as [[resp|e] c'] eqn:Ecall; cbn [fst snd] in *.
    + unfold classify in Hc.
      destruct (success resp) eqn:Hs; [discriminate|].
      destruct (marked (ban_markers true) (error resp)) eqn:Hb;
        [|destruct (marked (retry_markers true) (error resp)); discriminate].
      injection Hc as <-. cbn [ban_markers] in *.
      cbn [negb]. rewrite Hb. reflexivity.
    + destruct e; cbn in Hc; discriminate.
  - unfold try_except at 1, bind at 1, ret at 1, validate_then at 1, bind at 1,
      try_except at 1, call at 1.
    cbn [client emit].
    destruct (validate_account E depth username password
                (Some (ProxyDict (proxy_dict px))) (client w))
      as [[resp|e] c'] eqn:Ecall; cbn [fst snd] in *.
    + unfold classify in Hc.
      destruct (success resp) eqn:Hs; [discriminate|].
      destruct (marked (ban_markers false) (error resp)) eqn:Hb;
        [|destruct (marked (retry_markers false) (error resp)); discriminate].
      injection Hc as <-. cbn [ban_markers] in *.
      cbn [negb]. rewrite Hb. reflexivity.
    + destruct e; cbn in Hc; discriminate.
Qed.

Lemma events_saved_fail u (p : list char) w : events (saved_fail cfg u p w) = events w.
Proof. unfold saved_fail. now destruct (fails_path cfg). Qed.

Lemma counter_saved_fail u (p : list char) w : counter (saved_fail cfg u p w) = counter w.
Proof. unfold saved_fail. now destruct (fails_path cfg). Qed.

Lemma attempts_transient ci username password rem :
  forall i w,
    i + rem = max_retries ->
    (forall j, i <= j -> j < max_retries -> transient_at E depth proxies ci username password j) ->
    exists r w',
      attempts E depth proxies py_int cfg ci username password rem i w = (r, w')
      /\ hits (counter w') = hits (counter w)
      /\ bans (counter w') = bans (counter w)
      /\ invalid (counter w') = invalid (counter w)
      /\ ((r = Val tt
           /\ fails (counter w') = fails (counter w)
           /\ retries (counter w') = retries (counter w) + rem
           /\ (0 < rem -> proxies 99 = None))
          \/ (r = Sig Return /\ 0 < rem
              /\ fails (counter w') = S (fails (counter w))
              /\ retries (counter w') = retries (counter w) + (rem - 1)
              /\ exists px st msg c l,
                   proxies 99 = Some px
                   /\ classify ci (client_call ci E depth username password px c).1
                      = Transient st msg
                   /\ events w' = (l ++ [ EPrint st username password msg (url px);
                                          ESaveResult username password "fail" None "N/A"
                                        ])%list)).
Proof.
  induction rem as [|rem IH]; intros i w Hi Ht.
  { exists (Val tt), w. cbn. repeat split; auto. left. repeat split; auto; lia. }
  assert (Hcont : forall w1,
    attempt E depth proxies py_int cfg ci username password i w = (Sig Continue, w1) ->
    hits (counter w1) = hits (counter w) ->
    bans (counter w1) = bans (counter w) ->
    invalid (counter w1) = invalid (counter w) ->
    fails (counter w1) = fails (counter w) ->
    retries (counter w1) = S (retries (counter w)) ->
    (rem = 0 -> proxies 99 = None) ->
    exists r w',
      attempts E depth proxies py_int cfg ci username password (S rem) i w = (r, w')
      /\ hits (counter w') = hits (counter w)
      /\ bans (counter w') = bans (counter w)
      /\ invalid (counter w') = invalid (counter w)
      /\ ((r = Val tt
           /\ fails (counter w') = fails (counter w)
           /\ retries (counter w') = retries (counter w) + S rem
           /\ (0 < S rem -> proxies 99 = None))
          \/ (r = Sig Return /\ 0 < S rem
              /\ fails (counter w') = S (fails (counter w))
              /\ retries (counter w') = retries (counter w) + (S rem - 1)
              /\ exists px st msg c l,
                   proxies 99 = Some px
                   /\ classify ci (client_call ci E depth username password px c).1
                      = Transient st msg
                   /\ events w' = (l ++ [ EPrint st username password msg (url px);
                                          ESaveResult username password "fail" None "N/A"
                                        ])%list))).
  { intros w1 Ha Hh Hb Hv Hf Hr H99.
    destruct (IH (S i) w1) as (r & w' & Hrun & Hh' & Hb' & Hv' & Hcases).
    { lia. } { intros j Hj; apply Ht; lia. }
    exists r, w'. cbn [attempts]. rewrite Ha. split; [exact Hrun|].
    split; [congruence|]. split; [congruence|]. split; [congruence|].
    destruct Hcases as [(-> & Hf' & Hr' & Hp)|(-> & Hpos & Hf' & Hr' & Hex)].
    - left. split; [reflexivity|]. split; [congruence|]. split; [lia|].
      intros _. destruct rem; [auto | apply Hp; lia].
    - right. split; [reflexivity|]. split; [lia|]. split; [congruence|].
      split; [lia|]. exact Hex. }
  assert (Hlt : i < max_retries) by lia.
  specialize (Ht i (Nat.le_refl _) Hlt) as Hti. unfold transient_at in Hti.
  destruct (proxies i) as [px|] eqn:Hp.
  - destruct (Hti (client w)) as (st & msg & Hc).
    pose proof (attempt_transient ci username password i px w st msg Hp Hc) as Ha.
    cbn zeta in Ha.
    destruct (i <? max_retries - 1) eqn:Hlast.
    + eapply Hcont; [exact Ha | reflexivity..|].
      apply Nat.ltb_lt in Hlast. unfold max_retries in *. lia.
    + apply Nat.ltb_ge in Hlast. unfold max_retries in *.
      assert (i = 99) by lia. subst i. assert (rem = 0) by lia. subst rem.
      eexists _, _. cbn [attempts]. rewrite Ha. split; [reflexivity|].
      rewrite counter_saved_fail. cbn.
      repeat split. right. repeat split; try lia.
      exists px, st, msg, (client w), (events w ++ [EGetProxy 99])%list.
      split; [exact Hp|]. split; [exact Hc|].
      rewrite events_saved_fail. cbn. now rewrite <- app_assoc.
  - eapply Hcont; [now apply attempt_no_proxy | reflexivity..|].
    intros ->. unfold max_retries in Hi. assert (i = 99) by lia. now subst i.
Qed.
End Iterations.


(** ** A credential that only meets transient faults *)





(** ** Bans *)

Lemma exited_is_final {char} {PC : PyChar char} py_int cfg check_info thread_count
    code (p : Checker.pool (char := char)) q :
  ~ Checker.step py_int cfg check_info thread_count (Checker.Exited code p) q.
Proof. intros H. inversion H. Qed.

(** C6, as the code has it: when the error that the client reports for an
    attempt contains one of the ban markers of [check_account] for the mode
    in use, [handle_ban] counts one ban, reports it and ends the process
    with status 1; no result is saved, no hit is counted, and nothing runs
    after the exit, so no credential produces a hit from then on. *)
Theorem marked_error_is_a_ban
    {char} {PC : PyChar char} E depth proxies py_int cfg check_info
    username (password : list char) i px w err :
  proxies i = Some px ->
  classify check_info
    (client_call check_info E depth username password px (Checker.client w)).1
    = Banned err ->
  exists w',
    Checker.attempt E depth proxies py_int cfg check_info username password i w
      = (Sig (Exit 1), w')
    /\ Checker.bans (Checker.counter w') = S (Checker.bans (Checker.counter w))
    /\ Checker.hits (Checker.counter w') = Checker.hits (Checker.counter w)
    /\ Checker.events w' =
         (Checker.events w ++
          [ Checker.EGetProxy i;
            Checker.EPrint "BAN" username password (py_str err) (Checker.url px);
            Checker.EStopped (py_str err) ])%list
    /\ Checker.files w' = Checker.files w
    /\ forall thread_count p q,
         ~ Checker.step py_int cfg check_info thread_count (Checker.Exited 1 p) q.
Proof.
  intros Hp Hc.
  pose proof (attempt_banned E depth proxies py_int cfg check_info _ _ _ _ _ _ Hp Hc)
    as Ha. cbn zeta in Ha.
  eexists. split; [exact Ha|]. cbn.
  repeat split; auto.
  - now rewrite <- !app_assoc.
  - intros. apply exited_is_final.
Qed.

Lemma marked_error_witness :
  exists w',
    Checker.attempt
      (Examples.answering (Examples.json_response [("message", "Rate limit exceeded")]))
      0 Examples.always_proxy Examples.int_of Checker.DEFAULT_CONFIG false
      "bob@x.com" (AsciiChar.chars "Password1") 0 Examples.world0
      = (Sig (Exit 1), w')
    /\ Checker.bans (Checker.counter w') = 1
    /\ Checker.hits (Checker.counter w') = 0
    /\ Checker.events w' =
         [ Checker.EGetProxy 0;
           Checker.EPrint "BAN" "bob@x.com" (AsciiChar.chars "Password1")
             "Rate limit exceeded" "10.0.0.1:8080";
           Checker.EStopped "Rate limit exceeded" ].
Proof.
  destruct (marked_error_is_a_ban
              (Examples.answering
                 (Examples.json_response [("message", "Rate limit exceeded")]))
              0 Examples.always_proxy Examples.int_of Checker.DEFAULT_CONFIG false
              "bob@x.com" (AsciiChar.chars "Password1") 0 Examples.proxy0
              Examples.world0 (JStr "Rate limit exceeded"))
    as (w' & Hrun & Hb & Hh & Hev & _).
  - reflexivity.
  - vm_compute. reflexivity.
  - exists w'. repeat split; [exact Hrun | exact Hb | exact Hh | exact Hev].
Defined.

(** Against C6 as stated: the body "Rate limit exceeded" is not JSON and
    holds none of the client's ban keys, so the client reports a malformed
    response; the attempt is retried, the credential ends as a fail after a
    hundred attempts, no ban is counted and the process goes on. *)
Lemma rate_limit_body_is_retried :
  let E := Examples.answering (Examples.plain_response "Rate limit exceeded") in
  let first := Checker.attempt E 0 Examples.always_proxy Examples.int_of
                 Checker.DEFAULT_CONFIG false
                 "alice@x.com" (AsciiChar.chars "Password1") 0 Examples.world0 in
  let run := Checker.check_account E 0 Examples.always_proxy Examples.int_of
               Checker.DEFAULT_CONFIG
               ("alice@x.com", AsciiChar.chars "Password1") false Examples.world0 in
  first.1 = Sig Continue
  /\ Checker.bans (Checker.counter first.2) = 0
  /\ Checker.retries (Checker.counter first.2) = 1
  /\ run.1 = Val tt
  /\ Checker.bans (Checker.counter run.2) = 0
  /\ Checker.fails (Checker.counter run.2) = 1.
Proof. vm_compute. repeat split. Qed.

(** C1, as the code has it: a worker whose attempt is a ban ends the
    process at once with status 1.  The stop event is not set, the queue is
    not emptied and the other workers are not waited for: they are where
    they were when the process ended. *)
Theorem ban_ends_the_process_at_once
    {char} {PC : PyChar char} py_int cfg check_info thread_count
    (p : Checker.pool (char := char)) before wk rest E depth proxies px err :
  Checker.running p = (before ++ wk :: rest)%list ->
  proxies (Checker.w_retry_count wk) = Some px ->
  classify check_info
    (client_call check_info E depth (Checker.w_username wk) (Checker.w_password wk) px
       (Checker.client (Checker.shared p))).1 = Banned err ->
  exists p',
    Checker.step py_int cfg check_info thread_count
      (Checker.Running p) (Checker.Exited 1 p')
    /\ Checker.bans (Checker.counter (Checker.shared p'))
       = S (Checker.bans (Checker.counter (Checker.shared p)))
    /\ Checker.stop_event p' = Checker.stop_event p
    /\ Checker.queued p' = Checker.queued p
    /\ Checker.running p' = Checker.running p
    /\ forall q, ~ Checker.step py_int cfg check_info thread_count
                   (Checker.Exited 1 p') q.
Proof.
  intros Hr Hp Hc.
  pose proof (attempt_banned E depth proxies py_int cfg check_info _ _ _ _ _ _ Hp Hc)
    as Ha. cbn zeta in Ha.
  eexists. split; [eapply Checker.step_exit; [exact Hr | exact Ha]|].
  cbn. repeat split. intros q. apply exited_is_final.
Qed.

Lemma ban_ends_the_process_witness :
  exists p',
    Checker.step Examples.int_of Checker.DEFAULT_CONFIG false 2
      (Checker.Running Examples.two_workers) (Checker.Exited 1 p')
    /\ Checker.bans (Checker.counter (Checker.shared p')) = 1
    /\ Checker.stop_event p' = false
    /\ Checker.running p' = [Examples.bob; Examples.alice].
Proof.
  destruct (ban_ends_the_process_at_once Examples.int_of Checker.DEFAULT_CONFIG false 2
              Examples.two_workers [] Examples.bob [Examples.alice]
              (Examples.answering
                 (Examples.json_response [("message", "Rate limit exceeded")]))
              0 Examples.always_proxy Examples.proxy0 (JStr "Rate limit exceeded"))
    as (p' & Hstep & Hb & Hs & _ & Hr & _).
  - reflexivity.
  - reflexivity.
  - vm_compute. reflexivity.
  - exists p'. repeat split; [exact Hstep | exact Hb | exact Hs | exact Hr].
Defined.

(** Against C1 as stated: with two workers in their retry loops, a ban met
    by the first ends the process with status 1 in that very step, while
    the second is still in its loop with no outcome recorded for its
    credential, and the stop event was never set. *)
Lemma ban_does_not_wait_for_the_other_worker :
  exists p',
    Checker.step Examples.int_of Checker.DEFAULT_CONFIG false 2
      (Checker.Running Examples.two_workers) (Checker.Exited 1 p')
    /\ Checker.stop_event p' = false
    /\ In Examples.alice (Checker.running p')
    /\ Forall (fun ev => forall p rt ai px,
                 ev <> Checker.ESaveResult "alice@x.com" p rt ai px)
         (Checker.events (Checker.shared p')).
Proof.
  eexists. split.
  - eapply (Checker.step_exit _ _ _ _ Examples.two_workers [] Examples.bob
              [Examples.alice]
              (Examples.answering
                 (Examples.json_response [("message", "Rate limit exceeded")]))
              0 Examples.always_proxy); [reflexivity|].
    vm_compute. reflexivity.
  - cbn. split; [reflexivity|]. split; [auto|].
    repeat constructor; discriminate.
Qed.


(** ** Failover *)

Section Failover.
Import MTClient.
Context {char : Type}.
Variable E : env.

Lemma test_server_eq u (c : client_state char) :
  _test_server E u c = (Val (probe_ok (ping_at E (tick c) u)), interact (EPing u) c).
Proof. reflexivity. Qed.

(** Whatever [switch_to_first] does, the endpoint it leaves active is the
    one it found, or one that has just answered the probe. *)
Lemma switch_to_first_restores el cands : forall (c : client_state char) r c',
  switch_to_first E el cands c = (r, c') ->
  base_url c' = base_url c
  \/ exists t, probe_ok (ping_at E t (base_url c')) = true.
Proof.
  induction cands as [|s rest IH]; intros c r c' H.
  - injection H as <- <-. now left.
  - cbn [switch_to_first] in H. unfold bind at 1, get at 1 in H.
    destruct (el (base_url c) s); [|now apply IH in H].
    unfold bind at 1 in H. rewrite test_server_eq in H.
    destruct (probe_ok (ping_at E (tick c) s)) eqn:Hok.
    + unfold bind, _update_base_url, ret in H. cbn [tick interact] in H.
      destruct (config_ok_at E (S (tick c))); injection H as <- <-; cbn.
      * right. now exists (tick c).
      * now left.
    + apply IH in H. exact H.
Qed.

Lemma switch_server_restores (c : client_state char) r c' :
  _switch_server E c = (r, c') ->
  base_url c' = base_url c
  \/ exists t, probe_ok (ping_at E t (base_url c')) = true.
Proof.
  unfold _switch_server. unfold bind at 1, get at 1.
  unfold bind at 1. rewrite test_server_eq.
  destruct (probe_ok (ping_at E (tick c) (base_url c))).
  { intros [= <- <-]. now left. }
  unfold bind at 1.
  destruct (switch_to_first E not_current BACKUP_SERVERS (interact (EPing (base_url c)) c))
    as [[sw|e] c1] eqn:H1.
  - apply switch_to_first_restores in H1. cbn [base_url interact] in H1.
    destruct sw.
    + intros [= <- <-]. exact H1.
    + unfold bind at 1, _fetch_available_servers at 1.
      intros H2. apply switch_to_first_restores in H2. cbn [base_url interact] in H2.
      destruct H2 as [H2|H2]; [|now right].
      rewrite H2. exact H1.
  - intros H. injection H as <- <-.
    apply switch_to_first_restores in H1. exact H1.
Qed.

End Failover.

(** C8: when a call of the failover has restored an endpoint, that is, it
    returned [True] and the active endpoint is another one than before, and
    the servers answer the probe as they did, the next call probes the
    active endpoint, finds it healthy, and returns [False] without any
    other probe and without touching the active endpoint. *)
Theorem failover_is_idempotent {char} E (c c1 : MTClient.client_state char) :
  (forall t t' u, MTClient.ping_at E t u = MTClient.ping_at E t' u) ->
  MTClient._switch_server E c = (Val true, c1) ->
  MTClient.base_url c1 <> MTClient.base_url c ->
  MTClient._switch_server E c1
  = (Val false, MTClient.interact (MTClient.EPing (MTClient.base_url c1)) c1).
Proof.
  intros Hstable Hfirst Hchanged.
  destruct (switch_server_restores E c _ _ Hfirst) as [H|[t Ht]]; [congruence|].
  unfold MTClient._switch_server. unfold bind at 1, get at 1.
  unfold bind at 1. rewrite test_server_eq.
  rewrite (Hstable _ t), Ht. reflexivity.
Qed.

Lemma failover_is_idempotent_witness :
  let c1 : MTClient.client_state ascii :=
    {| MTClient.tick := 3;
       MTClient.base_url := "https://mtchk-sg.onrender.com";
       MTClient.net_log :=
         [ MTClient.EPing Examples.primary;
           MTClient.EPing "https://mtchk-sg.onrender.com";
           MTClient.EWriteConfig "https://mtchk-sg.onrender.com" ] |} in
  MTClient._switch_server (Examples.suspended_primary true) c1
  = (Val false,
     MTClient.interact (MTClient.EPing "https://mtchk-sg.onrender.com") c1).
Proof.
  apply (failover_is_idempotent (Examples.suspended_primary true) Examples.client0).
  - intros t t' u. reflexivity.
  - vm_compute. reflexivity.
  - discriminate.
Defined.

(** C7 fails on the code where config.json cannot be rewritten: the primary
    is suspended and the first backup answers the probe, the failover
    returns [True], and the active endpoint is still the suspended primary. *)
Theorem switch_is_reported_but_not_made :
  MTClient._switch_server (Examples.suspended_primary false) Examples.client0
  = (Val true,
     {| MTClient.tick := 3;
        MTClient.base_url := Examples.primary;
        MTClient.net_log :=
          [ MTClient.EPing Examples.primary;
            MTClient.EPing "https://mtchk-sg.onrender.com";
            MTClient.EWriteConfig "https://mtchk-sg.onrender.com" ] |}).
Proof. vm_compute. reflexivity. Qed.


(** ** How many attempts and requests a credential takes *)

Section Unreachable.
Import MTClient Checker AsciiChar Examples.

Lemma sort_desc_repeat s n : sort_desc (repeat s n) = repeat s n.
Proof.
  induction n as [|n IH]; [reflexivity|]. cbn [repeat sort_desc]. rewrite IH.
  destruct n; [reflexivity|]. cbn [repeat insert_desc].
  now rewrite (proj2 (Qle_bool_iff _ _) (Qle_refl _)).
Qed.

Lemma filter_repeat {A} (f : A -> bool) x n : f x = true -> List.filter f (repeat x n) = repeat x n.
Proof. intros H. induction n; cbn; [reflexivity|]. now rewrite H, IHn. Qed.

Lemma after_after evs evs' (c : client_state ascii) :
  after evs' (after evs c) = after (evs ++ evs') c.
Proof.
  unfold after. cbn. rewrite length_app, <- app_assoc. f_equal. lia.
Qed.

Lemma interact_after ev (c : client_state ascii) : interact ev c = after [ev] c.
Proof. unfold interact, after. cbn. f_equal. lia. Qed.

Lemma test_server_dead n u (c : client_state ascii) :
  _test_server (unreachable n) u c = (Val false, after [EPing u] c).
Proof. rewrite <- interact_after. reflexivity. Qed.

Lemma switch_to_first_dead n el cands (c : client_state ascii) :
  switch_to_first (unreachable n) el cands c
  = (Val false, after (map EPing (List.filter (el (base_url c)) cands)) c).
Proof.
  revert c. induction cands as [|s rest IH]; intros c.
  - cbn. unfold ret, after. destruct c; cbn. now rewrite Nat.add_0_r, app_nil_r.
  - cbn [switch_to_first List.filter]. unfold bind at 1, get at 1.
    destruct (el (base_url c) s); [|apply IH].
    unfold bind at 1. rewrite test_server_dead. rewrite IH.
    cbn [base_url after map]. now rewrite after_after.
Qed.

Lemma unreachable_switch n (c : client_state ascii) :
  base_url c = primary ->
  _switch_server (unreachable n) c
  = (Val false,
     after ([ EPing primary;
              EPing "https://mtchk-sg.onrender.com";
              EPing "https://mtchk-sg-bak.onrender.com";
              EPing "https://mtchk-m.onrender.com";
              EFetchStatus ] ++ repeat (EPing (name spare)) n) c).
Proof.
  intros Hb. unfold _switch_server. unfold bind at 1, get at 1.
  unfold bind at 1. rewrite test_server_dead.
  unfold bind at 1. rewrite switch_to_first_dead.
  unfold bind at 1, _fetch_available_servers at 1.
  cbn [status_at unreachable]. rewrite interact_after, switch_to_first_dead.
  rewrite !after_after. cbn [base_url after]. rewrite Hb.
  rewrite filter_repeat by reflexivity.
  rewrite sort_desc_repeat, map_repeat.
  rewrite filter_repeat by reflexivity. rewrite map_repeat.
  reflexivity.
Qed.

Lemma unreachable_run n :
  net_log (validate_account (unreachable n) 0 "alice@x.com" (chars "Password1") None client0).2
  = ([ EPost primary Validate "alice@x.com" (chars "Password1") None;
       EPing primary;
       EPing "https://mtchk-sg.onrender.com";
       EPing "https://mtchk-sg-bak.onrender.com";
       EPing "https://mtchk-m.onrender.com";
       EFetchStatus ] ++ repeat (EPing (name spare)) n)%list.
Proof.
  cbn [validate_account].
  change (_validate_password_format (chars "Password1"))
    with (true, chars "Password1", "").
  cbn [negb]. unfold try_except, bind at 1.
  change (_make_request_with_retry (unreachable n)
            (make_request (unreachable n) Validate "alice@x.com" (chars "Password1") None)
            client0)
    with (Val {| text := "<html>Bad gateway</html>"; json := None |},
          interact (EPost primary Validate "alice@x.com" (chars "Password1") None) client0).
  cbn [text json]. 
  change (first_key_in validate_ban_keys (Py.lower "<html>Bad gateway</html>")) with (@None string).
  change (Py.any_key_in validate_retry_keys (Py.lower "<html>Bad gateway</html>")) with false.
  cbn iota. unfold bind. rewrite unreachable_switch by reflexivity.
  reflexivity.
Qed.

End Unreachable.


(** ** The detailed-info mode *)

Section Detailed.
Import MTClient Checker AsciiChar Examples.




End Detailed.

(** ** Which exceptions leave the client *)


Section ThrowFacts.
Context {S : Type}.

Lemma throws_weaken {A} (P Q : signal -> Prop) (m : M S A) :
  throws P m -> (forall e, P e -> Q e) -> throws Q m.
Proof. intros H HPQ s e s' Hm. eauto. Qed.

Lemma throws_ret {A} P (a : A) : throws P (@ret S A a).
Proof. intros s e s' H. discriminate. Qed.

Lemma throws_get P : throws P (@get S).
Proof. intros s e s' H. discriminate. Qed.

Lemma throws_modify P (f : S -> S) : throws P (modify f).
Proof. intros s e s' H. discriminate. Qed.

Lemma throws_raise {A} (P : signal -> Prop) e : P e -> throws P (@raise S A e).
Proof. intros HP s e' s' [= <- <-]. exact HP. Qed.

Lemma throws_bind {A B} P (m : M S A) (k : A -> M S B) :
  throws P m -> (forall a, throws P (k a)) -> throws P (bind m k).
Proof.
  intros Hm Hk s e s'. unfold bind.
  destruct (m s) as [[a|e0] s0] eqn:Em.
  - apply Hk.
  - intros [= <- <-]. eapply Hm; eauto.
Qed.

Lemma throws_try_except {A} (P Q : signal -> Prop) (m : M S A) h :
  throws Q m ->
  (forall e, Q e -> match h e with Some k => throws P k | None => P e end) ->
  throws P (try_except m h).
Proof.
  intros Hm Hh s e s'. unfold try_except.
  destruct (m s) as [[a|e0] s0] eqn:Em; [discriminate|].
  specialize (Hh e0 (Hm _ _ _ Em)).
  destruct (h e0) as [k|].
  - apply Hh.
  - intros [= <- <-]. exact Hh.
Qed.

End ThrowFacts.

Section ClientThrows.
Import MTClient.
Context {char : Type} {PC : PyChar char}.
Variable E : env.

Lemma throws_test_server P u : throws P (_test_server (char := char) E u).
Proof. intros s e s' H. discriminate. Qed.

Lemma throws_update_base_url P u : throws P (_update_base_url (char := char) E u).
Proof.
  intros s e s'. unfold _update_base_url. destruct (config_ok_at E (tick s)); discriminate.
Qed.

Lemma throws_switch_to_first P el cands :
  throws P (switch_to_first (char := char) E el cands).
Proof.
  induction cands as [|s rest IH]; cbn [switch_to_first]; [apply throws_ret|].
  apply throws_bind; [apply throws_get | intros c].
  destruct (el (base_url c) s); [|exact IH].
  apply throws_bind; [apply throws_test_server | intros ok].
  destruct ok; [|exact IH].
  apply throws_bind; [apply throws_update_base_url | intros _; apply throws_ret].
Qed.

(** The failover never raises. *)
Lemma throws_switch_server P : throws P (_switch_server (char := char) E).
Proof.
  unfold _switch_server.
  apply throws_bind; [apply throws_get | intros c].
  apply throws_bind; [apply throws_test_server | intros ok].
  destruct ok; [apply throws_ret|].
  apply throws_bind; [apply throws_switch_to_first | intros sw].
  destruct sw; [apply throws_ret|].
  apply throws_bind; [intros s e s' H; discriminate | intros srv].
  apply throws_switch_to_first.
Qed.

Lemma throws_make_request api u (p : list char) px :
  throws is_python_exception (make_request E api u p px).
Proof.
  intros s e s'. unfold make_request.
  destruct (post_at E (tick s) (base_url s) api); intros [= <- <-].
  - exists msg. now left.
  - exists msg. now right.
Qed.

Lemma throws_request_once f mx a :
  throws is_python_exception f ->
  throws (fun e => is_python_exception e \/ e = Continue)
    (request_once (char := char) E f mx a).
Proof.
  intros Hf. unfold request_once.
  apply throws_bind; [eapply throws_weaken; [exact Hf | auto] | intros resp].
  destruct (Py.is_blank (text resp)).
  { destruct (a <? mx - 1).
    - apply throws_bind; [apply throws_modify | intros _; apply throws_raise; auto].
    - apply throws_raise. left. eexists. now left. }
  destruct (Py.contains _ _); [|apply throws_ret].
  apply throws_bind; [apply throws_switch_server | intros sw].
  destruct sw; apply throws_raise; auto. left. eexists. now left.
Qed.

Lemma throws_request_loop f mx rem le :
  throws is_python_exception f ->
  (forall e, le = Some e -> is_python_exception e) ->
  throws is_python_exception (request_loop (char := char) E f mx rem le).
Proof.
  intros Hf. revert le. induction rem as [|rem IH]; intros le Hle.
  { cbn. destruct le as [e|]; apply throws_raise; [auto|].
    eexists. now right. }
  intros s e s'. cbn [request_loop].
  pose proof (throws_request_once f mx (mx - S rem) Hf s) as Ho.
  destruct (request_once E f mx (mx - S rem) s) as [[resp|e0] s0]; [discriminate|].
  specialize (Ho e0 s0 eq_refl).
  destruct e0; try (destruct Ho as [[m [Hm|Hm]]|Hm]; discriminate).
  - match goal with |- context [if ?b then _ else _] => destruct b end.
    + match goal with |- context [if ?b then _ else _] => destruct b end.
      * unfold bind, MTClient.sleep, modify. apply IH.
        intros e1 [= <-]. eexists. now left.
      * apply IH. intros e1 [= <-]. eexists. now left.
    + intros [= <- <-]. eexists. now left.
  - intros [= <- <-]. eexists. now right.
  - apply IH. exact Hle.
Qed.

Lemma throws_validate_parsed j :
  throws (S := client_state char) is_python_exception (validate_parsed j).
Proof.
  unfold validate_parsed. destruct j as [d|]; [|apply throws_raise; eexists; now right].
  repeat match goal with
    | |- throws _ (ret _) => apply throws_ret
    | |- throws _ (raise _) => apply throws_raise; eexists; (now left) || (now right)
    | |- throws _ (if ?b then _ else _) => destruct b
    | |- throws _ (match ?x with _ => _ end) => destruct x
    end.
Qed.

Lemma throws_login_parsed j :
  throws (S := client_state char) is_python_exception (login_parsed j).
Proof.
  unfold login_parsed. destruct j as [d|]; [|apply throws_raise; eexists; now right].
  repeat match goal with
    | |- throws _ (ret _) => apply throws_ret
    | |- throws _ (raise _) => apply throws_raise; eexists; (now left) || (now right)
    | |- throws _ (if ?b then _ else _) => destruct b
    | |- throws _ (match ?x with _ => _ end) => destruct x
    end.
Qed.

Lemma throws_validate_account depth : forall u (p : list char) px,
  throws (fun _ => False) (validate_account E depth u p px).
Proof.
  induction depth as [|d IH]; intros u p px; cbn [validate_account];
    destruct (_validate_password_format p) as [[ok q] err];
    (destruct ok; cbn [negb]; [|apply throws_ret]);
    (apply (throws_try_except _ is_python_exception);
     [|intros e [msg [->| ->]]; cbn; apply throws_ret]);
    (apply throws_bind;
     [apply throws_request_loop; [apply throws_make_request | discriminate]|]);
    intros resp;
    (destruct (first_key_in _ _); [apply throws_ret|]);
    (destruct (Py.any_key_in _ _); [apply throws_ret|]);
    (destruct (json resp); [apply throws_validate_parsed|]);
    (apply throws_bind; [apply throws_switch_server | intros sw]);
    destruct sw; try (apply throws_raise; eexists; (now left) || (now right)).
  eapply throws_weaken; [apply IH | intros e []].
Qed.

Lemma throws_login depth : forall u (p : list char) px,
  throws is_request_exception (login E depth u p px).
Proof.
  induction depth as [|d IH]; intros u p px; cbn [login];
    destruct (_validate_password_format p) as [[ok q] err];
    (destruct ok; cbn [negb]; [|apply throws_ret]);
    (apply (throws_try_except _ is_python_exception);
     [|intros e [msg [->| ->]]; cbn; [now exists msg | apply throws_ret]]);
    (apply throws_bind;
     [apply throws_request_loop; [apply throws_make_request | discriminate]|]);
    intros resp;
    (destruct (first_key_in _ _); [apply throws_ret|]);
    (destruct (Py.any_key_in _ _); [apply throws_raise; eexists; now left|]);
    (destruct (json resp); [apply throws_login_parsed|]);
    (apply throws_bind; [apply throws_switch_server | intros sw]);
    destruct sw; try (apply throws_raise; eexists; (now left) || (now right)).
  eapply throws_weaken; [apply IH |]. intros e [msg ->]. exists msg. now left.
Qed.

End ClientThrows.

(** ** The client, call by call *)

Section ClientCalls.
Import MTClient.
Context {char : Type} {PC : PyChar char}.
Variable E : env.

(** X1: [validate_account] and [login] check the format of the password
    before anything else: for a password that fails the policy both return
    a failure carrying the policy's message and leave the client untouched,
    so nothing is sent. *)
Theorem client_checks_the_format_first depth u (p : list char) px c :
  (_validate_password_format p).1.1 = false ->
  validate_account E depth u p px c
    = (Val (failure (JStr (_validate_password_format p).2)), c)
  /\ login E depth u p px c
    = (Val (failure (JStr (_validate_password_format p).2)), c).
Proof.
  intros H. destruct depth; cbn [validate_account login];
    destruct (_validate_password_format p) as [[ok q] err]; cbn in *; subst ok;
    split; reflexivity.
Qed.

(** X2: [validate_account] never raises: whatever the network does, the
    caller gets an [MTResponse]. *)
Theorem validate_account_never_raises depth u (p : list char) px c :
  exists resp c', validate_account E depth u p px c = (Val resp, c').
Proof.
  pose proof (throws_validate_account E depth u p px c) as H.
  destruct (validate_account E depth u p px c) as [[resp|e] c'].
  - now exists resp, c'.
  - destruct (H e c' eq_refl).
Qed.

(** X3: [login] returns an [MTResponse] or raises a
    [requests.RequestException]; no other exception leaves it. *)
Theorem login_raises_request_exceptions_only depth u (p : list char) px c :
  (exists resp c', login E depth u p px c = (Val resp, c'))
  \/ (exists msg c', login E depth u p px c = (Sig (RequestException msg), c')).
Proof.
  pose proof (throws_login E depth u p px c) as H.
  destruct (login E depth u p px c) as [[resp|e] c'].
  - left. now exists resp, c'.
  - right. destruct (H e c' eq_refl) as [msg ->]. now exists msg, c'.
Qed.

(** X4: a [RequestException] whose text has none of the timeout and
    connection markers is raised again at once by [_make_request_with_retry]:
    the request function ran once and nothing else happened. *)
Theorem other_request_errors_are_not_retried
    (f : M (client_state char) response) c msg c' :
  f c = (Sig (RequestException msg), c') ->
  timeout_like msg = false ->
  _make_request_with_retry E f c = (Sig (RequestException msg), c').
Proof.
  intros Hf Ht. unfold _make_request_with_retry. cbn [request_loop].
  unfold request_once, bind. rewrite Hf. unfold timeout_like in Ht. now rewrite Ht.
Qed.

(** X5: when the three POSTs of [_make_request_with_retry] all end in a
    timeout or connection error, it sleeps a second after the first and after
    the second, posts three times in all to the same endpoint, and raises the
    error of the third. *)
Theorem timeouts_are_tried_three_times api u (p : list char) px c m1 m2 m3 :
  post_at E (tick c) (base_url c) api = RaisesRequestException m1 ->
  post_at E (S (tick c)) (base_url c) api = RaisesRequestException m2 ->
  post_at E (S (S (tick c))) (base_url c) api = RaisesRequestException m3 ->
  timeout_like m1 = true -> timeout_like m2 = true -> timeout_like m3 = true ->
  _make_request_with_retry E (make_request E api u p px) c
  = (Sig (RequestException m3),
     {| tick := S (S (S (tick c)));
        base_url := base_url c;
        net_log :=
          (net_log c ++
           [ EPost (base_url c) api u p (payload_proxy px); ESleep 1;
             EPost (base_url c) api u p (payload_proxy px); ESleep 1;
             EPost (base_url c) api u p (payload_proxy px) ])%list |}).
Proof.
  intros H1 H2 H3 T1 T2 T3. unfold timeout_like in *.
  unfold _make_request_with_retry. cbn [request_loop Nat.sub Nat.ltb Nat.leb].
  unfold request_once at 1, bind at 1, make_request at 1. rewrite H1, T1.
  unfold bind at 1, MTClient.sleep at 1, modify at 1.
  unfold request_once at 1, bind at 1, make_request at 1.
  cbn [tick base_url interact record]. rewrite H2, T2.
  unfold bind at 1, MTClient.sleep at 1, modify at 1.
  unfold request_once at 1, bind at 1, make_request at 1.
  cbn [tick base_url interact record]. rewrite H3, T3.
  unfold raise, interact, record. cbn [tick base_url net_log].
  now rewrite <- !app_assoc.
Qed.

(** X6: when each of the three attempts of [_make_request_with_retry]
    meets the suspended page and each failover reports a switch, the loop
    ends at [raise last_error] with no error recorded: what is raised is a
    [TypeError], not a [RequestException]. *)
Theorem three_switches_end_in_a_type_error
    (f : M (client_state char) response) c r1 c1 c2 r2 c3 c4 r3 c5 c6 :
  let suspended r :=
    Py.is_blank (text r) = false
    /\ Py.contains "This service has been suspended" (text r) = true in
  f c = (Val r1, c1) -> suspended r1 -> _switch_server E c1 = (Val true, c2) ->
  f c2 = (Val r2, c3) -> suspended r2 -> _switch_server E c3 = (Val true, c4) ->
  f c4 = (Val r3, c5) -> suspended r3 -> _switch_server E c5 = (Val true, c6) ->
  _make_request_with_retry E f c
  = (Sig (Exception "exceptions must derive from BaseException"), c6).
Proof.
  intros suspended F1 [B1 S1] W1 F2 [B2 S2] W2 F3 [B3 S3] W3.
  unfold _make_request_with_retry. cbn [request_loop].
  unfold request_once at 1, bind at 1. rewrite F1, B1, S1.
  unfold bind at 1. rewrite W1. unfold raise at 1.
  unfold request_once at 1, bind at 1. rewrite F2, B2, S2.
  unfold bind at 1. rewrite W2. unfold raise at 1.
  unfold request_once at 1, bind at 1. rewrite F3, B3, S3.
  unfold bind at 1. rewrite W3. reflexivity.
Qed.

Lemma find_first_key keys text k :
  In k keys -> Py.contains (Py.lower k) text = true ->
  exists key, In key keys /\ first_key_in keys text = Some key.
Proof.
  intros Hin Hc. unfold first_key_in.
  destruct (find (fun key => Py.contains (Py.lower key) text) keys) as [key|] eqn:Hf.
  - exists key. split; [|reflexivity]. now apply find_some in Hf.
  - eapply find_none in Hf; [|exact Hin]. cbn in Hf. congruence.
Qed.

(** X7: a ban key in the text of the response decides the result of
    [validate_account] whatever the body parses to: the result is a failure
    whose error is one of the client's ban keys, after a single POST. *)
Theorem ban_key_in_the_body_wins depth u (p q : list char) e px c resp k :
  _validate_password_format p = (true, q, e) ->
  post_at E (tick c) (base_url c) Validate = Responds resp ->
  Py.is_blank (text resp) = false ->
  Py.contains "This service has been suspended" (text resp) = false ->
  In k validate_ban_keys ->
  Py.contains (Py.lower k) (Py.lower (text resp)) = true ->
  exists key,
    In key validate_ban_keys
    /\ validate_account E depth u p px c
       = (Val (failure (JStr key)),
          interact (EPost (base_url c) Validate u q (payload_proxy px)) c).
Proof.
  intros Hf Hp Hb Hs Hin Hk.
  destruct (find_first_key _ _ _ Hin Hk) as (key & Hkey & Hfind).
  exists key. split; [exact Hkey|].
  destruct depth; cbn [validate_account]; rewrite Hf; cbn [negb];
    unfold try_except, bind, _make_request_with_retry; cbn [request_loop];
    unfold request_once, bind, make_request; rewrite Hp, Hb, Hs;
    unfold ret; cbn [text]; now rewrite Hfind.
Qed.

End ClientCalls.

Lemma client_checks_the_format_first_witness :
  MTClient.validate_account (Examples.answering Examples.pong) 0 "bob@x.com"
    (AsciiChar.chars "short") None Examples.client0
    = (Val (MTClient.failure (JStr "Password must be at least 6 characters long")),
       Examples.client0)
  /\ MTClient.login (Examples.answering Examples.pong) 0 "bob@x.com"
       (AsciiChar.chars "short") None Examples.client0
    = (Val (MTClient.failure (JStr "Password must be at least 6 characters long")),
       Examples.client0).
Proof.
  apply (client_checks_the_format_first (Examples.answering Examples.pong) 0
           "bob@x.com" (AsciiChar.chars "short") None Examples.client0).
  reflexivity.
Defined.

Lemma other_request_errors_witness :
  MTClient._make_request_with_retry (Examples.failing "SSL: CERTIFICATE_VERIFY_FAILED")
    (MTClient.make_request (Examples.failing "SSL: CERTIFICATE_VERIFY_FAILED")
       MTClient.Validate "alice@x.com" (AsciiChar.chars "Password1") None)
    Examples.client0
  = (Sig (RequestException "SSL: CERTIFICATE_VERIFY_FAILED"),
     MTClient.interact
       (MTClient.EPost Examples.primary MTClient.Validate "alice@x.com"
          (AsciiChar.chars "Password1") None) Examples.client0).
Proof.
  apply other_request_errors_are_not_retried; reflexivity.
Defined.

Lemma timeouts_witness :
  MTClient._make_request_with_retry (Examples.failing "Read timed out.")
    (MTClient.make_request (Examples.failing "Read timed out.")
       MTClient.Login "alice@x.com" (AsciiChar.chars "Password1") None)
    Examples.client0
  = (Sig (RequestException "Read timed out."),
     {| MTClient.tick := 3;
        MTClient.base_url := Examples.primary;
        MTClient.net_log :=
          [ MTClient.EPost Examples.primary MTClient.Login "alice@x.com"
              (AsciiChar.chars "Password1") None;
            MTClient.ESleep 1;
            MTClient.EPost Examples.primary MTClient.Login "alice@x.com"
              (AsciiChar.chars "Password1") None;
            MTClient.ESleep 1;
            MTClient.EPost Examples.primary MTClient.Login "alice@x.com"
              (AsciiChar.chars "Password1") None ] |}).
Proof.
  apply (timeouts_are_tried_three_times (Examples.failing "Read timed out.")
           MTClient.Login "alice@x.com" (AsciiChar.chars "Password1") None
           Examples.client0 "Read timed out." "Read timed out." "Read timed out.");
    reflexivity.
Defined.

Lemma three_switches_witness :
  exists c6,
    MTClient._make_request_with_retry (Examples.suspended_primary false)
      (MTClient.make_request (Examples.suspended_primary false)
         MTClient.Validate "alice@x.com" (AsciiChar.chars "Password1") None)
      Examples.client0
    = (Sig (Exception "exceptions must derive from BaseException"), c6)
    /\ MTClient.base_url c6 = Examples.primary.
Proof.
  eexists. split.
  - eapply (three_switches_end_in_a_type_error (Examples.suspended_primary false)
              (MTClient.make_request (Examples.suspended_primary false)
                 MTClient.Validate "alice@x.com" (AsciiChar.chars "Password1") None)
              Examples.client0).
    + vm_compute. reflexivity.
    + split; reflexivity.
    + vm_compute. reflexivity.
    + vm_compute. reflexivity.
    + split; reflexivity.
    + vm_compute. reflexivity.
    + vm_compute. reflexivity.
    + split; reflexivity.
    + vm_compute. reflexivity.
  - reflexivity.
Defined.

Lemma ban_key_witness :
  exists key,
    In key MTClient.validate_ban_keys
    /\ MTClient.validate_account
         (Examples.answering (MTClient.Responds Examples.success_with_ban_key)) 0
         "alice@x.com" (AsciiChar.chars "Password1") None Examples.client0
       = (Val (MTClient.failure (JStr key)),
          MTClient.interact
            (MTClient.EPost Examples.primary MTClient.Validate "alice@x.com"
               (AsciiChar.chars "Password1") None) Examples.client0).
Proof.
  apply (ban_key_in_the_body_wins
           (Examples.answering (MTClient.Responds Examples.success_with_ban_key)) 0
           "alice@x.com" (AsciiChar.chars "Password1") (AsciiChar.chars "Password1")
           "" None Examples.client0 Examples.success_with_ban_key "Invalid API key").
  - reflexivity.
  - reflexivity.
  - reflexivity.
  - reflexivity.
  - cbn. auto.
  - reflexivity.
Defined.

(** ** The ranking of the status service's servers *)

Section Ranking.
Import MTClient.

Lemma insert_desc_perm x l : Permutation (insert_desc x l) (x :: l).
Proof.
  induction l as [|y r IH]; cbn; [reflexivity|].
  destruct (Qle_bool _ _); [reflexivity|].
  rewrite IH. apply perm_swap.
Qed.

Lemma sort_desc_perm l : Permutation (sort_desc l) l.
Proof.
  induction l as [|x r IH]; cbn; [reflexivity|].
  rewrite insert_desc_perm. now constructor.
Qed.

Lemma insert_desc_sorted x l :
  StronglySorted by_uptime_desc l -> StronglySorted by_uptime_desc (insert_desc x l).
Proof.
  induction 1 as [|y r Hr IH Hy]; cbn.
  - repeat constructor.
  - destruct (Qle_bool (uptime_percentage y) (uptime_percentage x)) eqn:Hle.
    + apply Qle_bool_iff in Hle.
      constructor; [now constructor|].
      constructor; [exact Hle|].
      eapply List.Forall_impl; [|exact Hy].
      intros z Hz. unfold by_uptime_desc in *. now apply Qle_trans with (uptime_percentage y).
    + constructor; [exact IH|].
      assert (Hlt : (uptime_percentage x < uptime_percentage y)%Q).
      { apply Qnot_le_lt. intros H. apply Qle_bool_iff in H. congruence. }
      eapply Permutation_Forall; [symmetry; apply insert_desc_perm|].
      constructor; [now apply Qlt_le_weak|exact Hy].
Qed.

Lemma sort_desc_sorted l : StronglySorted by_uptime_desc (sort_desc l).
Proof.
  induction l; cbn; [constructor|now apply insert_desc_sorted].
Qed.

Lemma insert_desc_same_uptime q x l :
  List.filter (same_uptime q) (insert_desc x l)
  = List.filter (same_uptime q) (x :: l).
Proof.
  induction l as [|y r IH]; [reflexivity|].
  cbn [insert_desc].
  destruct (Qle_bool (uptime_percentage y) (uptime_percentage x)) eqn:Hle;
    [reflexivity|].
  cbn [List.filter] in *. rewrite IH.
  destruct (same_uptime q x) eqn:Hx; [|reflexivity].
  destruct (same_uptime q y) eqn:Hy; [|reflexivity].
  exfalso. unfold same_uptime in *.
  apply Qeq_bool_iff in Hx, Hy.
  assert (H : Qle_bool (uptime_percentage y) (uptime_percentage x) = true).
  { apply Qle_bool_iff. rewrite Hx, Hy. apply Qle_refl. }
  congruence.
Qed.

Lemma sort_desc_same_uptime q l :
  List.filter (same_uptime q) (sort_desc l) = List.filter (same_uptime q) l.
Proof.
  induction l as [|x r IH]; [reflexivity|].
  cbn [sort_desc]. rewrite insert_desc_same_uptime. cbn [List.filter].
  now rewrite IH.
Qed.

End Ranking.

(** X8: what [_fetch_available_servers] returns when the status service
    answers: the servers of positive uptime, all of them and no other, in
    descending order of uptime, servers of equal uptime in the order of the
    status service. *)
Theorem fetch_ranks_the_live_servers {char} E
    (c : MTClient.client_state char) servers :
  MTClient.status_at E (MTClient.tick c) = Some servers ->
  exists ranked,
    MTClient._fetch_available_servers E c
    = (Val ranked, MTClient.interact MTClient.EFetchStatus c)
    /\ Permutation ranked (List.filter live servers)
    /\ StronglySorted by_uptime_desc ranked
    /\ forall q, List.filter (same_uptime q) ranked
                 = List.filter (same_uptime q) (List.filter live servers).
Proof.
  intros H. eexists. split.
  - unfold MTClient._fetch_available_servers. rewrite H. reflexivity.
  - split; [apply sort_desc_perm|].
    split; [apply sort_desc_sorted|].
    intros q. apply sort_desc_same_uptime.
Qed.

(** ** What a failover leaves behind *)

Section FailoverShape.
Import MTClient.
Context {char : Type}.
Variable E : env.

Abbreviation quiet := (Forall (fun ev : net_event char => is_write ev = false)).

Lemma after_app evs evs' (c : client_state char) :
  after evs' (after evs c) = after (evs ++ evs') c.
Proof.
  unfold after. cbn. rewrite length_app, <- app_assoc. f_equal. lia.
Qed.

Lemma interact_is_after ev (c : client_state char) : interact ev c = after [ev] c.
Proof. unfold interact, after. cbn. f_equal. lia. Qed.

Lemma after_nil (c : client_state char) : after [] c = c.
Proof. destruct c. unfold after. cbn. rewrite app_nil_r. f_equal. lia. Qed.

Lemma switch_to_first_cons el s rest (c : client_state char) :
  switch_to_first E el (s :: rest) c
  = if el (base_url c) s then
      if probe_ok (ping_at E (tick c) s) then
        (Val true,
         if config_ok_at E (S (tick c))
         then set_base_url s (interact (EWriteConfig s) (interact (EPing s) c))
         else interact (EWriteConfig s) (interact (EPing s) c))
      else switch_to_first E el rest (interact (EPing s) c)
    else switch_to_first E el rest c.
Proof.
  cbn [switch_to_first]. unfold bind at 1, get at 1.
  destruct (el (base_url c) s); [|reflexivity].
  unfold bind at 1. rewrite test_server_eq.
  destruct (probe_ok (ping_at E (tick c) s)); [|reflexivity].
  unfold bind, _update_base_url, ret. cbn [tick interact].
  now destruct (config_ok_at E (S (tick c))).
Qed.

Lemma switch_server_eq (c : client_state char) :
  _switch_server E c
  = if probe_ok (ping_at E (tick c) (base_url c))
    then (Val false, interact (EPing (base_url c)) c)
    else
      match switch_to_first E not_current BACKUP_SERVERS
              (interact (EPing (base_url c)) c) with
      | (Val true, c1) => (Val true, c1)
      | (Val false, c1) =>
          switch_to_first E not_current_nor_backup
            (map name
               match status_at E (tick c1) with
               | Some servers => sort_desc (List.filter live servers)
               | None => []
               end)
            (interact EFetchStatus c1)
      | (Sig e, c1) => (Sig e, c1)
      end.
Proof.
  unfold _switch_server. unfold bind at 1, get at 1.
  unfold bind at 1. rewrite test_server_eq.
  destruct (probe_ok (ping_at E (tick c) (base_url c))); [reflexivity|].
  unfold bind at 1.
  destruct (switch_to_first E not_current BACKUP_SERVERS _) as [[[|]|e] c1];
    reflexivity.
Qed.

Lemma outcome_after l (c0 : client_state char) b c' :
  quiet l -> outcome E (after l c0) b c' -> outcome E c0 b c'.
Proof.
  intros Hl H. destruct H as [l'|l' s Hl' Hs Hp].
  - rewrite after_app. constructor. now apply Forall_app.
  - cbn [after tick base_url] in *.
    rewrite after_app, app_assoc.
    replace (tick c0 + length l + length l' + 1)
      with (tick c0 + length (l ++ l') + 1) by (rewrite length_app; lia).
    constructor; [now apply Forall_app|exact Hs|].
    rewrite length_app. now rewrite Nat.add_assoc.
Qed.

Lemma switch_to_first_outcome el cands :
  (forall base s, el base s = true -> s <> base) ->
  forall c : client_state char,
  exists b c', switch_to_first E el cands c = (Val b, c') /\ outcome E c b c'.
Proof.
  intros Hel. induction cands as [|s rest IH]; intros c.
  - exists false, c. split; [reflexivity|].
    rewrite <- (after_nil c) at 2. now constructor.
  - rewrite switch_to_first_cons.
    destruct (el (base_url c) s) eqn:Hs; [|apply IH].
    destruct (probe_ok (ping_at E (tick c) s)) eqn:Hok.
    + pose proof (switched E c [] s (List.Forall_nil _) (Hel _ _ Hs)) as H.
      cbn [length app] in H. rewrite !Nat.add_0_r in H.
      specialize (H Hok).
      replace (tick c + 1) with (S (tick c)) in H by lia.
      destruct (config_ok_at E (S (tick c))); eexists true, _;
        (split; [reflexivity|]).
      * replace (set_base_url s (interact (EWriteConfig s) (interact (EPing s) c)))
          with (set_base_url s (after [EPing s; EWriteConfig s] c)); [exact H|].
        unfold set_base_url, interact, after. cbn. f_equal; [lia|].
        now rewrite <- app_assoc.
      * replace (interact (EWriteConfig s) (interact (EPing s) c))
          with (set_base_url (base_url c) (after [EPing s; EWriteConfig s] c)); [exact H|].
        unfold set_base_url, interact, after. cbn. f_equal; [lia|].
        now rewrite <- app_assoc.
    + destruct (IH (interact (EPing s) c)) as (b & c' & Hrun & Hout).
      exists b, c'. split; [exact Hrun|].
      rewrite interact_is_after in Hout.
      apply (outcome_after [EPing s]); [|exact Hout].
      now repeat constructor.
Qed.

Lemma not_current_differs base s : not_current base s = true -> s <> base.
Proof.
  unfold not_current. intros H ->. now rewrite String.eqb_refl in H.
Qed.

Lemma not_current_nor_backup_differs base s :
  not_current_nor_backup base s = true -> s <> base.
Proof.
  unfold not_current_nor_backup. intros H ->. now rewrite String.eqb_refl in H.
Qed.

Lemma switch_server_outcome (c : client_state char) :
  exists b c', _switch_server E c = (Val b, c') /\ outcome E c b c'.
Proof.
  unfold _switch_server. unfold bind at 1, get at 1.
  unfold bind at 1. rewrite test_server_eq.
  destruct (probe_ok (ping_at E (tick c) (base_url c))).
  { exists false, (interact (EPing (base_url c)) c). split; [reflexivity|].
    rewrite interact_is_after. constructor. now repeat constructor. }
  unfold bind at 1.
  destruct (switch_to_first_outcome not_current BACKUP_SERVERS not_current_differs
              (interact (EPing (base_url c)) c)) as (b & c1 & Hrun & Hout).
  rewrite Hrun.
  rewrite interact_is_after in Hout.
  apply (outcome_after [EPing (base_url c)]) in Hout; [|now repeat constructor].
  destruct b.
  { exists true, c1. split; [reflexivity|exact Hout]. }
  unfold bind at 1, _fetch_available_servers at 1.
  match goal with |- context [switch_to_first E ?el ?l ?c2] =>
    destruct (switch_to_first_outcome el l not_current_nor_backup_differs c2)
      as (b & c3 & Hrun2 & Hout2)
  end.
  exists b, c3. split; [exact Hrun2|].
  inversion Hout as [l Hl Hb Hc1|]; subst.
  rewrite interact_is_after, after_app in Hout2.
  apply (outcome_after (l ++ [EFetchStatus])); [|exact Hout2].
  apply Forall_app. split; [exact Hl|now repeat constructor].
Qed.

End FailoverShape.


(** ** The order in which servers are tried *)

Section FailoverPlan.
Import MTClient.
Context {char : Type}.
Variable E : env.
Variable ping : string -> http_result.
Variable status : option (list server).
Hypothesis ping_stable : forall t u, ping_at E t u = ping u.
Hypothesis status_stable : forall t, status_at E t = status.
Hypothesis config_writable : forall t, config_ok_at E t = true.

Lemma switch_to_first_plan el cands : forall c : client_state char,
  match find (fun s => probe_ok (ping s)) (List.filter (el (base_url c)) cands) with
  | Some s => exists c', switch_to_first E el cands c = (Val true, c')
                         /\ base_url c' = s
  | None => exists c', switch_to_first E el cands c = (Val false, c')
                       /\ base_url c' = base_url c
  end.
Proof.
  induction cands as [|s rest IH]; intros c.
  - cbn. now exists c.
  - rewrite switch_to_first_cons.
    change (List.filter (el (base_url c)) (s :: rest))
      with (if el (base_url c) s then s :: List.filter (el (base_url c)) rest
            else List.filter (el (base_url c)) rest).
    destruct (el (base_url c) s) eqn:Hs; [|apply IH].
    cbn [find]. rewrite ping_stable.
    destruct (probe_ok (ping s)) eqn:Hok.
    + rewrite config_writable. eexists. split; reflexivity.
    + specialize (IH (interact (EPing s) c)). cbn [base_url interact] in IH.
      exact IH.
Qed.

Lemma find_in_app {A} (f : A -> bool) l1 l2 :
  find f (l1 ++ l2)
  = match find f l1 with Some x => Some x | None => find f l2 end.
Proof.
  induction l1 as [|x l1 IH]; [reflexivity|]. cbn. now destruct (f x).
Qed.

Lemma switch_server_plan (c : client_state char) :
  probe_ok (ping (base_url c)) = false ->
  match find (fun s => probe_ok (ping s)) (failover_plan (base_url c) status) with
  | Some s => exists c', _switch_server E c = (Val true, c') /\ base_url c' = s
  | None => exists c', _switch_server E c = (Val false, c')
                       /\ base_url c' = base_url c
  end.
Proof.
  intros Hdead.
  rewrite switch_server_eq, ping_stable, Hdead.
  pose proof (switch_to_first_plan not_current BACKUP_SERVERS
                (interact (EPing (base_url c)) c)) as H1.
  cbn [base_url interact] in H1.
  unfold failover_plan. rewrite find_in_app.
  destruct (find _ (List.filter (not_current (base_url c)) BACKUP_SERVERS)) as [s|].
  - destruct H1 as (c' & -> & Hb). now exists c'.
  - destruct H1 as (c1 & -> & Hb).
    rewrite status_stable.
    pose proof (switch_to_first_plan not_current_nor_backup
                  (map name match status with
                            | Some servers => sort_desc (List.filter live servers)
                            | None => []
                            end)
                  (interact EFetchStatus c1)) as H2.
    cbn [base_url interact] in H2. rewrite Hb in H2.
    destruct (find _ (List.filter (not_current_nor_backup (base_url c)) _)) as [s|].
    + exact H2.
    + destruct H2 as (c' & Hrun & Hb'). exists c'. split; [exact Hrun|congruence].
Qed.

End FailoverPlan.


Lemma fetch_ranks_witness :
  exists ranked,
    MTClient._fetch_available_servers Examples.backups_down Examples.client0
    = (Val ranked, MTClient.interact MTClient.EFetchStatus Examples.client0)
    /\ Permutation ranked (List.filter live Examples.listed)
    /\ StronglySorted by_uptime_desc ranked
    /\ forall q, List.filter (same_uptime q) ranked
                 = List.filter (same_uptime q) (List.filter live Examples.listed).
Proof.
  apply (fetch_ranks_the_live_servers Examples.backups_down Examples.client0 Examples.listed).
  reflexivity.
Defined.




(** ** How a credential ends *)

Section WorldThrows.
Import MTClient Checker.
Context {char : Type} {PC : PyChar char}.
Variables (E : env) (depth : nat) (proxies : nat -> option proxy_data).
Variable py_int : jval -> Z + string.
Variable cfg : config.

Lemma throws_call {A} P (m : M (client_state char) A) :
  throws P m -> throws P (call m).
Proof.
  intros H w e w'. unfold call.
  destruct (m (client w)) as [r c'] eqn:Em. intros [= -> <-]. eapply H; eauto.
Qed.

Ltac thrw known :=
  repeat first
    [ known
    | apply throws_ret | apply throws_modify | apply throws_get
    | apply throws_bind; [|intros ?]
    | progress unfold counter_increment, print_result, time_sleep ].
Ltac thr := thrw fail.

Lemma throws_email_of info : throws is_python_exception (email_of (char := char) info).
Proof.
  unfold email_of.
  destruct (default (JStr "") (info !! "bind_email")); try apply throws_ret;
    (destruct (py_bool _); [apply throws_raise; eexists; right; reflexivity
                           |apply throws_ret]).
Qed.

Lemma throws_format info :
  throws is_python_exception (format_account_info (char := char) info).
Proof. unfold format_account_info. thr. apply throws_email_of. Qed.

Lemma throws_save_hit_details sp u (p : list char) info px :
  throws is_python_exception (save_hit_details py_int sp u p info px).
Proof.
  unfold save_hit_details. apply throws_bind.
  - destruct (is_banned info); [|apply throws_ret].
    destruct (String.eqb _ _); [apply throws_ret|].
    thr. apply throws_email_of.
  - intros _. destruct (info !! "level") as [v|]; [|apply throws_ret].
    destruct (py_int v) as [z|msg].
    + destruct (_ !! level_key z) as [f|]; [|apply throws_ret].
      destruct (String.eqb f ""); thr.
    + apply throws_raise. eexists; right; reflexivity.
Qed.

Lemma throws_save_result u (p : list char) rt ai px :
  throws is_python_exception (save_result py_int cfg u p rt ai px).
Proof.
  unfold save_result. thr.
  destruct (save_path cfg) as [sp|]; [|apply throws_ret].
  destruct (_ && _); [apply throws_ret|].
  destruct (String.eqb _ ""); [apply throws_ret|]. thr.
  destruct ai as [info|]; [|apply throws_ret].
  destruct (_ && _); [apply throws_save_hit_details|apply throws_ret].
Qed.

(** Saving without account info cannot fail. *)
Lemma throws_save_plain P u (p : list char) rt px :
  throws P (save_result py_int cfg u p rt None px).
Proof.
  unfold save_result. thr.
  destruct (save_path cfg) as [sp|]; [|apply throws_ret].
  destruct (_ && _); [apply throws_ret|].
  destruct (String.eqb _ ""); [apply throws_ret|]. thr.
Qed.

Lemma throws_retry_later P : P Continue -> throws P (retry_later (char := char)).
Proof. intros H. unfold retry_later. thr. now apply throws_raise. Qed.

Lemma throws_fail_with P st u (p : list char) msg px :
  P Return -> throws P (fail_with py_int cfg st u p msg px).
Proof.
  intros H. unfold fail_with. thrw ltac:(apply throws_save_plain).
  now apply throws_raise.
Qed.

Lemma throws_handle_ban P u (p : list char) e px :
  P (Exit 1) -> throws P (handle_ban u p e px).
Proof. intros H. unfold handle_ban. thr. now apply throws_raise. Qed.

Lemma throws_report_login_hit u (p : list char) resp px :
  throws inside (report_login_hit py_int cfg u p resp px).
Proof.
  unfold report_login_hit.
  apply throws_bind;
    [destruct (match account_info resp with Some _ => _ | None => _ end); thr|].
  intros _. apply throws_bind; [thr|]. intros _.
  apply throws_bind.
  { eapply throws_weaken; [|intros e He; right; exact He].
    destruct (account_info resp) as [info|]; [|apply throws_ret].
    destruct (bool_decide _); [apply throws_ret|apply throws_format]. }
  intros message. apply throws_bind; [thr|]. intros _.
  apply throws_bind.
  { eapply throws_weaken; [apply throws_save_result|]. intros e He; right; exact He. }
  intros _. apply throws_raise. left. right. now left.
Qed.

Lemma inside_continue : inside Continue.
Proof. left. now left. Qed.
Lemma inside_return : inside Return.
Proof. left. right. now left. Qed.
Lemma inside_exit : inside (Exit 1).
Proof. left. right. now right. Qed.
Hint Resolve inside_continue inside_return inside_exit : core.

Lemma throws_guarded_call i u (p : list char) px
    (m : M (client_state char) MTResponse) :
  throws is_request_exception m ->
  throws inside (try_except (call m) (on_request_exception py_int cfg i u p px)).
Proof.
  intros Hm.
  apply throws_try_except with (Q := is_request_exception).
  - now apply throws_call.
  - intros e [msg ->]. cbn [on_request_exception].
    destruct (i <? max_retries - 1).
    + apply throws_bind; [now apply throws_retry_later|].
      intros _. now apply throws_raise.
    + apply throws_bind; [now apply throws_fail_with|].
      intros _. now apply throws_raise.
Qed.

Lemma throws_failed_response (ban retry : bool) i u (p : list char) err msg px :
  throws inside
    ((if ban then handle_ban u p err px else ret tt) ;;;
     (if retry then (if i <? max_retries - 1 then retry_later else ret tt)
      else ret tt) ;;;
     fail_with py_int cfg "FAIL" u p msg px).
Proof.
  apply throws_bind.
  { destruct ban; [now apply throws_handle_ban|apply throws_ret]. }
  intros _. apply throws_bind.
  { destruct retry; [|apply throws_ret].
    destruct (i <? max_retries - 1); [now apply throws_retry_later|apply throws_ret]. }
  intros _. now apply throws_fail_with.
Qed.

Lemma throws_login_directly i u (p : list char) px :
  throws inside (login_directly E depth py_int cfg i u p px).
Proof.
  unfold login_directly. apply throws_bind.
  { apply throws_guarded_call.
    eapply throws_weaken; [apply throws_login|]. auto. }
  intros resp. destruct (negb (success resp)).
  - apply throws_failed_response.
  - apply throws_report_login_hit.
Qed.

Lemma throws_login_after_validate u (p : list char) px :
  throws leaves_iteration (login_after_validate E depth py_int cfg u p px).
Proof.
  unfold login_after_validate.
  apply throws_try_except with (Q := inside).
  - apply throws_bind.
    { apply throws_call. eapply throws_weaken; [apply throws_login|].
      intros e [msg ->]. right. exists msg. now left. }
    intros resp. destruct (negb (success resp)).
    + apply throws_bind.
      { destruct (marked _ _); [now apply throws_handle_ban|apply throws_ret]. }
      intros _. now apply throws_fail_with.
    + apply throws_report_login_hit.
  - intros e [He|[msg [->| ->]]]; cbn [is_exception].
    + destruct He as [->|[->| ->]]; cbn; unfold leaves_iteration; auto.
    + apply throws_fail_with. unfold leaves_iteration; auto.
    + apply throws_fail_with. unfold leaves_iteration; auto.
Qed.

Lemma throws_validate_then ci i u (p : list char) px :
  throws inside (validate_then E depth py_int cfg ci i u p px).
Proof.
  unfold validate_then. apply throws_bind.
  { apply throws_guarded_call.
    eapply throws_weaken; [apply throws_validate_account|]. intros e []. }
  intros resp. destruct (negb (success resp)).
  - apply throws_failed_response.
  - destruct ci.
    + eapply throws_weaken; [apply throws_login_after_validate|]. now left.
    + thrw ltac:(apply throws_save_plain). now apply throws_raise.
Qed.

Lemma throws_attempt ci u (p : list char) i :
  throws leaves_iteration (attempt E depth proxies py_int cfg ci u p i).
Proof.
  unfold attempt. apply throws_bind.
  { unfold try_with_new_proxy. thr. }
  intros [px|]; [|apply throws_retry_later; now left].
  apply throws_try_except with (Q := inside).
  - apply throws_bind; [|intros _; apply throws_validate_then].
    destruct ci; [apply throws_login_directly|apply throws_ret].
  - intros e [He|[msg [->| ->]]]; cbn [is_exception].
    + destruct He as [->|[->| ->]]; cbn; unfold leaves_iteration; auto.
    + destruct (i <? max_retries - 1);
        [apply throws_retry_later|apply throws_fail_with];
        unfold leaves_iteration; auto.
    + destruct (i <? max_retries - 1);
        [apply throws_retry_later|apply throws_fail_with];
        unfold leaves_iteration; auto.
Qed.

Lemma throws_attempts ci u (p : list char) rem : forall i,
  throws (fun e => e = Return \/ e = Exit 1)
    (attempts E depth proxies py_int cfg ci u p rem i).
Proof.
  induction rem as [|rem IH]; intros i; [apply throws_ret|].
  intros w e w'. cbn [attempts].
  destruct (attempt E depth proxies py_int cfg ci u p i w) as [[[]|e0] w1] eqn:Ea.
  - apply IH.
  - apply throws_attempt in Ea.
    destruct Ea as [->|[->| ->]].
    + apply IH.
    + intros [= <- <-]. now left.
    + intros [= <- <-]. now right.
Qed.

Lemma throws_check_account combo ci :
  throws (fun e => e = Exit 1)
    (check_account E depth proxies py_int cfg combo ci).
Proof.
  destruct combo as [u p]. unfold check_account.
  destruct (_validate_password_format p) as [[ok q] err].
  unfold returning.
  apply throws_try_except with (Q := fun e => e = Return \/ e = Exit 1).
  - destruct (negb ok).
    + unfold reject. thrw ltac:(apply throws_save_plain).
      apply throws_raise. now left.
    + apply throws_bind; [apply throws_attempts|].
      intros _. unfold exhausted. thrw ltac:(apply throws_save_plain).
  - intros e [->| ->]; cbn; [apply throws_ret|reflexivity].
Qed.

End WorldThrows.

(** X12: [check_account] ends in one of two ways, whatever the network,
    the proxy source and the account data are: it returns, or it ends the
    process with status 1.  No exception leaves it.  (Creating, opening and
    writing the result files is taken to succeed.) *)
Theorem check_account_returns_or_exits {char} {PC : PyChar char}
    E depth proxies py_int cfg combo check_info (w : Checker.world char) :
  exists w',
    Checker.check_account E depth proxies py_int cfg combo check_info w = (Val tt, w')
    \/ Checker.check_account E depth proxies py_int cfg combo check_info w
       = (Sig (Exit 1), w').
Proof.
  destruct (Checker.check_account E depth proxies py_int cfg combo check_info w)
    as [[[]|e] w'] eqn:Hrun.
  - exists w'. now left.
  - apply throws_check_account in Hrun. subst e. exists w'. now right.
Qed.

(** ** The counters without detailed info *)

Section BasicMode.
Import MTClient Checker.
Context {char : Type} {PC : PyChar char}.
Variables (E : env) (depth : nat) (proxies : nat -> option proxy_data).
Variable py_int : jval -> Z + string.
Variable cfg : config.

Lemma save_plain_run u (p : list char) rt px w :
  exists w', save_result py_int cfg u p rt None px w = (Val tt, w')
             /\ counter w' = counter w /\ client w' = client w.
Proof.
  unfold save_result, bind, modify, ret. cbn [emit].
  destruct (save_path cfg) as [sp|]; [|eexists; repeat split].
  destruct (_ && _); [eexists; repeat split|].
  destruct (String.eqb _ ""); eexists; repeat split.
Qed.

Lemma retry_later_run (w : world char) :
  retry_later w
  = (Sig Continue,
     emit (Checker.ESleep 1) (set_counter (increment "retry" (counter w)) w)).
Proof. reflexivity. Qed.

Lemma fail_with_run st u (p : list char) msg px w :
  exists w', fail_with py_int cfg st u p msg px w = (Sig Return, w')
             /\ counter w' = increment "fail" (counter w).
Proof.
  unfold fail_with. unfold bind at 1, counter_increment at 1, modify at 1.
  unfold bind at 1, print_result at 1, modify at 1.
  unfold bind at 1.
  match goal with |- context [save_result _ _ _ _ _ _ _ ?w1] =>
    destruct (save_plain_run u p "fail" "N/A" w1) as (w' & -> & Hc & _)
  end.
  exists w'. split; [reflexivity|]. rewrite Hc. reflexivity.
Qed.

Lemma handle_ban_run u (p : list char) err px (w : world char) :
  exists w', handle_ban u p err px w = (Sig (Exit 1), w')
             /\ counter w' = increment "ban" (counter w).
Proof. eexists. split; reflexivity. Qed.

Lemma settles_retry k : settles Continue k (increment "retry" k).
Proof. destruct k. cbn. auto. Qed.

Lemma settles_fail k : settles Return k (increment "fail" k).
Proof. destruct k. unfold settles, outcomes. cbn. split; [lia|reflexivity]. Qed.

Lemma settles_hit k : settles Return k (increment "hit" k).
Proof. destruct k. unfold settles, outcomes. cbn. split; [lia|reflexivity]. Qed.

Lemma settles_ban k : settles (Exit 1) k (increment "ban" k).
Proof. destruct k. unfold settles, outcomes. cbn. auto. Qed.

Lemma validate_then_basic i u (p : list char) px w :
  exists e w', validate_then E depth py_int cfg false i u p px w = (Sig e, w')
               /\ settles e (counter w) (counter w').
Proof.
  unfold validate_then. unfold bind at 1, try_except at 1, call at 1.
  destruct (validate_account E depth u p (Some (ProxyDict (proxy_dict px))) (client w))
    as [[resp|e] c'] eqn:Ecall;
    [|now apply throws_validate_account in Ecall].
  destruct (negb (success resp)).
  - unfold bind at 1.
    destruct (marked validate_ban_markers (error resp)).
    { destruct (handle_ban_run u p (error resp) (url px) (set_client c' w))
        as (w' & -> & Hc).
      exists (Exit 1), w'. split; [reflexivity|]. rewrite Hc. apply settles_ban. }
    unfold ret at 1. unfold bind at 1.
    destruct (marked validate_retry_markers (error resp)).
    + destruct (i <? max_retries - 1).
      * rewrite retry_later_run. eexists _, _. split; [reflexivity|].
        apply settles_retry.
      * unfold ret at 1.
        destruct (fail_with_run "FAIL" u p (py_str (error resp)) (url px)
                    (set_client c' w)) as (w' & -> & Hc).
        exists Return, w'. split; [reflexivity|]. rewrite Hc. apply settles_fail.
    + unfold ret at 1.
      destruct (fail_with_run "FAIL" u p (py_str (error resp)) (url px)
                  (set_client c' w)) as (w' & -> & Hc).
      exists Return, w'. split; [reflexivity|]. rewrite Hc. apply settles_fail.
  - unfold bind at 1, counter_increment at 1, modify at 1.
    unfold bind at 1, print_result at 1, modify at 1.
    unfold bind at 1.
    match goal with |- context [save_result _ _ _ _ _ _ _ ?w1] =>
      destruct (save_plain_run u p "hit" (url px) w1) as (w' & -> & Hc & _)
    end.
    exists Return, w'. split; [reflexivity|]. rewrite Hc. apply settles_hit.
Qed.

Lemma attempt_basic u (p : list char) i w :
  exists e w', attempt E depth proxies py_int cfg false u p i w = (Sig e, w')
               /\ settles e (counter w) (counter w').
Proof.
  unfold attempt, try_with_new_proxy. unfold bind at 1. unfold bind at 1.
  unfold modify at 1, ret at 1.
  destruct (proxies i) as [px|].
  - unfold try_except at 1, bind at 1, ret at 1.
    destruct (validate_then_basic i u p px (emit (EGetProxy i) w))
      as (e & w' & -> & Hs).
    cbn [counter emit] in Hs.
    destruct e; cbn [settles] in Hs; try contradiction; cbn [is_exception].
    + eexists _, _. split; [reflexivity|exact Hs].
    + eexists _, _. split; [reflexivity|exact Hs].
    + eexists _, _. split; [reflexivity|exact Hs].
  - rewrite retry_later_run. eexists _, _. split; [reflexivity|].
    apply settles_retry.
Qed.

Lemma attempts_basic u (p : list char) rem : forall i w,
  (exists w', attempts E depth proxies py_int cfg false u p rem i w = (Val tt, w')
              /\ outcomes (counter w') = outcomes (counter w)
              /\ bans (counter w') = bans (counter w))
  \/ (exists e w', attempts E depth proxies py_int cfg false u p rem i w = (Sig e, w')
                   /\ (e = Return \/ e = Exit 1)
                   /\ settles e (counter w) (counter w')).
Proof.
  induction rem as [|rem IH]; intros i w.
  - left. exists w. now repeat split.
  - cbn [attempts].
    destruct (attempt_basic u p i w) as (e & w1 & -> & Hs).
    destruct e; cbn [settles] in Hs; try contradiction.
    + destruct Hs as [Ho Hb].
      destruct (IH (S i) w1) as [(w' & -> & Ho' & Hb')|(e & w' & -> & He & Hs')].
      * left. exists w'. split; [reflexivity|]. split; congruence.
      * right. exists e, w'. split; [reflexivity|]. split; [exact He|].
        destruct He as [->| ->]; cbn [settles] in *;
          rewrite <- Ho, <- Hb; exact Hs'.
    + right. eexists _, _. split; [reflexivity|]. split; [now left|exact Hs].
    + right. destruct Hs as [-> Hs]. eexists _, _. split; [reflexivity|].
      split; [now right|]. cbn. auto.
Qed.

Lemma exhausted_run u (p : list char) w :
  exists w', exhausted py_int cfg u p w = (Val tt, w')
             /\ counter w' = increment "fail" (counter w).
Proof.
  unfold exhausted. unfold bind at 1, counter_increment at 1, modify at 1.
  unfold bind at 1, print_result at 1, modify at 1.
  match goal with |- context [save_result _ _ _ _ _ _ _ ?w1] =>
    destruct (save_plain_run u p "fail" "N/A" w1) as (w' & -> & Hc & _)
  end.
  exists w'. split; [reflexivity|]. rewrite Hc. reflexivity.
Qed.

Lemma reject_run u (p : list char) msg w :
  exists w', reject py_int cfg u p msg w = (Sig Return, w')
             /\ counter w' = increment "invalid" (counter w).
Proof.
  unfold reject. unfold bind at 1, counter_increment at 1, modify at 1.
  unfold bind at 1, print_result at 1, modify at 1.
  unfold bind at 1.
  match goal with |- context [save_result _ _ _ _ _ _ _ ?w1] =>
    destruct (save_plain_run u p "fail" "N/A" w1) as (w' & -> & Hc & _)
  end.
  exists w'. split; [reflexivity|]. rewrite Hc. reflexivity.
Qed.

End BasicMode.

(** X13: without detailed info every credential is counted once.  When
    [check_account] returns, exactly one of the counters of hits, fails and
    invalid passwords has gone up by one and the ban counter is as it was;
    otherwise the process ends with status 1 and only the ban counter has
    gone up, by one.  Retries are counted apart.  (Creating, opening and
    writing the result files is taken to succeed.) *)
Theorem basic_mode_counts_each_credential_once {char} {PC : PyChar char}
    E depth proxies py_int cfg combo (w : Checker.world char) :
  exists r w',
    Checker.check_account E depth proxies py_int cfg combo false w = (r, w')
    /\ ((r = Val tt
         /\ outcomes (Checker.counter w') = S (outcomes (Checker.counter w))
         /\ Checker.bans (Checker.counter w') = Checker.bans (Checker.counter w))
        \/ (r = Sig (Exit 1)
            /\ outcomes (Checker.counter w') = outcomes (Checker.counter w)
            /\ Checker.bans (Checker.counter w')
               = S (Checker.bans (Checker.counter w)))).
Proof.
  destruct combo as [u p]. unfold Checker.check_account.
  destruct (MTClient._validate_password_format p) as [[ok q] err].
  unfold Checker.returning, try_except.
  destruct ok; cbn [negb].
  - unfold bind at 1.
    destruct (attempts_basic E depth proxies py_int cfg u q Checker.max_retries 0 w)
      as [(w1 & -> & Ho & Hb)|(e & w1 & -> & He & Hs)].
    + destruct (exhausted_run py_int cfg u q w1) as (w' & -> & Hc).
      exists (Val tt), w'. split; [reflexivity|]. left.
      pose proof (settles_fail (Checker.counter w1)) as [H1 H2].
      rewrite Hc. split; [reflexivity|]. split; congruence.
    + destruct He as [->| ->]; cbn [settles] in Hs.
      * eexists _, _. split; [reflexivity|]. left. now split.
      * eexists _, _. split; [reflexivity|]. right. now split.
  - destruct (reject_run py_int cfg u p err w) as (w' & -> & Hc).
    eexists _, _. split; [reflexivity|]. left. split; [reflexivity|].
    rewrite Hc. destruct (Checker.counter w). unfold outcomes. cbn. split; [lia|reflexivity].
Qed.

(** X14: without detailed info [check_account] never logs in: every
    request that the credential posts goes to /validate. *)
Theorem basic_mode_never_logs_in
    {char} {PC : PyChar char} E depth proxies py_int cfg username
    (password : list char) w :
  exists l,
    MTClient.net_log
      (Checker.client
         (Checker.check_account E depth proxies py_int cfg (username, password)
            false w).2)
    = (MTClient.net_log (Checker.client w) ++ l)%list
    /\ Forall (fun ev => forall base api u q px,
                 ev = MTClient.EPost base api u q px -> api = MTClient.Validate) l.
Proof.
  destruct (requests_cost_check_account login_posts 1 0 (fun _ => True)
              E depth proxies py_int cfg username password false)
    with (s := w) as (l & El & Hl); auto.
  { now intros [ | | | | ]. }
  exists l. split; [exact El|].
  replace (Checker.max_retries * (S depth * (3 * 0))) with 0 in Hl by lia.
  apply total_zero_Forall in Hl.
  eapply List.Forall_impl; [|exact Hl]. cbn.
  intros ev Hev base api u q px ->. now destruct api.
Qed.

(** ** What is kept whatever happens *)

Section KeepFacts.
Context {S : Type} (R : S -> S -> Prop).
Hypothesis R_refl : forall s, R s s.
Hypothesis R_trans : forall s1 s2 s3, R s1 s2 -> R s2 s3 -> R s1 s3.

Lemma keeps_ret {A} (a : A) : keeps R (ret a).
Proof using R_refl. intros s. apply R_refl. Qed.

Lemma keeps_raise {A} e : keeps R (@raise S A e).
Proof using R_refl. intros s. apply R_refl. Qed.

Lemma keeps_get : keeps R (@get S).
Proof using R_refl. intros s. apply R_refl. Qed.

Lemma keeps_modify (f : S -> S) : (forall s, R s (f s)) -> keeps R (modify f).
Proof. intros H s. apply H. Qed.

Lemma keeps_bind {A B} (m : M S A) (k : A -> M S B) :
  keeps R m -> (forall a, keeps R (k a)) -> keeps R (bind m k).
Proof using R_trans.
  intros Hm Hk s. unfold bind. specialize (Hm s).
  destruct (m s) as [[a|e] s1]; cbn in *; [|exact Hm].
  eapply R_trans; [exact Hm|apply Hk].
Qed.

Lemma keeps_try_except {A} (m : M S A) h :
  keeps R m -> (forall e k, h e = Some k -> keeps R k) -> keeps R (try_except m h).
Proof using R_trans.
  intros Hm Hh s. unfold try_except. specialize (Hm s).
  destruct (m s) as [[a|e] s1]; cbn in *; [exact Hm|].
  destruct (h e) as [k|] eqn:Eh; [|exact Hm].
  eapply R_trans; [exact Hm|]. now apply (Hh e k).
Qed.

End KeepFacts.

Section WorldKeeps.
Import MTClient Checker.
Context {char : Type} {PC : PyChar char}.
Variables (E : env) (depth : nat) (proxies : nat -> option proxy_data).
Variable py_int : jval -> Z + string.
Variable cfg : config.
Variables (username : string) (password : list char).
Variable R : world char -> world char -> Prop.
Hypothesis R_refl : forall w, R w w.
Hypothesis R_trans : forall w1 w2 w3, R w1 w2 -> R w2 w3 -> R w1 w3.
Hypothesis R_counter : forall rt w, R w (set_counter (increment rt (counter w)) w).
Hypothesis R_emit : forall ev w, R w (emit ev w).
Hypothesis R_client : forall c w, R w (set_client c w).
Hypothesis R_append : forall path rest w,
  configured cfg path ->
  R w (append_line path
         {| l_username := username; l_password := password; l_rest := rest |} w).

Abbreviation wkeeps := (keeps R).

Ltac kpw known :=
  repeat first
    [ known
    | apply keeps_ret; assumption | apply keeps_raise; assumption
    | apply keeps_get; assumption
    | apply keeps_modify; first [apply R_counter | apply R_emit]
    | apply keeps_bind; [assumption| |intros ?]
    | progress unfold counter_increment, print_result, time_sleep ].
Ltac kp := kpw fail.

Lemma keeps_call {A} (m : M (client_state char) A) : wkeeps (call m).
Proof using R_client.
  intros w. unfold call. destruct (m (client w)) as [r c']. apply R_client.
Qed.

Lemma keeps_email_of info : wkeeps (email_of info).
Proof using R_refl.
  unfold email_of.
  destruct (default (JStr "") (info !! "bind_email")); try (now apply keeps_ret);
    (destruct (py_bool _); [now apply keeps_raise|now apply keeps_ret]).
Qed.

Lemma keeps_format info : wkeeps (format_account_info info).
Proof using R_refl R_trans. unfold format_account_info. kpw ltac:(apply keeps_email_of). Qed.

Lemma keeps_save_hit_details sp info px :
  save_path cfg = Some sp ->
  wkeeps (save_hit_details py_int sp username password info px).
Proof using R_refl R_trans R_append.
  intros Hsp. unfold save_hit_details. apply keeps_bind; [assumption| |].
  - destruct (is_banned info); [|now apply keeps_ret].
    destruct (entries sp !! "banned") as [banned_path|] eqn:Eb; cbn [default from_option id].
    + destruct (String.eqb banned_path ""); [now apply keeps_ret|].
      apply keeps_bind; [assumption|apply keeps_email_of|]. intros email.
      apply keeps_modify. intros w. apply R_append.
      exists sp. split; [exact Hsp|]. left. now exists "banned".
    + cbn. now apply keeps_ret.
  - intros _. destruct (info !! "level") as [v|]; [|now apply keeps_ret].
    destruct (py_int v) as [z|msg]; [|now apply keeps_raise].
    destruct (levels sp) as [lv|] eqn:El; cbn [default from_option id].
    + destruct (lv !! level_key z) as [f|] eqn:Ef; [|now apply keeps_ret].
      destruct (String.eqb f ""); [now apply keeps_ret|].
      apply keeps_modify. intros w. apply R_append.
      exists sp. split; [exact Hsp|]. right. now exists lv, (level_key z).
    + rewrite lookup_empty. now apply keeps_ret.
Qed.

Lemma keeps_save_result rt ai px :
  wkeeps (save_result py_int cfg username password rt ai px).
Proof using R_refl R_trans R_append R_emit.
  unfold save_result. apply keeps_bind; [assumption| |].
  { apply keeps_modify. intros w. apply R_emit. }
  intros _. destruct (save_path cfg) as [sp|] eqn:Hsp; [|now apply keeps_ret].
  destruct (_ && _); [now apply keeps_ret|].
  destruct (entries sp !! (rt ++ "s")) as [path|] eqn:Ep; cbn [default from_option id];
    [|cbn; now apply keeps_ret].
  destruct (String.eqb path ""); [now apply keeps_ret|].
  apply keeps_bind; [assumption| |].
  { apply keeps_modify. intros w. apply R_append.
    exists sp. split; [exact Hsp|]. left. now exists (rt ++ "s"). }
  intros _. destruct ai as [info|]; [|now apply keeps_ret].
  destruct (_ && _); [now apply keeps_save_hit_details|now apply keeps_ret].
Qed.

Ltac known :=
  first [ apply keeps_save_result | apply keeps_format | apply keeps_call ].

Lemma keeps_retry_later : wkeeps retry_later.
Proof using R_refl R_trans R_counter R_emit. unfold retry_later. kp. Qed.

Lemma keeps_fail_with st msg px :
  wkeeps (fail_with py_int cfg st username password msg px).
Proof using R_refl R_trans R_counter R_emit R_append.
  unfold fail_with. kpw known.
Qed.

Lemma keeps_handle_ban err px : wkeeps (handle_ban username password err px).
Proof using R_refl R_trans R_counter R_emit. unfold handle_ban. kp. Qed.

Lemma keeps_report_login_hit resp px :
  wkeeps (report_login_hit py_int cfg username password resp px).
Proof using R_refl R_trans R_counter R_emit R_append.
  unfold report_login_hit.
  apply keeps_bind; [assumption| |intros _].
  { destruct (match account_info resp with Some _ => _ | None => _ end); kp. }
  apply keeps_bind; [assumption|kp|intros _].
  apply keeps_bind; [assumption| |intros message].
  { destruct (account_info resp) as [info|]; [|now apply keeps_ret].
    destruct (bool_decide _); [now apply keeps_ret|apply keeps_format]. }
  kpw known.
Qed.

Lemma keeps_guarded_call i px (m : M (client_state char) MTResponse) :
  wkeeps (try_except (call m)
            (on_request_exception py_int cfg i username password px)).
Proof using R_refl R_trans R_counter R_emit R_append R_client.
  apply keeps_try_except; [assumption|apply keeps_call|].
  intros e k. destruct e; cbn [on_request_exception]; try discriminate.
  intros [= <-].
  match goal with |- context [if ?b then _ else _] => destruct b end.
  - apply keeps_bind; [assumption|apply keeps_retry_later|].
    intros _. now apply keeps_raise.
  - apply keeps_bind; [assumption|apply keeps_fail_with|].
    intros _. now apply keeps_raise.
Qed.

Lemma keeps_failed_response (ban retry : bool) i err msg px :
  wkeeps
    ((if ban then handle_ban username password err px else ret tt) ;;;
     (if retry then (if i <? max_retries - 1 then retry_later else ret tt)
      else ret tt) ;;;
     fail_with py_int cfg "FAIL" username password msg px).
Proof using R_refl R_trans R_counter R_emit R_append.
  apply keeps_bind; [assumption| |intros _].
  { destruct ban; [apply keeps_handle_ban|now apply keeps_ret]. }
  apply keeps_bind; [assumption| |intros _].
  { destruct retry; [|now apply keeps_ret].
    destruct (i <? max_retries - 1); [apply keeps_retry_later|now apply keeps_ret]. }
  apply keeps_fail_with.
Qed.

Lemma keeps_login_directly i px :
  wkeeps (login_directly E depth py_int cfg i username password px).
Proof using R_refl R_trans R_counter R_emit R_append R_client.
  unfold login_directly. apply keeps_bind; [assumption|apply keeps_guarded_call|].
  intros resp. destruct (negb (success resp)).
  - apply keeps_failed_response.
  - apply keeps_report_login_hit.
Qed.

Lemma keeps_login_after_validate px :
  wkeeps (login_after_validate E depth py_int cfg username password px).
Proof using R_refl R_trans R_counter R_emit R_append R_client.
  unfold login_after_validate. apply keeps_try_except; [assumption| |].
  - apply keeps_bind; [assumption|apply keeps_call|]. intros resp.
    destruct (negb (success resp)).
    + apply keeps_bind; [assumption| |intros _; apply keeps_fail_with].
      destruct (marked _ _); [apply keeps_handle_ban|now apply keeps_ret].
    + apply keeps_report_login_hit.
  - intros e k. destruct (is_exception e); [|discriminate].
    intros [= <-]. apply keeps_fail_with.
Qed.

Lemma keeps_validate_then (ci : bool) i px :
  wkeeps (validate_then E depth py_int cfg ci i username password px).
Proof using R_refl R_trans R_counter R_emit R_append R_client.
  unfold validate_then. apply keeps_bind; [assumption|apply keeps_guarded_call|].
  intros resp. destruct (negb (success resp)).
  - apply keeps_failed_response.
  - destruct ci; [apply keeps_login_after_validate|]. kpw known.
Qed.

Lemma keeps_attempt (ci : bool) i :
  wkeeps (attempt E depth proxies py_int cfg ci username password i).
Proof using R_refl R_trans R_counter R_emit R_append R_client.
  unfold attempt. apply keeps_bind; [assumption| |].
  { unfold try_with_new_proxy. kp. }
  intros [px|]; [|apply keeps_retry_later].
  apply keeps_try_except; [assumption| |].
  - apply keeps_bind; [assumption| |intros _; apply keeps_validate_then].
    destruct ci; [apply keeps_login_directly|now apply keeps_ret].
  - intros e k. destruct (is_exception e); [|discriminate].
    intros [= <-].
    match goal with |- context [if ?b then _ else _] => destruct b end;
      [apply keeps_retry_later|apply keeps_fail_with].
Qed.

Lemma keeps_attempts (ci : bool) rem : forall i,
  wkeeps (attempts E depth proxies py_int cfg ci username password rem i).
Proof using R_refl R_trans R_counter R_emit R_append R_client.
  induction rem as [|rem IH]; intros i; [now apply keeps_ret|].
  intros w. cbn [attempts].
  pose proof (keeps_attempt ci i w) as Ha.
  destruct (attempt E depth proxies py_int cfg ci username password i w)
    as [[[]|e] w1]; cbn [snd] in Ha.
  - eapply R_trans; [exact Ha|apply IH].
  - destruct e; try exact Ha. eapply R_trans; [exact Ha|apply IH].
Qed.

Lemma keeps_exhausted : wkeeps (exhausted py_int cfg username password).
Proof using R_refl R_trans R_counter R_emit R_append.
  unfold exhausted. kpw known.
Qed.

Lemma keeps_reject msg : wkeeps (reject py_int cfg username password msg).
Proof using R_refl R_trans R_counter R_emit R_append.
  unfold reject. kpw known.
Qed.

Lemma keeps_returning m : wkeeps m -> wkeeps (returning m).
Proof using R_refl R_trans.
  intros H. apply keeps_try_except; [assumption|exact H|].
  intros e k. destruct e; try discriminate. intros [= <-]. now apply keeps_ret.
Qed.

End WorldKeeps.

Section AddedResults.
Import MTClient Checker.
Context {char : Type} {PC : PyChar char}.
Variable cfg : config.
Variable username : string.
Variable passwords : list (list char).

Lemma counted_up_refl k : counted_up k k.
Proof. unfold counted_up. lia. Qed.

Lemma counted_up_increment rt k : counted_up k (increment rt k).
Proof.
  unfold increment, counted_up.
  repeat (destruct (String.eqb rt _); [cbn; lia|]). lia.
Qed.

Lemma added_refl (w : world char) : added_results cfg username passwords w w.
Proof.
  split; [apply counted_up_refl|]. intros path. exists [].
  rewrite app_nil_r. repeat split; [constructor|congruence].
Qed.

Lemma added_same_files (w w' : world char) :
  files w' = files w -> counted_up (counter w) (counter w') ->
  added_results cfg username passwords w w'.
Proof.
  intros Hf Hc. split; [exact Hc|]. intros path. exists [].
  rewrite Hf, app_nil_r. repeat split; [constructor|congruence].
Qed.

Lemma added_trans (w1 w2 w3 : world char) :
  added_results cfg username passwords w1 w2 ->
  added_results cfg username passwords w2 w3 ->
  added_results cfg username passwords w1 w3.
Proof.
  intros [Hc1 Hf1] [Hc2 Hf2]. split; [unfold counted_up in *; lia|].
  intros path. destruct (Hf1 path) as (l1 & E1 & P1 & C1).
  destruct (Hf2 path) as (l2 & E2 & P2 & C2).
  exists (l1 ++ l2)%list. rewrite E2, E1, app_assoc.
  split; [reflexivity|]. split; [now apply Forall_app|].
  intros Hne. destruct l1 as [|a l1]; [apply C2; now destruct l2|].
  apply C1. discriminate.
Qed.

Lemma added_append path password rest (w : world char) :
  In password passwords -> configured cfg path ->
  added_results cfg username passwords w
    (append_line path
       {| l_username := username; l_password := password; l_rest := rest |} w).
Proof.
  intros Hp Hc. split; [apply counted_up_refl|].
  intros path'. unfold append_line. cbn [files].
  destruct (decide (path' = path)) as [->|Hne].
  - eexists. rewrite lookup_insert_eq. cbn [default from_option id].
    split; [reflexivity|]. split; [|auto].
    repeat constructor. exact Hp.
  - exists []. rewrite lookup_insert_ne by congruence. rewrite app_nil_r.
    repeat split; [constructor|congruence].
Qed.

Lemma added_check_account_with password (m : M (world char) unit) :
  In password passwords ->
  (forall R : world char -> world char -> Prop,
     (forall w, R w w) ->
     (forall w1 w2 w3, R w1 w2 -> R w2 w3 -> R w1 w3) ->
     (forall rt w, R w (set_counter (increment rt (counter w)) w)) ->
     (forall ev w, R w (emit ev w)) ->
     (forall c w, R w (set_client c w)) ->
     (forall path rest w, configured cfg path ->
        R w (append_line path
               {| l_username := username; l_password := password;
                  l_rest := rest |} w)) ->
     keeps R m) ->
  keeps (added_results cfg username passwords) m.
Proof.
  intros Hp H. apply H.
  - apply added_refl.
  - apply added_trans.
  - intros rt w. apply added_same_files; [reflexivity|apply counted_up_increment].
  - intros ev w. apply added_same_files; [reflexivity|apply counted_up_refl].
  - intros c w. apply added_same_files; [reflexivity|apply counted_up_refl].
  - intros path rest w Hc. now apply added_append.
Qed.

End AddedResults.

(** X15: what [check_account] leaves in the result files and counters,
    however it ends: no counter has gone down, every file has its old
    content followed by lines of this credential, with the password as given
    or as the format check modified it, and only files named in
    [config["save_path"]] have grown.  (Creating, opening and writing the
    result files is taken to succeed.) *)
Theorem results_are_only_added {char} {PC : PyChar char}
    E depth proxies py_int cfg username (password : list char) check_info
    (w : Checker.world char) :
  added_results cfg username
    [password; (MTClient._validate_password_format password).1.2] w
    (Checker.check_account E depth proxies py_int cfg (username, password)
       check_info w).2.
Proof.
  unfold Checker.check_account.
  destruct (MTClient._validate_password_format password) as [[ok q] err].
  cbn [fst snd]. destruct ok; cbn [negb].
  - apply (added_check_account_with cfg username [password; q] q); [cbn; auto|].
    intros R H1 H2 H3 H4 H5 H6. apply keeps_returning; auto.
    apply keeps_bind; auto.
    + apply keeps_attempts; auto.
    + intros _. apply keeps_exhausted; auto.
  - apply (added_check_account_with cfg username [password; q] password);
      [cbn; auto|].
    intros R H1 H2 H3 H4 H5 H6. apply keeps_returning; auto.
    apply keeps_reject; auto.
Qed.

(** ** A hit that cannot be filed *)

Section UnreadableLevel.
Import MTClient Checker.
Context {char : Type} {PC : PyChar char}.
Variables (E : env) (depth : nat) (proxies : nat -> option proxy_data).
Variable py_int : jval -> Z + string.
Variable cfg : config.
Variables (sp : save_paths) (path : string).
Variables (info : gmap string jval) (v : jval) (msg email : string).
Hypothesis Hsp : save_path cfg = Some sp.
Hypothesis Hpath : entries sp !! "hits" = Some path.
Hypothesis Hne : path <> "".
Hypothesis Hlevel : info !! "level" = Some v.
Hypothesis Hint : py_int v = inr msg.
Hypothesis Hban : is_banned info = false.
Hypothesis Hemail : default (JStr "") (info !! "bind_email") = JStr email.

Lemma info_not_empty : bool_decide (info = ∅) = false.
Proof using Hlevel.
  apply bool_decide_eq_false_2. intros H. pose proof Hlevel as HL.
  rewrite H, lookup_empty in HL. discriminate.
Qed.

Lemma save_hit_details_unreadable u (p : list char) px w :
  save_hit_details py_int sp u p info px w = (Sig (Exception msg), w).
Proof using Hlevel Hint Hban.
  unfold save_hit_details. rewrite Hban, Hlevel, Hint. reflexivity.
Qed.

Lemma save_result_unreadable u (p : list char) px w :
  save_result py_int cfg u p "hit" (Some info) px w
  = (Sig (Exception msg),
     append_line path {| l_username := u; l_password := p; l_rest := "" |}
       (emit (ESaveResult u p "hit" (Some info) px) w)).
Proof using Hsp Hpath Hne Hlevel Hint Hban.
  unfold save_result. unfold bind at 1, modify at 1. rewrite Hsp.
  assert (He : bool_decide (entries sp = ∅) = false).
  { apply bool_decide_eq_false_2. intros H. rewrite H, lookup_empty in Hpath.
    discriminate. }
  rewrite He. cbn [andb].
  change ("hit" ++ "s") with "hits". rewrite Hpath. cbn [default from_option id].
  apply String.eqb_neq in Hne. rewrite Hne.
  unfold bind at 1, modify at 1.
  rewrite info_not_empty. cbn [String.eqb Ascii.eqb Bool.eqb andb negb].
  apply save_hit_details_unreadable.
Qed.

Lemma report_login_hit_unreadable u (p : list char) resp px w :
  account_info resp = Some info ->
  exists message,
    report_login_hit py_int cfg u p resp px w
    = (Sig (Exception msg),
       append_line path {| l_username := u; l_password := p; l_rest := "" |}
         (emit (ESaveResult u p "hit" (Some info) px)
            (emit (EPrint "HIT" u p message px)
               (set_counter (increment "hit" (counter w)) w)))).
Proof using Hsp Hpath Hne Hlevel Hint Hban Hemail.
  intros Hai. eexists.
  unfold report_login_hit. rewrite Hai, info_not_empty, Hban. cbn [negb andb].
  unfold bind at 1, ret at 1.
  unfold bind at 1, counter_increment at 1, modify at 1.
  unfold bind at 1, format_account_info at 1, bind at 1, email_of at 1.
  rewrite Hemail. unfold ret at 1. unfold ret at 1.
  unfold bind at 1, print_result at 1, modify at 1.
  unfold bind at 1. rewrite save_result_unreadable. reflexivity.
Qed.

End UnreadableLevel.



(** ** Reading back what was saved *)



Section ComboFacts.
Import Combo.

Lemma rstrip_blank s : Py.is_blank s = true -> rstrip s = "".
Proof.
  induction s as [|c r IH]; [reflexivity|]. cbn.
  intros H. apply andb_true_iff in H as [Hc Hr]. now rewrite IH, Hc.
Qed.

Lemma rstrip_not_blank s : Py.is_blank s = false -> rstrip s <> "".
Proof.
  induction s as [|c r IH]; [discriminate|]. cbn.
  destruct (rstrip r) eqn:Er; [|discriminate].
  destruct (Py.isspace c); [|discriminate].
  cbn. intros H. now apply IH in H.
Qed.

Lemma rstrip_app_newline s :
  rstrip s = s -> rstrip (s ++ newline) = s.
Proof.
  induction s as [|c r IH]; [reflexivity|]. intros H.
  assert (Hr : (r = "" /\ Py.isspace c = false) \/ (r <> "" /\ rstrip r = r)).
  { cbn [rstrip] in H. destruct (rstrip r) as [|c' r'] eqn:Er.
    - left. destruct (Py.isspace c); [discriminate|]. now injection H.
    - right. injection H as H. rewrite <- H. now split. }
  destruct Hr as [[-> Ec]|[Hne Hr]].
  - change (rstrip (String c "" ++ newline))
      with (match rstrip newline with
            | EmptyString => if Py.isspace c then EmptyString else String c EmptyString
            | r' => String c r'
            end).
    change (rstrip newline) with "". now rewrite Ec.
  - change (String c r ++ newline) with (String c (r ++ newline)).
    cbn [rstrip]. rewrite (IH Hr). destruct r; [contradiction|reflexivity].
Qed.

Lemma rstrip_cons_stripped c s :
  rstrip s = s -> s <> "" -> rstrip (String c s) = String c s.
Proof. intros H Hne. cbn. rewrite H. now destruct s. Qed.

Lemma rstrip_app_stripped a b :
  rstrip b = b -> b <> "" -> rstrip (a ++ b) = a ++ b.
Proof.
  intros Hb Hne. induction a as [|c r IH]; [exact Hb|].
  cbn [String.append]. apply rstrip_cons_stripped; [exact IH|].
  destruct r; [exact Hne|discriminate].
Qed.

Lemma rstrip_idem s : rstrip (rstrip s) = rstrip s.
Proof.
  induction s as [|c r IH]; [reflexivity|]. cbn [rstrip].
  destruct (rstrip r) as [|c' r'] eqn:Er.
  - destruct (Py.isspace c) eqn:Ec; [reflexivity|]. cbn. now rewrite Ec.
  - change (rstrip (String c (String c' r')))
      with (match rstrip (String c' r') with
            | EmptyString => if Py.isspace c then EmptyString else String c EmptyString
            | r'' => String c r''
            end).
    now rewrite IH.
Qed.

Lemma lstrip_idem s : lstrip (lstrip s) = lstrip s.
Proof.
  induction s as [|c r IH]; [reflexivity|]. cbn.
  destruct (Py.isspace c) eqn:Ec; [exact IH|]. cbn. now rewrite Ec.
Qed.

(** A string that starts with no white space. *)
Lemma lstrip_fixed_head s : lstrip s = s ->
  match s with String c _ => Py.isspace c = false | EmptyString => True end.
Proof.
  destruct s as [|c r]; [easy|]. cbn.
  destruct (Py.isspace c) eqn:Ec; [|easy].
  intros H. exfalso.
  assert (Hlen : forall t, String.length (lstrip t) <= String.length t).
  { induction t as [|a t IHt]; cbn; [lia|]. destruct (Py.isspace a); cbn; lia. }
  specialize (Hlen r). rewrite H in Hlen. cbn in Hlen. lia.
Qed.

Lemma rstrip_head s :
  match s with String c _ => Py.isspace c = false | EmptyString => True end ->
  match rstrip s with String c _ => Py.isspace c = false | EmptyString => True end.
Proof.
  destruct s as [|c r]; [easy|]. cbn. intros Hc.
  destruct (rstrip r); [now rewrite Hc|exact Hc].
Qed.

Lemma lstrip_head_fixed s :
  match s with String c _ => Py.isspace c = false | EmptyString => True end ->
  lstrip s = s.
Proof. destruct s as [|c r]; [easy|]. cbn. now intros ->. Qed.

Lemma lstrip_head s :
  match lstrip s with String c _ => Py.isspace c = false | EmptyString => True end.
Proof.
  induction s as [|c r IH]; [easy|]. cbn.
  destruct (Py.isspace c) eqn:Ec; [exact IH|exact Ec].
Qed.

Lemma strip_idem s : strip (strip s) = strip s.
Proof.
  unfold strip.
  rewrite (lstrip_head_fixed (rstrip (lstrip s))).
  - apply rstrip_idem.
  - apply rstrip_head, lstrip_head.
Qed.

Lemma strip_fixed s : strip s = s -> lstrip s = s /\ rstrip s = s.
Proof.
  intros H. assert (Hl : lstrip s = s).
  { apply lstrip_head_fixed. rewrite <- H. unfold strip.
    apply rstrip_head, lstrip_head. }
  split; [exact Hl|]. unfold strip in H. now rewrite Hl in H.
Qed.

Lemma nonblank_strip s : nonblank (strip s) = nonblank s.
Proof. unfold nonblank. now rewrite strip_idem. Qed.

Lemma contains_cons needle c r :
  Py.contains needle (String c r)
  = String.prefix needle (String c r) || Py.contains needle r.
Proof. reflexivity. Qed.

Lemma append_cons c r t : String c r ++ t = String c (r ++ t).
Proof. reflexivity. Qed.

Lemma prefix_colon c r : String.prefix ":" (String c r) = Ascii.eqb c ":".
Proof.
  change (String.prefix ":" (String c r))
    with (if ascii_dec ":" c then String.prefix "" r else false).
  destruct (ascii_dec ":" c) as [<-|Hn].
  - now destruct r.
  - symmetry. apply Ascii.eqb_neq. congruence.
Qed.

Lemma split_colon_app u rest :
  Py.contains ":" u = false -> split_colon (u ++ ":" ++ rest) = Some (u, rest).
Proof.
  induction u as [|c r IH]; [reflexivity|].
  rewrite contains_cons, append_cons. cbn [split_colon].
  rewrite prefix_colon.
  intros H. apply orb_false_iff in H as [Hp H].
  now rewrite Hp, IH.
Qed.

Lemma split_colon_inv line u rest :
  split_colon line = Some (u, rest) ->
  line = u ++ ":" ++ rest /\ Py.contains ":" u = false.
Proof.
  revert u. induction line as [|c r IH]; intros u; [discriminate|].
  cbn [split_colon]. destruct (Ascii.eqb c ":") eqn:Ec.
  - apply Ascii.eqb_eq in Ec. subst c. intros [= <- <-]. now split.
  - destruct (split_colon r) as [[a b]|]; [|discriminate].
    intros [= <- <-]. destruct (IH a eq_refl) as [-> Hc].
    split; [reflexivity|]. now rewrite contains_cons, Hc, orb_false_r, prefix_colon.
Qed.

Lemma rstrip_app_l a b : rstrip b <> "" -> rstrip (a ++ b) = a ++ rstrip b.
Proof.
  intros Hb. induction a as [|c r IH]; [reflexivity|].
  rewrite !append_cons. cbn [rstrip]. rewrite IH.
  destruct (r ++ rstrip b) eqn:E; [|reflexivity].
  destruct r; [|discriminate]. now destruct (rstrip b).
Qed.

Lemma rstrip_colon p : rstrip p = p -> rstrip (String ":" p) = String ":" p.
Proof. intros H. cbn [rstrip]. rewrite H. now destruct p. Qed.

Lemma strip_saved_line u p :
  lstrip u = u -> rstrip p = p ->
  strip (u ++ ":" ++ p ++ newline) = u ++ ":" ++ p.
Proof.
  intros Hu Hp. unfold strip.
  rewrite (lstrip_head_fixed (u ++ ":" ++ p ++ newline)).
  - change (":" ++ p ++ newline) with (String ":" p ++ newline).
    rewrite rstrip_app_l.
    + now rewrite rstrip_app_newline by now apply rstrip_colon.
    + rewrite rstrip_app_newline by now apply rstrip_colon. discriminate.
  - apply lstrip_fixed_head in Hu. destruct u; [reflexivity|exact Hu].
Qed.

End ComboFacts.

Section ReadBack.
Import Combo.

Lemma load_written_line username password :
  Py.contains ":" username = false ->
  strip username = username ->
  strip (string_of_list_ascii password) = string_of_list_ascii password ->
  load_line
    (written {| Checker.l_username := username;
                Checker.l_password := password;
                Checker.l_rest := "" |})
  = Some (username, string_of_list_ascii password).
Proof.
  intros Hcolon Hu Hp. unfold written, load_line.
  cbn [Checker.l_username Checker.l_password Checker.l_rest].
  set (p := string_of_list_ascii password) in *.
  pose proof (strip_fixed _ Hu) as [Hul Hur].
  pose proof (strip_fixed _ Hp) as [Hpl Hpr].
  change (username ++ ":" ++ p ++ "" ++ newline)
    with (username ++ ":" ++ p ++ newline).
  rewrite strip_saved_line by assumption.
  rewrite split_colon_app by exact Hcolon.
  now rewrite Hu, Hp.
Qed.

End ReadBack.

(** X17: a hits or fails file that [save_result] wrote is read back by
    [load_combo_file] as the credentials it was written for, in order,
    provided no username has a colon and no username or password starts or
    ends with white space or holds a line break. *)
Theorem saved_file_is_read_back (saved : list (Checker.line ascii)) :
  Forall (fun ln =>
            Checker.l_rest ln = ""
            /\ Py.contains ":" (Checker.l_username ln) = false
            /\ Combo.strip (Checker.l_username ln) = Checker.l_username ln
            /\ Combo.strip (string_of_list_ascii (Checker.l_password ln))
               = string_of_list_ascii (Checker.l_password ln)
            /\ Combo.one_line (Checker.l_username ln) = true
            /\ Combo.one_line (string_of_list_ascii (Checker.l_password ln)) = true)
         saved ->
  Combo.load_combo_file (map Combo.written saved)
  = map (fun ln => (Checker.l_username ln,
                    string_of_list_ascii (Checker.l_password ln))) saved.
Proof.
  induction 1 as [|[u p rest] l (Hrest & Hcolon & Hu & Hp & _ & _) _ IH];
    [reflexivity|].
  cbn [Checker.l_rest Checker.l_username Checker.l_password] in *. subst rest.
  unfold Combo.load_combo_file in *. cbn [map omap list_omap].
  rewrite load_written_line by assumption. cbn. now rewrite IH.
Qed.

(** ** The password fixer and the client's policy *)

Section Fixer.
Import Combo AsciiChar.

Lemma allowed_char_check c :
  implb (allowed c)
    (is_alnum c
     && match to_upper c with
        | [c'] => allowed c' && implb (is_alpha c) (is_upper c')
        | _ => false
        end) = true.
Proof. destruct c as [[] [] [] [] [] [] [] []]; vm_compute; reflexivity. Qed.

Lemma allowed_char c :
  allowed c = true ->
  is_alnum c = true
  /\ exists c', to_upper c = [c'] /\ allowed c' = true
                /\ (is_alpha c = true -> is_upper c' = true).
Proof.
  intros H. pose proof (allowed_char_check c) as Hc. rewrite H in Hc.
  cbn [implb] in Hc. apply andb_true_iff in Hc as [Ha Hu].
  split; [exact Ha|].
  destruct (to_upper c) as [|c' [|]]; try discriminate.
  apply andb_true_iff in Hu as [Hc' Hi].
  exists c'. repeat split; [exact Hc'|].
  intros Halpha. now rewrite Halpha in Hi.
Qed.

Lemma allowed_no_special l :
  forallb allowed l = true -> existsb (fun c => negb (isalnum c)) l = false.
Proof.
  induction l as [|c l IH]; [reflexivity|]. cbn [forallb existsb].
  intros H. apply andb_true_iff in H as [Hc Hl].
  destruct (allowed_char c Hc) as [Ha _]. rewrite (IH Hl).
  cbn [isalnum ascii_PyChar]. now rewrite Ha.
Qed.

Lemma capitalize_allowed l :
  forallb allowed l = true ->
  forallb allowed (MTClient.capitalize_first_alpha l) = true
  /\ length (MTClient.capitalize_first_alpha l) = length l
  /\ (existsb isalpha l = true ->
      existsb isupper (MTClient.capitalize_first_alpha l) = true)
  /\ (existsb isalpha l = false -> MTClient.capitalize_first_alpha l = l).
Proof.
  induction l as [|c l IH]; [now repeat split|].
  cbn [forallb existsb MTClient.capitalize_first_alpha].
  intros H. apply andb_true_iff in H as [Hc Hl].
  destruct (allowed_char c Hc) as (_ & c' & Hup & Hc' & Halpha).
  change (isalpha c) with (is_alpha c). change (upper c) with (to_upper c).
  destruct (is_alpha c) eqn:Ea.
  - rewrite Hup. cbn [app forallb existsb length].
    change (isupper c') with (is_upper c').
    rewrite Hc', Hl, (Halpha eq_refl). cbn [orb andb].
    repeat split; auto. intros H; discriminate H.
  - destruct (IH Hl) as (H1 & H2 & H3 & H4).
    cbn [forallb existsb length orb]. rewrite Hc, H1, H2.
    repeat split; auto.
    + intros Hx. rewrite (H3 Hx). apply orb_true_r.
    + intros Hx. now rewrite (H4 Hx).
Qed.

Lemma upper_is_alpha l : existsb isupper l = true -> existsb (isalpha (char := ascii)) l = true.
Proof.
  induction l as [|c l IH]; [discriminate|]. cbn [existsb].
  change (isupper c) with (is_upper c).
  change (isalpha c) with (is_upper c || is_lower c).
  destruct (is_upper c); [reflexivity|]. cbn [orb]. intros H. rewrite (IH H).
  apply orb_true_r.
Qed.

Lemma process_line_inv line out :
  process_line line = Some out ->
  exists email password,
    split_colon line = Some (email, password)
    /\ forallb allowed (list_ascii_of_string password) = true
    /\ 6 <= length (list_ascii_of_string password)
    /\ out = email ++ ":" ++ string_of_list_ascii (fixed (list_ascii_of_string password)).
Proof.
  unfold process_line.
  destruct (split_colon line) as [[email password]|]; [|discriminate].
  destruct (forallb allowed _) eqn:Ha; [|discriminate].
  destruct (6 <=? _) eqn:Hl; [|discriminate].
  intros [= <-]. exists email, password. apply Nat.leb_le in Hl. now repeat split.
Qed.

Lemma fixed_fixed l : forallb allowed l = true -> fixed (fixed l) = fixed l.
Proof.
  intros Ha. unfold fixed.
  destruct (existsb isupper l) eqn:Eu; cbn [negb]; [now rewrite Eu|].
  destruct (capitalize_allowed l Ha) as (H1 & H2 & H3 & H4).
  destruct (existsb isalpha l) eqn:Ealpha.
  - now rewrite (H3 eq_refl).
  - rewrite (H4 eq_refl), Eu. cbn [negb]. now apply H4.
Qed.

Lemma fixed_allowed l :
  forallb allowed l = true ->
  forallb allowed (fixed l) = true /\ length (fixed l) = length l.
Proof.
  intros Ha. unfold fixed. destruct (negb _); [|now split].
  destruct (capitalize_allowed l Ha) as (H1 & H2 & _). now split.
Qed.

End Fixer.

(** X18: a line that [fix_password_format] keeps is one whose password the
    client then accepts, but for the digit that the fixer does not ask for:
    the client's format check of the password as it was in the file gives
    the password that the fixer wrote, and it accepts it if and only if the
    password has a digit. *)
Theorem fixed_line_meets_the_client_policy_but_for_the_digit line out :
  Combo.process_line line = Some out ->
  exists email password password',
    Combo.split_colon line = Some (email, password)
    /\ out = email ++ ":" ++ password'
    /\ MTClient._validate_password_format (AsciiChar.chars password)
       = (existsb isdigit (AsciiChar.chars password),
          AsciiChar.chars password',
          if existsb isdigit (AsciiChar.chars password) then ""
          else "Password must contain at least one number").
Proof.
  intros H. apply process_line_inv in H as (email & password & Hs & Ha & Hl & ->).
  exists email, password, (string_of_list_ascii (fixed (list_ascii_of_string password))).
  split; [exact Hs|]. split; [reflexivity|].
  unfold AsciiChar.chars. rewrite list_ascii_of_string_of_list_ascii.
  set (l := list_ascii_of_string password) in *.
  unfold MTClient._validate_password_format.
  replace (length l <? 6) with false by (symmetry; apply Nat.ltb_ge; exact Hl).
  rewrite (allowed_no_special l Ha). unfold fixed.
  destruct (existsb isupper l), (existsb islower l), (existsb isdigit l);
    reflexivity.
Qed.

(** X19: fixing a fixed file changes nothing: a line that
    [fix_password_format] wrote is kept as it is by a second pass. *)
Theorem fixing_twice_changes_nothing line out :
  Combo.process_line line = Some out ->
  Combo.process_line out = Some out.
Proof.
  intros H. apply process_line_inv in H as (email & password & Hs & Ha & Hl & ->).
  apply split_colon_inv in Hs as [_ Hcolon].
  unfold Combo.process_line.
  rewrite (split_colon_app email _ Hcolon).
  rewrite list_ascii_of_string_of_list_ascii.
  destruct (fixed_allowed _ Ha) as [Ha' Hl'].
  rewrite Ha'. replace (6 <=? length _) with true
    by (symmetry; apply Nat.leb_le; rewrite Hl'; exact Hl).
  change (if negb (existsb isupper (fixed (list_ascii_of_string password)))
          then MTClient.capitalize_first_alpha (fixed (list_ascii_of_string password))
          else fixed (list_ascii_of_string password))
    with (fixed (fixed (list_ascii_of_string password))).
  now rewrite fixed_fixed.
Qed.

(** ** Lines, chunks and duplicates *)

Section Chunks.
Import Combo.

Lemma slices_cover {A} size : 1 <= size -> forall n (l : list A),
  length l <= n * size ->
  concat (map (fun k => firstn size (skipn (k * size) l)) (seq 0 n)) = l.
Proof.
  intros Hsize. induction n as [|n IH]; intros l Hlen.
  - destruct l; [reflexivity|cbn in Hlen; lia].
  - rewrite <- cons_seq, <- seq_shift. cbn [map concat]. rewrite map_map.
    cbn [Nat.mul skipn].
    rewrite (map_ext _ (fun k => firstn size (skipn (k * size) (skipn size l)))).
    + rewrite IH; [apply firstn_skipn|]. rewrite length_skipn. lia.
    + intros k. f_equal. rewrite skipn_skipn. f_equal. lia.
Qed.

Lemma slices_concat {A} size (l : list A) : 1 <= size -> concat (slices size l) = l.
Proof.
  intros Hsize. unfold slices. apply slices_cover; [exact Hsize|].
  pose proof (Nat.div_mod_eq (length l + size - 1) size) as Hd.
  pose proof (Nat.mod_upper_bound (length l + size - 1) size ltac:(lia)) as Hm.
  nia.
Qed.

Lemma slices_single {A} (l : list A) : l <> [] -> slices (length l) l = [l].
Proof.
  intros Hne. unfold slices.
  assert (Hlen : 1 <= length l) by (destruct l; [contradiction|cbn; lia]).
  replace ((length l + length l - 1) / length l) with 1.
  - cbn. now rewrite firstn_all.
  - apply Nat.div_unique with (r := length l - 1); lia.
Qed.

Lemma filter_all {A} (f : A -> bool) l : Forall (fun x => f x = true) l -> List.filter f l = l.
Proof. induction 1 as [|x l Hx _ IH]; [reflexivity|]. cbn. now rewrite Hx, IH. Qed.

Lemma stripped_nonblank lines :
  Forall (fun x => nonblank x = true) (map strip (List.filter nonblank lines)).
Proof.
  apply List.Forall_forall. intros x Hx. apply in_map_iff in Hx as (y & <- & Hy).
  apply filter_In in Hy as [_ Hy]. now rewrite nonblank_strip.
Qed.

Lemma concat_chunks {A} (f : string -> A) (chunks : list (list string)) :
  Forall (fun x => nonblank x = true) (concat chunks) ->
  concat (map (fun chunk => process_file_chunk chunk f) chunks)
  = map f (concat chunks).
Proof.
  induction chunks as [|c cs IH]; [reflexivity|]. cbn [concat map].
  intros H. apply Forall_app in H as [Hc Hcs].
  rewrite map_app, IH by exact Hcs. unfold process_file_chunk.
  now rewrite filter_all.
Qed.

Lemma concat_perm {A} (l l' : list (list A)) :
  Permutation l l' -> Permutation (concat l) (concat l').
Proof.
  induction 1; cbn [concat].
  - reflexivity.
  - now apply Permutation_app_head.
  - rewrite !app_assoc. apply Permutation_app_tail, Permutation_app_comm.
  - etransitivity; eassumption.
Qed.

Variable completion : list (list string) -> list (list string).
Hypothesis completion_perm : forall chunks, Permutation (completion chunks) chunks.

Lemma process_with_threads_perm {A} lines (f : string -> A) thread_count :
  1 <= thread_count ->
  Permutation (process_with_threads completion lines f thread_count)
    (map f (map strip (List.filter nonblank lines))).
Proof using completion_perm.
  intros Htc. unfold process_with_threads.
  pose proof (stripped_nonblank lines) as Hnb.
  set (ls := map strip (List.filter nonblank lines)) in *.
  destruct ls as [|x ls'] eqn:Els; [reflexivity|]. rewrite <- Els in *.
  replace (thread_count =? 0) with false by (symmetry; apply Nat.eqb_neq; lia).
  set (size := Nat.max 1 (length ls / thread_count)).
  assert (Hsize : 1 <= size) by (unfold size; lia).
  rewrite concat_chunks.
  - rewrite <- (slices_concat size ls Hsize) at 2.
    apply Permutation_map, concat_perm, completion_perm.
  - eapply Permutation_Forall; [symmetry; apply concat_perm, completion_perm|].
    now rewrite slices_concat.
Qed.

Lemma process_with_one_thread {A} lines (f : string -> A) :
  process_with_threads completion lines f 1
  = map f (map strip (List.filter nonblank lines)).
Proof using completion_perm.
  unfold process_with_threads.
  pose proof (stripped_nonblank lines) as Hnb.
  set (ls := map strip (List.filter nonblank lines)) in *.
  destruct ls as [|x ls'] eqn:Els; [reflexivity|]. rewrite <- Els in *.
  cbn [Nat.eqb]. rewrite Nat.div_1_r.
  assert (Hlen : 1 <= length ls) by (rewrite Els; cbn; lia).
  rewrite Nat.max_r by exact Hlen.
  rewrite slices_single by (rewrite Els; discriminate).
  pose proof (completion_perm [ls]) as Hp.
  apply Permutation_sym, Permutation_length_1_inv in Hp. rewrite Hp.
  cbn [map concat]. rewrite app_nil_r. unfold process_file_chunk.
  now rewrite filter_all.
Qed.

Lemma fromkeys_in lines : forall keys x,
  In x (fromkeys lines keys) <-> In x keys \/ In x lines.
Proof.
  induction lines as [|y r IH]; intros keys x; cbn [fromkeys].
  - cbn. tauto.
  - rewrite IH. destruct (existsb (String.eqb y) keys) eqn:Ey.
    + apply existsb_exists in Ey as (z & Hz & Hyz).
      apply String.eqb_eq in Hyz. subst z. cbn. intuition (subst; auto).
    + rewrite in_app_iff. cbn. tauto.
Qed.

Lemma fromkeys_nodup lines : forall keys, NoDup keys -> NoDup (fromkeys lines keys).
Proof.
  induction lines as [|y r IH]; intros keys Hk; cbn [fromkeys]; [exact Hk|].
  apply IH. destruct (existsb (String.eqb y) keys) eqn:Ey; [exact Hk|].
  apply NoDup_app. split; [exact Hk|]. split.
  - intros x Hx Hy. apply list_elem_of_singleton in Hy. subst x.
    apply list_elem_of_In in Hx.
    assert (existsb (String.eqb y) keys = true); [|congruence].
    apply existsb_exists. exists y. split; [exact Hx|apply String.eqb_refl].
  - apply NoDup_singleton.
Qed.

End Chunks.

(** X20: [process_with_threads] applies the function once to every line
    of the file that is not blank, stripped, whatever the number of threads
    (at least one) and whatever the order in which the chunks complete: its
    result is the list of the results, up to the order.  With one thread the
    order is that of the file. *)
Theorem threads_process_every_line_once {A} completion lines
    (process_func : string -> A) thread_count :
  (forall chunks, Permutation (completion chunks) chunks) ->
  1 <= thread_count ->
  Permutation
    (Combo.process_with_threads completion lines process_func thread_count)
    (map process_func (map Combo.strip (List.filter Combo.nonblank lines)))
  /\ (thread_count = 1 ->
      Combo.process_with_threads completion lines process_func thread_count
      = map process_func (map Combo.strip (List.filter Combo.nonblank lines))).
Proof.
  intros Hc Htc. split.
  - now apply process_with_threads_perm.
  - intros ->. now apply process_with_one_thread.
Qed.

(** X21: what [remove_duplicates] writes, whatever the number of threads
    (at least one) and the order in which the chunks complete: no line
    twice, and exactly the lines of the file that are not blank, stripped. *)
Theorem remove_duplicates_keeps_one_of_each completion lines thread_count :
  (forall chunks, Permutation (completion chunks) chunks) ->
  1 <= thread_count ->
  NoDup (Combo.remove_duplicates completion lines thread_count)
  /\ forall x,
       In x (Combo.remove_duplicates completion lines thread_count)
       <-> exists line, In line lines /\ Combo.nonblank line = true
                        /\ x = Combo.strip line.
Proof.
  intros Hc Htc. unfold Combo.remove_duplicates. split.
  - apply fromkeys_nodup. constructor.
  - intros x. rewrite fromkeys_in.
    pose proof (process_with_threads_perm completion Hc lines Combo.strip
                  thread_count Htc) as Hp.
    split.
    + intros [[]|Hx]. eapply Permutation_in in Hx; [|exact Hp].
      apply in_map_iff in Hx as (y & <- & Hy).
      apply in_map_iff in Hy as (z & <- & Hz).
      apply filter_In in Hz as [Hz Hnb].
      exists z. rewrite strip_idem. now repeat split.
    + intros (line & Hin & Hnb & ->). right.
      eapply Permutation_in; [symmetry; exact Hp|].
      rewrite <- strip_idem. apply in_map, in_map.
      apply filter_In. now split.
Qed.

Lemma saved_file_is_read_back_witness :
  Combo.load_combo_file (map Combo.written Examples.two_fails)
  = [ ("alice@x.com", "pass word"); ("bob@x.com", "Hunter22") ].
Proof.
  apply (saved_file_is_read_back Examples.two_fails).
  repeat constructor; vm_compute; reflexivity.
Defined.

Lemma fixed_line_witness :
  exists email password password',
    Combo.split_colon "carol@x.com:abcdef" = Some (email, password)
    /\ "carol@x.com:Abcdef" = email ++ ":" ++ password'
    /\ MTClient._validate_password_format (AsciiChar.chars password)
       = (existsb isdigit (AsciiChar.chars password),
          AsciiChar.chars password',
          if existsb isdigit (AsciiChar.chars password) then ""
          else "Password must contain at least one number").
Proof.
  apply (fixed_line_meets_the_client_policy_but_for_the_digit
           "carol@x.com:abcdef" "carol@x.com:Abcdef").
  vm_compute. reflexivity.
Defined.

Lemma fixing_twice_witness :
  Combo.process_line "alice@x.com:Password1" = Some "alice@x.com:Password1".
Proof.
  apply (fixing_twice_changes_nothing "alice@x.com:password1").
  vm_compute. reflexivity.
Defined.

Lemma threads_process_every_line_once_witness :
  Permutation
    (Combo.process_with_threads (@rev (list string)) Examples.combo_lines
       Combo.process_line 2)
    (map Combo.process_line
       (map Combo.strip (List.filter Combo.nonblank Examples.combo_lines)))
  /\ (2 = 1 ->
      Combo.process_with_threads (@rev (list string)) Examples.combo_lines
        Combo.process_line 2
      = map Combo.process_line
          (map Combo.strip (List.filter Combo.nonblank Examples.combo_lines))).
Proof.
  apply (threads_process_every_line_once (@rev (list string)) Examples.combo_lines
           Combo.process_line 2).
  - intros chunks. symmetry. apply Permutation_rev.
  - lia.
Defined.

Lemma remove_duplicates_witness :
  NoDup (Combo.remove_duplicates (@rev (list string)) Examples.combo_lines 2)
  /\ forall x,
       In x (Combo.remove_duplicates (@rev (list string)) Examples.combo_lines 2)
       <-> exists line, In line Examples.combo_lines /\ Combo.nonblank line = true
                        /\ x = Combo.strip line.
Proof.
  apply (remove_duplicates_keeps_one_of_each (@rev (list string)) Examples.combo_lines 2).
  - intros chunks. symmetry. apply Permutation_rev.
  - lia.
Defined.

(** ** The proxy of a request *)

Section ThroughProxy.
Import MTClient.
Context {char : Type} {PC : PyChar char}.
Variable E : env.

Lemma off_proxy_quiet px (ev : net_event char) :
  is_post ev = false -> off_proxy px ev = 0.
Proof. now destruct ev. Qed.

Lemma cost_make_request_via api u (p : list char) px :
  cost (@net_log char) (off_proxy px) 0 (make_request E api u p px).
Proof.
  intros c. unfold make_request.
  exists [EPost (base_url c) api u p (payload_proxy px)].
  split; [now destruct (post_at E (tick c) (base_url c) api)|].
  unfold total. cbn. rewrite decide_True by reflexivity. lia.
Qed.

Lemma cost_login_via depth : forall u (p : list char) px,
  cost (@net_log char) (off_proxy px) 0 (login E depth u p px).
Proof.
  induction depth as [|d IH]; intros u p px; cbn [login];
    destruct (_validate_password_format p) as [[ok q] err];
    (destruct ok; cbn [negb]; [|apply cost_ret]);
    (apply cost_try_except_l;
      [|intros e h He; destruct e; inversion He; subst; apply cost_ret]);
    (apply cost_bind_l;
      [apply (cost_request_loop E _ (off_proxy_quiet px) 0 _ 3 3 None),
             cost_make_request_via|]);
    intros resp;
    (destruct (first_key_in _ _); [apply cost_ret|]);
    (destruct (Py.any_key_in _ _); [apply cost_raise|]);
    (destruct (json resp); [apply cost_login_parsed|]);
    (apply cost_bind_l; [apply cost_switch_server, off_proxy_quiet|]);
    intros sw; destruct sw; try apply cost_raise.
  apply IH.
Qed.

End ThroughProxy.

(** X22: [login] sends every request through the caller's proxy: each POST
    it makes, also after a failover and in a re-invocation, carries the
    [proxy] entry built from the [proxy] argument. *)
Theorem login_posts_through_the_proxy {char} {PC : PyChar char}
    E depth u (p : list char) px (c : MTClient.client_state char) :
  exists l,
    MTClient.net_log (MTClient.login E depth u p px c).2
    = (MTClient.net_log c ++ l)%list
    /\ Forall (fun ev => forall base api u' q sent,
                 ev = MTClient.EPost base api u' q sent ->
                 sent = MTClient.payload_proxy px) l.
Proof.
  destruct (cost_login_via E depth u p px c) as (l & El & Hl).
  exists l. split; [exact El|].
  apply total_zero_Forall in Hl.
  eapply List.Forall_impl; [|exact Hl]. cbn.
  intros ev Hev base api u' q sent ->. cbn in Hev.
  now destruct (decide (sent = MTClient.payload_proxy px)).
Qed.

(** X23: [validate_account] repeats itself without the proxy.  When the
    answer to its POST is neither blank nor the suspended page, has no ban or
    retry key and is no JSON, and the failover reports a switch, the call
    goes on as a call of [validate_account] with the modified password and
    no proxy at all, whatever proxy the caller gave. *)
Theorem validate_repeats_without_the_proxy {char} {PC : PyChar char}
    E depth u (p q : list char) e px (c c2 : MTClient.client_state char) resp :
  MTClient._validate_password_format p = (true, q, e) ->
  MTClient.post_at E (MTClient.tick c) (MTClient.base_url c) MTClient.Validate
    = MTClient.Responds resp ->
  Py.is_blank (MTClient.text resp) = false ->
  Py.contains "This service has been suspended" (MTClient.text resp) = false ->
  MTClient.first_key_in MTClient.validate_ban_keys (Py.lower (MTClient.text resp))
    = None ->
  Py.any_key_in MTClient.validate_retry_keys (Py.lower (MTClient.text resp))
    = false ->
  MTClient.json resp = None ->
  MTClient._switch_server E
    (MTClient.interact
       (MTClient.EPost (MTClient.base_url c) MTClient.Validate u q
          (MTClient.payload_proxy px)) c)
    = (Val true, c2) ->
  MTClient.validate_account E (S depth) u p px c
  = MTClient.validate_account E depth u q None c2.
Proof.
  intros Hf Hpost Hblank Hsusp Hban Hretry Hjson Hsw.
  cbn [MTClient.validate_account]. rewrite Hf. cbn [negb].
  unfold try_except at 1. unfold bind at 1.
  unfold MTClient._make_request_with_retry.
  cbn [MTClient.request_loop].
  unfold MTClient.request_once at 1. unfold bind at 1.
  unfold MTClient.make_request at 1. rewrite Hpost, Hblank, Hsusp.
  unfold ret at 1. rewrite Hban, Hretry, Hjson.
  unfold bind at 1. rewrite Hsw.
  destruct (MTClient.validate_account E depth u q None c2) as [[r|sig] c3] eqn:Hrec;
    [reflexivity|].
  now apply throws_validate_account in Hrec.
Qed.

Lemma validate_repeats_without_the_proxy_witness :
  MTClient.validate_account Examples.bad_gateway 1 "alice@x.com"
    (AsciiChar.chars "Password1")
    (Some (MTClient.ProxyDict (Checker.proxy_dict Examples.proxy0)))
    Examples.client0
  = MTClient.validate_account Examples.bad_gateway 0 "alice@x.com"
      (AsciiChar.chars "Password1") None
      {| MTClient.tick := 4;
         MTClient.base_url := "https://mtchk-sg.onrender.com";
         MTClient.net_log :=
           [ MTClient.EPost Examples.primary MTClient.Validate "alice@x.com"
               (AsciiChar.chars "Password1")
               (MTClient.payload_proxy
                  (Some (MTClient.ProxyDict (Checker.proxy_dict Examples.proxy0))));
             MTClient.EPing Examples.primary;
             MTClient.EPing "https://mtchk-sg.onrender.com";
             MTClient.EWriteConfig "https://mtchk-sg.onrender.com" ] |}.
Proof.
  eapply (validate_repeats_without_the_proxy Examples.bad_gateway 0 "alice@x.com"
            (AsciiChar.chars "Password1") (AsciiChar.chars "Password1") "").
  - vm_compute. reflexivity.
  - reflexivity.
  - vm_compute. reflexivity.
  - vm_compute. reflexivity.
  - vm_compute. reflexivity.
  - vm_compute. reflexivity.
  - reflexivity.
  - vm_compute. reflexivity.
Defined.

(** ** The pool over a whole run *)

Section PoolRuns.
Import MTClient Checker.
Context {char : Type} {PC : PyChar char}.
Variable py_int : jval -> Z + string.
Variable cfg : config.
Variable check_info : bool.
Variable thread_count : nat.

Abbreviation pstep := (step py_int cfg check_info thread_count).

Lemma step_bounds pr pr' :
  pstep pr pr' ->
  (length (running (pool_of pr)) <= thread_count ->
   length (running (pool_of pr')) <= thread_count)
  /\ (stop_event (pool_of pr) = true ->
      stop_event (pool_of pr') = true
      /\ length (running (pool_of pr')) <= length (running (pool_of pr)))
  /\ length (queued (pool_of pr')) + length (running (pool_of pr'))
     <= length (queued (pool_of pr)) + length (running (pool_of pr)).
Proof.
  intros Hstep.
  destruct Hstep; cbn [pool_of stop_event queued running set_shared];
    repeat match goal with
           | H : queued _ = _ |- _ => rewrite H
           | H : running _ = _ |- _ => rewrite H
           | H : stop_event _ = _ |- _ => rewrite H
           end;
    rewrite ?length_app; cbn [length]; rewrite ?length_app; cbn [length];
    repeat split; intros; try congruence; try lia.
Qed.

Lemma run_bounds pr pr' :
  rtc pstep pr pr' ->
  (length (running (pool_of pr)) <= thread_count ->
   length (running (pool_of pr')) <= thread_count)
  /\ (stop_event (pool_of pr) = true ->
      stop_event (pool_of pr') = true
      /\ length (running (pool_of pr')) <= length (running (pool_of pr)))
  /\ length (queued (pool_of pr')) + length (running (pool_of pr'))
     <= length (queued (pool_of pr)) + length (running (pool_of pr)).
Proof.
  induction 1 as [pr|pr pr1 pr' Hstep _ IH].
  - repeat split; auto.
  - destruct (step_bounds _ _ Hstep) as (B1 & S1 & C1).
    destruct IH as (B2 & S2 & C2).
    split; [auto|]. split; [|lia].
    intros Hs. destruct (S1 Hs) as [Hs1 L1]. destruct (S2 Hs1) as [Hs2 L2].
    split; [exact Hs2|lia].
Qed.

End PoolRuns.



(** ** A key that is not active *)

Section InactiveKey.
Import MTClient Checker.
Context {char : Type} {PC : PyChar char}.
Variables (E : env) (depth : nat) (proxies : nat -> option proxy_data).
Variable py_int : jval -> Z + string.
Variable cfg : config.
Variables (u : string) (p q : list char) (e : string) (resp : response).
Hypothesis Hformat : _validate_password_format p = (true, q, e).
Hypothesis Hblank : Py.is_blank (text resp) = false.
Hypothesis Hsuspended :
  Py.contains "This service has been suspended" (text resp) = false.
Hypothesis Hlimit : Py.contains "limit_exceeded" (Py.lower (text resp)) = false.
Hypothesis Hkey :
  Py.contains "invalid or inactive api key" (Py.lower (text resp)) = true.

Lemma validate_inactive_key px (c : client_state char) :
  post_at E (tick c) (base_url c) Validate = Responds resp ->
  validate_account E depth u p px c
  = (Val (failure (JStr "Invalid or inactive API key")),
     interact (EPost (base_url c) Validate u q (payload_proxy px)) c).
Proof using Hformat Hblank Hsuspended Hlimit Hkey.
  intros Hp.
  assert (Hfind : first_key_in validate_ban_keys (Py.lower (text resp))
                  = Some "Invalid or inactive API key").
  { unfold first_key_in, validate_ban_keys. cbn [find].
    change (Py.lower "limit_exceeded") with "limit_exceeded".
    change (Py.lower "Invalid or inactive API key") with "invalid or inactive api key".
    now rewrite Hlimit, Hkey. }
  destruct depth; cbn [validate_account]; rewrite Hformat; cbn [negb];
    unfold try_except, bind, _make_request_with_retry; cbn [request_loop];
    unfold request_once, bind, make_request; rewrite Hp, Hblank, Hsuspended;
    unfold ret; cbn [text]; now rewrite Hfind.
Qed.

Lemma login_inactive_key px (c : client_state char) :
  post_at E (tick c) (base_url c) Login = Responds resp ->
  (forall d, json resp = Some (JDict d) -> d !! "api_key_info" = None) ->
  login E depth u p px c
  = (Val (failure (JStr "Invalid or inactive API key")),
     interact (EPost (base_url c) Login u q (payload_proxy px)) c).
Proof using Hformat Hblank Hsuspended Hlimit Hkey.
  intros Hp Hinfo.
  assert (Hfind : first_key_in login_ban_keys (Py.lower (text resp))
                  = Some "Invalid or inactive API key").
  { unfold first_key_in, login_ban_keys. cbn [find].
    change (Py.lower "limit_exceeded") with "limit_exceeded".
    change (Py.lower "Invalid or inactive API key") with "invalid or inactive api key".
    now rewrite Hlimit, Hkey. }
  assert (Herr : login_ban_error resp "Invalid or inactive API key"
                 = JStr "Invalid or inactive API key").
  { unfold login_ban_error. destruct (json resp) as [[d|]|] eqn:Ej; try reflexivity.
    now rewrite (Hinfo d eq_refl). }
  destruct depth; cbn [login]; rewrite Hformat; cbn [negb];
    unfold try_except, bind, _make_request_with_retry; cbn [request_loop];
    unfold request_once, bind, make_request; rewrite Hp, Hblank, Hsuspended;
    unfold ret; cbn [text]; now rewrite Hfind, Herr.
Qed.

End InactiveKey.


